(** * DocMineAI: chunking, response parsing, result merging and the
      extraction orchestrator

    A shallow embedding of [src/text_processor.py], [src/config_manager.py],
    [src/llm_interface.py] (the factory), [utils/file_utils.py] and
    [extract.py], together with the properties of the pipeline that the
    specification states.

    Conventions.
    - A Python [str] is a [list ascii]; a character is a code point below 256.
    - Python integers are [Z]; indices that the source lets go negative stay
      in [Z] and slicing follows Python's rules for negative indices.
    - A [while] loop is a function with fuel: [None] means that the loop has
      not finished within the fuel.
    - An operation that may raise returns [res]; a [try]/[except] of the
      source is a [match] on that result. *)

From Stdlib Require Import ZArith Ascii String Bool Lia List.
Import ListNotations.

Local Open Scope Z_scope.

(** ** Characters and strings *)

Definition str := list ascii.

Definition s2l (s : string) : str := list_ascii_of_string s.

Definition nl : ascii := "010"%char.

Definition dquote : ascii := "034"%char.

(** [str.isspace] on one character, for the code points below 256: tab to
    carriage return, the four separators 28..31, space, NEL and the
    no-break space.  The regular expression class [\s] is the same set. *)
Definition is_space (c : ascii) : bool :=
  let n := N_of_ascii c in
  ((9 <=? n) && (n <=? 13) || (28 <=? n) && (n <=? 32)
   || (n =? 133) || (n =? 160))%N.

(** The class [\w] of a [str] pattern: alphanumeric characters and the
    underscore, for the code points below 256. *)
Definition is_word (c : ascii) : bool :=
  let n := N_of_ascii c in
  ((48 <=? n) && (n <=? 57) || (65 <=? n) && (n <=? 90)
   || (97 <=? n) && (n <=? 122) || (n =? 95)
   || (n =? 170) || (n =? 178) || (n =? 179) || (n =? 181)
   || (n =? 185) || (n =? 186) || (188 <=? n) && (n <=? 190)
   || (192 <=? n) && (n <=? 214) || (216 <=? n) && (n <=? 246)
   || (248 <=? n) && (n <=? 255))%N.

Definition py_len (s : str) : Z := Z.of_nat (length s).

Definition nonempty {A} (l : list A) : bool :=
  match l with [] => false | _ :: _ => true end.

Fixpoint str_eqb (a b : str) : bool :=
  match a, b with
  | [], [] => true
  | x :: a', y :: b' => Ascii.eqb x y && str_eqb a' b'
  | _, _ => false
  end.

Fixpoint prefixb (p s : str) : bool :=
  match p, s with
  | [], _ => true
  | x :: p', y :: s' => Ascii.eqb x y && prefixb p' s'
  | _ :: _, [] => false
  end.

(** [needle in hay] for two strings. *)
Fixpoint substringb (needle hay : str) : bool :=
  prefixb needle hay ||
  match hay with
  | [] => false
  | _ :: hay' => substringb needle hay'
  end.

(** An index of a slice: negative indices count from the end, and the result
    is clamped to [0, n]. *)
Definition clamp_index (n i : Z) : Z :=
  if i <? 0 then Z.max 0 (i + n) else Z.min i n.

(** [s[start:stop]]. *)
Definition py_slice (s : str) (start stop : Z) : str :=
  let n := py_len s in
  let lo := clamp_index n start in
  let hi := clamp_index n stop in
  firstn (Z.to_nat (hi - lo)) (skipn (Z.to_nat lo) s).

Fixpoint rfind_from (c : ascii) (s : str) (i last : Z) : Z :=
  match s with
  | [] => last
  | x :: s' => rfind_from c s' (i + 1) (if Ascii.eqb x c then i else last)
  end.

(** [s.rfind(c)] for a one-character needle: the last index of [c], or -1. *)
Definition py_rfind (c : ascii) (s : str) : Z := rfind_from c s 0 (-1).

Fixpoint lstrip (s : str) : str :=
  match s with
  | c :: s' => if is_space c then lstrip s' else s
  | [] => []
  end.

Definition rstrip (s : str) : str := rev (lstrip (rev s)).

(** [s.strip()]. *)
Definition strip (s : str) : str := rstrip (lstrip s).

(** ** The chunker: [TextProcessor.chunk_text] *)

Module TextProcessor.

Section Chunker.

Variables chunk_size overlap : Z.

(** The end of the window that starts at [start]: the body of the loop up
    to the assignment of [end]. *)
Definition window_end (text : str) (start : Z) : Z :=
  let end_ := start + chunk_size in
  if end_ <? py_len text then
    let chunk_text := py_slice text start end_ in
    let last_period := py_rfind "."%char chunk_text in
    let last_newline := py_rfind nl chunk_text in
    let break_point := Z.max last_period last_newline in
    if break_point >? chunk_size - 200 then start + break_point + 1
    else end_
  else end_.

Definition next_start (text : str) (end_ : Z) : Z :=
  if end_ <? py_len text then end_ - overlap else py_len text.

Definition append_chunk (chunks : list str) (chunk : str) : list str :=
  if nonempty chunk then chunks ++ [chunk] else chunks.

(** The [while start < len(text)] loop. *)
Fixpoint chunk_loop (fuel : nat) (text : str) (start : Z)
         (chunks : list str) : option (list str) :=
  match fuel with
  | O => None
  | S fuel' =>
      if start <? py_len text then
        let end_ := window_end text start in
        let chunk := strip (py_slice text start end_) in
        chunk_loop fuel' text (next_start text end_)
                   (append_chunk chunks chunk)
      else Some chunks
  end.

Definition chunk_text (fuel : nat) (text : str) : option (list str) :=
  if py_len text <=? chunk_size then Some [text]
  else chunk_loop fuel text 0 [].

(** The windows [(start, end)] that the loop visits, in order: the loop
    with its slicing left out.  It is used to state what the chunks
    cover. *)
Fixpoint chunk_windows (fuel : nat) (text : str) (start : Z)
  : option (list (Z * Z)) :=
  match fuel with
  | O => None
  | S fuel' =>
      if start <? py_len text then
        let end_ := window_end text start in
        match chunk_windows fuel' text (next_start text end_) with
        | Some ws => Some ((start, end_) :: ws)
        | None => None
        end
      else Some []
  end.

(** The chunks that a list of windows gives: each window sliced and
    stripped, the empty ones left out. *)
Definition add_window (text : str) (chunks : list str) (w : Z * Z) : list str :=
  append_chunk chunks (strip (py_slice text (fst w) (snd w))).

Definition chunks_of (text : str) (ws : list (Z * Z)) : list str :=
  fold_left (add_window text) ws [].

End Chunker.

(** Windows that follow one another as the loop makes them: each starts
    [overlap] characters before the end of the one before it, and the last
    one reaches the end of the text. *)
Fixpoint chained (overlap len start : Z) (ws : list (Z * Z)) : Prop :=
  match ws with
  | [] => len <= start
  | (s, e) :: rest =>
      s = start /\ 0 <= s < e /\ s < len /\
      if e <? len then chained overlap len (e - overlap) rest else rest = []
  end.

(** [c] is the part of [text] that starts at position [q]. *)
Definition occurs_at (text : str) (q : nat) (c : str) : Prop :=
  firstn (length c) (skipn q text) = c.

(** Position [p] of [text] lies in one of the chunks. *)
Definition covered (text : str) (chunks : list str) (p : nat) : Prop :=
  exists c q, In c chunks /\ occurs_at text q c /\ (q <= p < q + length c)%nat.

(** [re.sub(r'\s+', ' ', text)]. *)
Fixpoint collapse_spaces (in_run : bool) (s : str) : str :=
  match s with
  | [] => []
  | c :: s' =>
      if is_space c then
        if in_run then collapse_spaces true s'
        else " "%char :: collapse_spaces true s'
      else c :: collapse_spaces false s'
  end.

(** [s.replace(old, new)] for a non-empty [old]: the occurrences are taken
    from the left and do not overlap; [skip] counts the characters of an
    occurrence that are still to be dropped. *)
Fixpoint replace_from (old new : str) (skip : nat) (s : str) : str :=
  match s with
  | [] => []
  | c :: s' =>
      match skip with
      | S k => replace_from old new k s'
      | O =>
          if prefixb old s then new ++ replace_from old new (length old - 1) s'
          else c :: replace_from old new 0 s'
      end
  end.

Definition py_replace (old new s : str) : str := replace_from old new 0 s.

(** The argument of the third pair of [replace] calls as Python reads it:
    the quotes of the source form one triple-quoted literal. *)
Definition quote_literal : str :=
  [","; " "; dquote; "'"; dquote; ")"; "."; "r"; "e"; "p"; "l"; "a"; "c"; "e"; "("]%char.

(** [clean_text].  The replacements of the form feed and of the carriage
    return and the two of the double quote by itself are written out; the
    dashes of the last line are code points above 255. *)
Definition clean_text (text : str) : str :=
  if negb (nonempty text) then []
  else
    let text := collapse_spaces false text in
    let text := py_replace ["012"%char] [" "%char] text in
    let text := py_replace ["013"%char] [" "%char] text in
    let text := py_replace [dquote] [dquote] (py_replace [dquote] [dquote] text) in
    let text := py_replace quote_literal ["'"%char] text in
    strip text.

End TextProcessor.

(** ** Python values, exceptions and dictionaries *)

(** The values that [yaml.safe_load] yields and that the pipeline passes
    around.  Dictionaries have string keys, as the annotations
    [Dict[str, Any]] of the source say, and keep their insertion order. *)
#[warnings="-register-all"]
Inductive pyval : Type :=
| VNone
| VBool (b : bool)
| VInt (z : Z)
| VStr (s : str)
| VList (l : list pyval)
| VDict (d : list (str * pyval)).

Inductive exn : Type :=
| YAMLError
| FileNotFoundError
| ValueError
| KeyError
| TypeError
| AttributeError
| ImportError
| OtherError.

Inductive res (A : Type) : Type :=
| Ok (a : A)
| Raise (e : exn).

Arguments Ok {A} a.
Arguments Raise {A} e.

Definition bind {A B} (m : res A) (k : A -> res B) : res B :=
  match m with
  | Ok a => k a
  | Raise e => Raise e
  end.

Notation "x <- m ;; k" := (bind m (fun x => k))
  (at level 61, m at next level, right associativity).

(** Truth value of a Python value. *)
Definition truthy (v : pyval) : bool :=
  match v with
  | VNone => false
  | VBool b => b
  | VInt z => negb (z =? 0)
  | VStr s => nonempty s
  | VList l => nonempty l
  | VDict d => nonempty d
  end.

Definition is_dict (v : pyval) : bool :=
  match v with VDict _ => true | _ => false end.

(** A dictionary with string keys, in insertion order. *)
Definition dict (V : Type) := list (str * V).

Fixpoint dict_get {V} (k : str) (d : dict V) : option V :=
  match d with
  | [] => None
  | (k', v) :: d' => if str_eqb k' k then Some v else dict_get k d'
  end.

Definition dict_mem {V} (k : str) (d : dict V) : bool :=
  match dict_get k d with Some _ => true | None => false end.

(** [d[k] = v]: an existing key keeps its place, a new one goes last. *)
Fixpoint dict_set {V} (k : str) (v : V) (d : dict V) : dict V :=
  match d with
  | [] => [(k, v)]
  | (k', v') :: d' =>
      if str_eqb k' k then (k', v) :: d' else (k', v') :: dict_set k v d'
  end.

(** [key in v], which raises on a value that is not a container. *)
Definition py_contains (key : str) (v : pyval) : res bool :=
  match v with
  | VDict d => Ok (dict_mem key d)
  | VStr s => Ok (substringb key s)
  | VList l =>
      Ok (existsb (fun x => match x with VStr s => str_eqb s key | _ => false end) l)
  | _ => Raise TypeError
  end.

(** [v[key]] for a string [key]. *)
Definition py_getitem (v : pyval) (key : str) : res pyval :=
  match v with
  | VDict d =>
      match dict_get key d with
      | Some x => Ok x
      | None => Raise KeyError
      end
  | _ => Raise TypeError
  end.

(** [v.items()]. *)
Definition py_items (v : pyval) : res (list (str * pyval)) :=
  match v with
  | VDict d => Ok d
  | _ => Raise AttributeError
  end.

(** [v.get(key, default)]. *)
Definition py_get (v : pyval) (key : str) (default : pyval) : res pyval :=
  match v with
  | VDict d =>
      match dict_get key d with
      | Some x => Ok x
      | None => Ok default
      end
  | _ => Raise AttributeError
  end.

(** ** The response parser and the result merger: [YAMLProcessor] *)

Module YAMLProcessor.

(** *** The fenced block
    [re.search(r'```ya?ml\s*\n(.*?)\n```', text, re.DOTALL | re.IGNORECASE)] *)

Definition fence : str := s2l "```".

Definition close_fence : str := nl :: fence.

Definition char_ci (lower upper c : ascii) : bool :=
  Ascii.eqb c lower || Ascii.eqb c upper.

(** [(.*?)\n```]: the shortest text that a newline and a fence follow. *)
Fixpoint find_close (s : str) : option str :=
  if prefixb close_fence s then Some []
  else match s with
       | [] => None
       | c :: s' =>
           match find_close s' with
           | Some g => Some (c :: g)
           | None => None
           end
       end.

(** [\s*\n(.*?)\n```]: the whitespace run is tried longest first, and each
    newline in it may be the one of the pattern. *)
Fixpoint ws_newline_body (s : str) : option str :=
  match s with
  | c :: s' =>
      if is_space c then
        match ws_newline_body s' with
        | Some g => Some g
        | None => if Ascii.eqb c nl then find_close s' else None
        end
      else None
  | [] => None
  end.

(** [ml\s*\n(.*?)\n```]. *)
Definition ml_body (s : str) : option str :=
  match s with
  | m :: l :: s' =>
      if char_ci "m" "M" m && char_ci "l" "L" l then ws_newline_body s'
      else None
  | _ => None
  end.

(** The whole pattern at the head of [s]; group 1 is returned. *)
Definition match_fence_here (s : str) : option str :=
  if prefixb fence s then
    match skipn 3 s with
    | y :: s1 =>
        if char_ci "y" "Y" y then
          match s1 with
          | a :: s2 =>
              if char_ci "a" "A" a then
                match ml_body s2 with
                | Some g => Some g
                | None => ml_body s1
                end
              else ml_body s1
          | [] => None
          end
        else None
    | [] => None
    end
  else None.

(** The leftmost match. *)
Fixpoint search_yaml_block (s : str) : option str :=
  match match_fence_here s with
  | Some g => Some g
  | None =>
      match s with
      | [] => None
      | _ :: s' => search_yaml_block s'
      end
  end.

(** *** The fallback: [_extract_structured_data] *)

(** [\w+:] at the head of [s]. *)
Fixpoint word_run_colon (seen : bool) (s : str) : bool :=
  match s with
  | c :: s' =>
      if is_word c then word_run_colon true s'
      else seen && Ascii.eqb c ":"
  | [] => false
  end.

Definition header_ahead (s : str) : bool := word_run_colon false s.

Definition cons_head (c : ascii) (parts : list str) : list str :=
  match parts with
  | h :: t => (c :: h) :: t
  | [] => [[c]]
  end.

(** [re.split(r'\n(?=\w+:)', text)]. *)
Fixpoint split_sections (s : str) : list str :=
  match s with
  | [] => [[]]
  | c :: s' =>
      if Ascii.eqb c nl && header_ahead s' then [] :: split_sections s'
      else cons_head c (split_sections s')
  end.

(** [s.split('\n')]. *)
Fixpoint split_lines (s : str) : list str :=
  match s with
  | [] => [[]]
  | c :: s' =>
      if Ascii.eqb c nl then [] :: split_lines s'
      else cons_head c (split_lines s')
  end.

(** [s.replace(':', '')]. *)
Definition remove_colons (s : str) : str :=
  filter (fun c => negb (Ascii.eqb c ":")) s.

Definition has_colon (s : str) : bool :=
  existsb (fun c => Ascii.eqb c ":") s.

Definition starts_with_hash (s : str) : bool :=
  match s with
  | c :: _ => Ascii.eqb c "#"
  | [] => false
  end.

(** The inner loop over [lines[1:]]. *)
Definition section_content (lines : list str) : list str :=
  filter (fun line => nonempty line && negb (starts_with_hash line))
         (map strip lines).

(** What one section adds to [result]: its key and its list of lines. *)
Definition section_entry (section : str) : option (str * list str) :=
  if has_colon section then
    match split_lines (strip section) with
    | [] => None
    | line0 :: rest =>
        let header := strip (remove_colons line0) in
        let content := section_content rest in
        if nonempty content then Some (header, content) else None
    end
  else None.

Definition add_section (result : dict (list str)) (section : str)
  : dict (list str) :=
  match section_entry section with
  | Some (header, content) => dict_set header content result
  | None => result
  end.

Definition _extract_structured_data (text : str) : dict (list str) :=
  fold_left add_section (split_sections text) [].

(** The entries that the sections of a text give, in their order. *)
Definition section_entries (sections : list str) : dict (list str) :=
  flat_map (fun section =>
              match section_entry section with
              | Some entry => [entry]
              | None => []
              end) sections.

(** The key of a section in the words of the specification: the text of
    the header line before its first colon, trimmed. *)
Fixpoint before_colon (line : str) : str :=
  match line with
  | [] => []
  | c :: line' => if Ascii.eqb c ":" then [] else c :: before_colon line'
  end.

Definition spec_key (section : str) : str :=
  strip (before_colon (hd [] (split_lines (strip section)))).

(** The fallback's result as a Python value. *)
Definition structured_value (d : dict (list str)) : pyval :=
  VDict (map (fun kv => (fst kv, VList (map VStr (snd kv)))) d).

(** *** [parse_yaml_from_text] *)

Section Parser.

(** [yaml.safe_load], an external library: [Raise YAMLError] is a parse
    failure, another exception is one that the [except yaml.YAMLError]
    clause does not catch. *)
Variable safe_load : str -> res pyval.

Definition yaml_text_of (text : str) : str :=
  match search_yaml_block text with
  | Some body => body
  | None => strip text
  end.

Definition parse_yaml_from_text (text : str) : res pyval :=
  match safe_load (yaml_text_of text) with
  | Ok v => Ok (if truthy v then v else VDict [])
  | Raise YAMLError => Ok (structured_value (_extract_structured_data text))
  | Raise e => Raise e
  end.

End Parser.

(** *** [merge_yaml_results] *)

(** What a value adds to the list of its key: the elements of a list, any
    other truthy value as one element, nothing for a falsy value. *)
Definition merged_items (value : pyval) : list pyval :=
  match value with
  | VList l => l
  | _ => if truthy value then [value] else []
  end.

(** The body of the loop over [result.items()]. *)
Definition merge_item (merged : dict (list pyval)) (kv : str * pyval)
  : dict (list pyval) :=
  let (key, value) := kv in
  let merged1 := if dict_mem key merged then merged else dict_set key [] merged in
  match dict_get key merged1 with
  | Some acc =>
      match value with
      | VList l => dict_set key (acc ++ l) merged1
      | _ => if truthy value then dict_set key (acc ++ [value]) merged1
             else merged1
      end
  | None => merged1  (* not reached: [key] is in [merged1] *)
  end.

(** The body of the loop over [results]. *)
Definition merge_result (merged : dict (list pyval)) (result : pyval)
  : res (dict (list pyval)) :=
  if negb (is_dict result) then Ok merged
  else items <- py_items result ;; Ok (fold_left merge_item items merged).

Fixpoint merge_from (merged : dict (list pyval)) (results : list pyval)
  : res (dict (list pyval)) :=
  match results with
  | [] => Ok merged
  | result :: rest =>
      merged' <- merge_result merged result ;; merge_from merged' rest
  end.

Definition merge_yaml_results (results : list pyval)
  : res (dict (list pyval)) :=
  merge_from [] results.

(** What the merger is to give for one key, in the words of the
    specification: the values found under [key], in the order of the
    input, each one turned into its items. *)
Definition key_items (key : str) (items : list (str * pyval)) : list pyval :=
  flat_map (fun kv => if str_eqb (fst kv) key then merged_items (snd kv) else [])
           items.

Definition key_present (key : str) (items : list (str * pyval)) : bool :=
  existsb (fun kv => str_eqb (fst kv) key) items.

Definition result_items (key : str) (result : pyval) : list pyval :=
  match result with
  | VDict d => key_items key d
  | _ => []
  end.

(** The list that [merged] holds for a key, [[]] for a key that it
    lacks. *)
Definition acc_of (key : str) (merged : dict (list pyval)) : list pyval :=
  match dict_get key merged with
  | Some l => l
  | None => []
  end.

Definition result_has (key : str) (result : pyval) : bool :=
  match result with
  | VDict d => key_present key d
  | _ => false
  end.

End YAMLProcessor.

(** ** Configuration: [ConfigManager] and [PromptsManager] *)

Definition dict_lookup {V} (k : str) (d : dict V) : res V :=
  match dict_get k d with
  | Some v => Ok v
  | None => Raise KeyError
  end.

Module ConfigManager.

Definition required_sections : list str :=
  [s2l "general"; s2l "models"; s2l "extraction_schema"; s2l "processing"].

(** The loop of [_validate_config]. *)
Fixpoint validate_sections (config : pyval) (sections : list str) : res unit :=
  match sections with
  | [] => Ok tt
  | section :: rest =>
      present <- py_contains section config ;;
      if negb present then Raise ValueError
      else validate_sections config rest
  end.

Definition _validate_config (config : pyval) : res unit :=
  validate_sections config required_sections.

(** [load_config]: [None] is a path that does not exist, [Some r] the
    result of [yaml.safe_load] on the file. *)
Definition load_config (file : option (res pyval)) : res pyval :=
  match file with
  | None => Raise FileNotFoundError
  | Some loaded =>
      config <- loaded ;;
      _ <- _validate_config config ;;
      Ok config
  end.

(** [model_type or self.config['models']['default']]: a falsy argument
    ([None], the empty string) gives way to the configured default, whatever
    value the configuration holds there. *)
Definition model_type_or_default (config : pyval) (model_type : pyval)
  : res pyval :=
  if truthy model_type then Ok model_type
  else
    models <- py_getitem config (s2l "models") ;;
    py_getitem models (s2l "default").

(** [get_model_config].  Its argument is [None], a string or, from the
    constructor of the extractor, the value of [models['default']].  A
    value that is no string has been read from [models['default']], so
    [models] is a dictionary with string keys there: the membership test
    raises on a list or a dictionary, which cannot be hashed, and any other
    value is no key. *)
Definition get_model_config (config : pyval) (model_type : pyval)
  : res pyval :=
  model_type <- model_type_or_default config model_type ;;
  models <- py_getitem config (s2l "models") ;;
  match model_type with
  | VStr m =>
      configured <- py_contains m models ;;
      if negb configured then Raise ValueError
      else py_getitem models m
  | VList _ | VDict _ => Raise TypeError
  | _ => Raise ValueError
  end.

Definition get_extraction_schema (config : pyval) : res pyval :=
  py_getitem config (s2l "extraction_schema").

Definition get_processing_config (config : pyval) : res pyval :=
  py_getitem config (s2l "processing").

Definition get_general_config (config : pyval) : res pyval :=
  py_getitem config (s2l "general").

End ConfigManager.

Module PromptsManager.

Definition load_prompts (file : option (res pyval)) : res pyval :=
  match file with
  | None => Raise FileNotFoundError
  | Some loaded => loaded
  end.

Definition get_persona (prompts : pyval) : res pyval :=
  py_get prompts (s2l "persona") (VStr []).

Definition get_prompt_template (prompts : pyval) (extraction_type : str)
  : res pyval :=
  table <- py_get prompts (s2l "prompts") (VDict []) ;;
  known <- py_contains extraction_type table ;;
  if negb known then
    custom <- py_get table (s2l "custom") (VDict []) ;;
    py_get custom (s2l "prompt_template") (VStr [])
  else
    entry <- py_getitem table extraction_type ;;
    py_get entry (s2l "prompt_template") (VStr []).

Section Format.

(** [template.format(persona=..., text_chunk=...)], a library function:
    it raises on a placeholder that it cannot fill. *)
Variable str_format : str -> pyval -> str -> res str.

Definition format_prompt (prompts : pyval) (extraction_type text_chunk : str)
  : res str :=
  template <- get_prompt_template prompts extraction_type ;;
  persona <- get_persona prompts ;;
  match template with
  | VStr t => str_format t persona text_chunk
  | _ => Raise AttributeError
  end.

End Format.

End PromptsManager.

(** ** The model client factory: [LLMFactory.create_llm] *)

Module LLMFactory.

Section Factory.

(** [OPENAI_AVAILABLE] and whether [OPENAI_API_KEY] is set. *)
Variables openai_available openai_api_key : bool.

(** The constructor of the local client: [base_url.rstrip('/')] needs a
    string. *)
Definition OllamaInterface (base_url : pyval) : res unit :=
  match base_url with
  | VStr _ => Ok tt
  | _ => Raise AttributeError
  end.

(** The constructor of the hosted client; the construction of the library's
    own client object is taken to succeed. *)
Definition OpenAIInterface : res unit :=
  if negb openai_available then Raise ImportError
  else if negb openai_api_key then Raise ValueError
  else Ok tt.

Definition create_llm (model_config : pyval) (model_type : str) : res unit :=
  if str_eqb model_type (s2l "ollama") then
    _ <- py_get model_config (s2l "model_name") (VStr (s2l "llama3.2")) ;;
    base_url <- py_get model_config (s2l "base_url")
                       (VStr (s2l "http://localhost:11434")) ;;
    _ <- py_get model_config (s2l "timeout") (VInt 120) ;;
    OllamaInterface base_url
  else if str_eqb model_type (s2l "openai") then
    _ <- py_get model_config (s2l "model_name") (VStr (s2l "gpt-3.5-turbo")) ;;
    _ <- py_get model_config (s2l "max_tokens") (VInt 2000) ;;
    (* the default temperature, 0.1, is a float; the value is not used *)
    _ <- py_get model_config (s2l "temperature") VNone ;;
    OpenAIInterface
  else Raise ValueError.

End Factory.

End LLMFactory.

(** ** The orchestrator: [DocumentRAGExtractor] *)

Module DocumentRAGExtractor.

(** An entry of [extracted_texts]. *)
Record doc_info : Type := {
  file_name : str;
  file_type : str;
  text : str
}.

(** The fields of [self] that extraction reads, and its collaborators.
    The model client is external: [generate d t i prompt] is its answer to
    the call made for chunk [i] of document [d] under category [t].  A run
    makes the call of a site at most once, so a client with state of its
    own is covered. *)
Record extractor : Type := {
  chunk_size : Z;
  overlap : Z;
  min_chunk_length : Z;
  max_file_size_mb : Z;
  extraction_types : list str;
  model_type : str;
  pdf_processor : bool;
  docx_processor : bool;
  image_processor : bool;
  format_prompt : str -> str -> res str;
  generate : nat -> str -> nat -> str -> res str;
  safe_load : str -> res pyval;
  timestamp : str
}.

Section Extraction.

Variable self : extractor.

(** The body of the [try] block for one chunk: [Ok (Some v)] when [v] is
    appended to [type_results]. *)
Definition try_chunk (d : nat) (extraction_type : str) (i : nat)
           (chunk : str) : res (option pyval) :=
  prompt <- format_prompt self extraction_type chunk ;;
  response <- generate self d extraction_type i prompt ;;
  parsed_data <- YAMLProcessor.parse_yaml_from_text (safe_load self) response ;;
  if truthy parsed_data then
    present <- py_contains extraction_type parsed_data ;;
    if present then
      value <- py_getitem parsed_data extraction_type ;;
      Ok (Some value)
    else Ok None
  else Ok None.

(** What one chunk adds to [type_results]: nothing when it is skipped as
    too short, and nothing when the [try] block raises (the handler logs
    the error and continues). *)
Definition chunk_contribution (d : nat) (extraction_type : str) (i : nat)
           (chunk : str) : option pyval :=
  if py_len chunk <? min_chunk_length self then None
  else match try_chunk d extraction_type i chunk with
       | Ok (Some value) => Some value
       | Ok None => None
       | Raise _ => None
       end.

(** The loop [for i, chunk in enumerate(chunks)]. *)
Fixpoint collect_chunks (d : nat) (extraction_type : str) (i : nat)
         (chunks : list str) (type_results : list pyval) : list pyval :=
  match chunks with
  | [] => type_results
  | chunk :: rest =>
      collect_chunks d extraction_type (S i) rest
        match chunk_contribution d extraction_type i chunk with
        | Some value => type_results ++ [value]
        | None => type_results
        end
  end.

(** [x.extend(items)]. *)
Definition py_extend (x : pyval) (items : list pyval) : res pyval :=
  match x with
  | VList l => Ok (VList (l ++ items))
  | _ => Raise AttributeError
  end.

(** The merge of one category's [type_results] into [results]. *)
Definition merge_type_results (results : dict pyval) (extraction_type : str)
           (type_results : list pyval) : res (dict pyval) :=
  if nonempty type_results then
    merged_results <-
      YAMLProcessor.merge_yaml_results
        (map (fun r => VDict [(extraction_type, r)]) type_results) ;;
    if dict_mem extraction_type merged_results then
      items <- dict_lookup extraction_type merged_results ;;
      current <- dict_lookup extraction_type results ;;
      extended <- py_extend current items ;;
      Ok (dict_set extraction_type extended results)
    else Ok results
  else Ok results.

(** The loop [for extraction_type in extraction_types] of one document. *)
Fixpoint extract_types (d : nat) (chunks : list str) (types : list str)
         (results : dict pyval) : res (dict pyval) :=
  match types with
  | [] => Ok results
  | extraction_type :: rest =>
      results' <- merge_type_results results extraction_type
                    (collect_chunks d extraction_type 0 chunks []) ;;
      extract_types d chunks rest results'
  end.

(** The loop [for doc_info in extracted_texts]; [None] when the chunker
    does not finish within the fuel. *)
Fixpoint extract_docs (fuel : nat) (d : nat) (docs : list doc_info)
         (results : dict pyval) : option (res (dict pyval)) :=
  match docs with
  | [] => Some (Ok results)
  | doc :: rest =>
      match TextProcessor.chunk_text (chunk_size self) (overlap self)
                                     fuel (text doc) with
      | None => None
      | Some chunks =>
          match extract_types d chunks (extraction_types self) results with
          | Ok results' => extract_docs fuel (S d) rest results'
          | Raise e => Some (Raise e)
          end
      end
  end.

Definition extraction_metadata (docs : list doc_info) : pyval :=
  VDict [(s2l "timestamp", VStr (timestamp self));
         (s2l "model_used", VStr (model_type self));
         (s2l "total_documents", VInt (Z.of_nat (length docs)));
         (s2l "extraction_types", VList (map VStr (extraction_types self)))].

Definition initial_results (docs : list doc_info) : dict pyval :=
  fold_left (fun results t => dict_set t (VList []) results)
            (extraction_types self)
            [(s2l "extraction_metadata", extraction_metadata docs)].

Definition extract_information (fuel : nat) (extracted_texts : list doc_info)
  : option (res (dict pyval)) :=
  extract_docs fuel 0 extracted_texts (initial_results extracted_texts).

End Extraction.

(** The client that fails with [e] at one call site and answers as
    [self]'s client everywhere else. *)
Definition nat_str_nat_eqb (a b : nat * str * nat) : bool :=
  Nat.eqb (fst (fst a)) (fst (fst b)) && str_eqb (snd (fst a)) (snd (fst b))
  && Nat.eqb (snd a) (snd b).

Definition fail_at (self : extractor) (site : nat * str * nat) (e : exn)
  : extractor :=
  {| chunk_size := chunk_size self;
     overlap := overlap self;
     min_chunk_length := min_chunk_length self;
     max_file_size_mb := max_file_size_mb self;
     extraction_types := extraction_types self;
     model_type := model_type self;
     pdf_processor := pdf_processor self;
     docx_processor := docx_processor self;
     image_processor := image_processor self;
     format_prompt := format_prompt self;
     generate := fun d t i prompt =>
                   if nat_str_nat_eqb (d, t, i) site then Raise e
                   else generate self d t i prompt;
     safe_load := safe_load self;
     timestamp := timestamp self |}.

(** A contribution function with one call site blanked. *)
Definition mask (site : nat * str * nat)
           (contrib : nat -> str -> nat -> str -> option pyval)
  : nat -> str -> nat -> str -> option pyval :=
  fun d t i chunk =>
    if nat_str_nat_eqb (d, t, i) site then None else contrib d t i chunk.

(** The items that the chunks of one document give to a category, chunk
    after chunk, and those that the documents give, document after
    document. *)
Fixpoint chunk_items (contrib : nat -> str -> nat -> str -> option pyval)
         (d : nat) (t : str) (i : nat) (chunks : list str) : list pyval :=
  match chunks with
  | [] => []
  | chunk :: rest =>
      match contrib d t i chunk with
      | Some value => YAMLProcessor.merged_items value
      | None => []
      end ++ chunk_items contrib d t (S i) rest
  end.

Fixpoint doc_items (contrib : nat -> str -> nat -> str -> option pyval)
         (t : str) (d : nat) (chunkss : list (list str)) : list pyval :=
  match chunkss with
  | [] => []
  | chunks :: rest =>
      chunk_items contrib d t 0 chunks ++ doc_items contrib t (S d) rest
  end.

(** The chunker gives [chunkss] for the texts of [docs]. *)
Definition chunked (self : extractor) (fuel : nat) (docs : list doc_info)
           (chunkss : list (list str)) : Prop :=
  Forall2 (fun doc chunks =>
             TextProcessor.chunk_text (chunk_size self) (overlap self)
                                      fuel (text doc) = Some chunks)
          docs chunkss.

End DocumentRAGExtractor.

(** ** A run: construction, ingestion and extraction *)

Module Run.

(** A directory entry as [process_documents] sees it. *)
Record file_entry : Type := {
  f_name : str;
  f_suffix : str;                (* [file_path.suffix.lower()] *)
  f_is_file : bool;
  f_size : res Z;                (* [stat().st_size], which may raise *)
  f_read : res str;              (* [open] and [read] of a text file *)
  f_process : res (bool * str)   (* [success] and [text_content] of
                                    [processor.process(file_path)] *)
}.

(** What a run finds outside the program. *)
Record world : Type := {
  config_file : option (res pyval);
  prompts_file : option (res pyval);
  openai_available : bool;
  openai_api_key : bool;
  pdf_available : bool;
  docx_available : bool;
  image_init : res unit;
  docs_dir : option (list file_entry);
  str_format : str -> pyval -> str -> res str;
  llm : nat -> str -> nat -> str -> res str;
  yaml_load : str -> res pyval;
  clock : str;
  save : res unit
}.

Definition supported_extensions : dict (list str) :=
  [(s2l "pdf", [s2l ".pdf"]);
   (s2l "docx", [s2l ".docx"; s2l ".doc"]);
   (s2l "image", [s2l ".png"; s2l ".jpg"; s2l ".jpeg"; s2l ".bmp"; s2l ".tiff"]);
   (s2l "txt", [s2l ".txt"])].

(** The type of a file: the first one whose extensions hold the suffix. *)
Fixpoint type_of_suffix (extensions : dict (list str)) (suffix : str)
  : option str :=
  match extensions with
  | [] => None
  | (file_type, exts) :: rest =>
      if existsb (str_eqb suffix) exts then Some file_type
      else type_of_suffix rest suffix
  end.

(** [get_supported_files] on a directory that exists. *)
Definition get_supported_files (entries : list file_entry)
           (extensions : dict (list str)) : dict (list file_entry) :=
  map (fun te =>
         (fst te,
          filter (fun f =>
                    f_is_file f &&
                    match type_of_suffix extensions (f_suffix f) with
                    | Some t => str_eqb t (fst te)
                    | None => false
                    end) entries))
      extensions.

(** The integer that a value is in a comparison with an [int] or a
    [float] and in a subtraction from an [int]: [bool] is a subclass of
    [int], and on every other value of the model the operation raises
    [TypeError]. *)
Definition as_int (v : pyval) : res Z :=
  match v with
  | VInt z => Ok z
  | VBool b => Ok (Z.b2z b)
  | _ => Raise TypeError
  end.

(** The float [n / (1024 * 1024)], given as its value times [2^20].  True
    division of integers gives the float nearest to the quotient, ties to
    even; the divisor is a power of two, so this is [n] rounded to 53
    significant bits. *)
Definition round_to_53_bits (n : Z) : Z :=
  let bits := Z.log2 n + 1 in
  if bits <=? 53 then n
  else
    let shift := bits - 53 in
    let q := Z.shiftr n shift in
    let r := Z.land n (Z.ones shift) in
    let half := Z.shiftl 1 (shift - 1) in
    let q' := if (r >? half) || ((r =? half) && Z.odd q) then q + 1 else q in
    Z.shiftl q' shift.

Definition size_mb_scaled (size : Z) : Z :=
  Z.sgn size * round_to_53_bits (Z.abs size).

(** [validate_file_size]: [False] for a size of more than [max_size_mb]
    megabytes and whenever an exception is raised: by [stat], by the
    division when the quotient is beyond the floats ([OverflowError]), or
    by the comparison with a limit that is no number. *)
Definition validate_file_size (f : file_entry) (max_size_mb : pyval) : bool :=
  match f_size f with
  | Ok size =>
      if Z.abs (size_mb_scaled size) >=? 2 ^ 1044 then false
      else
        match as_int max_size_mb with
        | Ok limit => negb (size_mb_scaled size >? limit * (1024 * 1024))
        | Raise _ => false
        end
  | Raise _ => false
  end.

(** [self] after the constructor has returned.  The constructor stores
    what it reads from the configuration as it is; the values are used, and
    may turn out unfit, later. *)
Record instance : Type := {
  config : pyval;                (* [self.config_manager.config] *)
  prompts : pyval;               (* [self.prompts_manager.prompts] *)
  general_config : pyval;
  processing_config : pyval;
  text_chunk_size : pyval;       (* [self.text_processor.chunk_size] *)
  text_overlap : pyval;          (* [self.text_processor.overlap] *)
  self_model_type : str;
  processors : list str;         (* the keys of [self.processors] *)
  env : world
}.

(** [_initialize_processors]: a processor whose constructor raises
    [ImportError] is left out, another exception leaves the constructor
    of the extractor. *)
Definition init_image (r : res unit) : res bool :=
  match r with
  | Ok _ => Ok true
  | Raise ImportError => Ok false
  | Raise e => Raise e
  end.

Definition _initialize_processors (w : world) : res (list str) :=
  image <- init_image (image_init w) ;;
  Ok ((if pdf_available w then [s2l "pdf"] else [])
      ++ (if docx_available w then [s2l "docx"] else [])
      ++ (if image then [s2l "image"] else [])).

(** The argument [model_type] of the constructor. *)
Definition arg_value (model_arg : option str) : pyval :=
  match model_arg with
  | Some m => VStr m
  | None => VNone
  end.

(** [DocumentRAGExtractor.__init__].  [create_llm] compares the model type
    with the two names it knows and raises [ValueError] for anything
    else, so the model type of an instance is a string. *)
Definition init (w : world) (model_arg : option str) : res instance :=
  config <- ConfigManager.load_config (config_file w) ;;
  prompts <- PromptsManager.load_prompts (prompts_file w) ;;
  general <- ConfigManager.get_general_config config ;;
  processing <- ConfigManager.get_processing_config config ;;
  chunk_size <- py_get general (s2l "chunk_size") (VInt 2000) ;;
  overlap <- py_get general (s2l "overlap") (VInt 200) ;;
  model_type <- ConfigManager.model_type_or_default config (arg_value model_arg) ;;
  model_config <- ConfigManager.get_model_config config model_type ;;
  match model_type with
  | VStr m =>
      _ <- LLMFactory.create_llm (openai_available w) (openai_api_key w)
                                 model_config m ;;
      processors <- _initialize_processors w ;;
      Ok {| config := config;
            prompts := prompts;
            general_config := general;
            processing_config := processing;
            text_chunk_size := chunk_size;
            text_overlap := overlap;
            self_model_type := m;
            processors := processors;
            env := w |}
  | _ => Raise ValueError
  end.

(** ** [process_documents]: the files *)

Section Ingestion.

Variable self : instance.

(** The body of the [try] block for one file. *)
Definition try_file (ftype : str) (f : file_entry)
  : res (option DocumentRAGExtractor.doc_info) :=
  if str_eqb ftype (s2l "txt") then
    content <- f_read f ;;
    Ok (Some {| DocumentRAGExtractor.file_name := f_name f;
                DocumentRAGExtractor.file_type := ftype;
                DocumentRAGExtractor.text := TextProcessor.clean_text content |})
  else
    if existsb (str_eqb ftype) (processors self) then
      result <- f_process f ;;
      if fst result then
        Ok (Some {| DocumentRAGExtractor.file_name := f_name f;
                    DocumentRAGExtractor.file_type := ftype;
                    DocumentRAGExtractor.text := snd result |})
      else Ok None
    else Ok None.

(** The body of the loop over the files of one type.  The size limit is
    read from the processing section outside the [try] block: when that
    section is no mapping the [AttributeError] leaves
    [process_documents].  A file that is too large adds nothing, and
    nothing is added when the [try] block raises. *)
Definition ingest_file (ftype : str) (f : file_entry)
           (extracted_texts : list DocumentRAGExtractor.doc_info)
  : res (list DocumentRAGExtractor.doc_info) :=
  limit <- py_get (processing_config self) (s2l "max_file_size_mb") (VInt 100) ;;
  if negb (validate_file_size f limit) then Ok extracted_texts
  else match try_file ftype f with
       | Ok (Some doc) => Ok (extracted_texts ++ [doc])
       | Ok None => Ok extracted_texts
       | Raise _ => Ok extracted_texts
       end.

Fixpoint ingest_files (ftype : str) (files : list file_entry)
         (extracted_texts : list DocumentRAGExtractor.doc_info)
  : res (list DocumentRAGExtractor.doc_info) :=
  match files with
  | [] => Ok extracted_texts
  | f :: rest =>
      extracted_texts' <- ingest_file ftype f extracted_texts ;;
      ingest_files ftype rest extracted_texts'
  end.

Fixpoint ingest_types (files_by_type : dict (list file_entry))
         (extracted_texts : list DocumentRAGExtractor.doc_info)
  : res (list DocumentRAGExtractor.doc_info) :=
  match files_by_type with
  | [] => Ok extracted_texts
  | (ftype, files) :: rest =>
      extracted_texts' <- ingest_files ftype files extracted_texts ;;
      ingest_types rest extracted_texts'
  end.

Definition ingest (entries : list file_entry)
  : res (list DocumentRAGExtractor.doc_info) :=
  ingest_types (get_supported_files entries supported_extensions) [].

End Ingestion.

(** ** [extract_information] on an instance

    The loops are those of [DocumentRAGExtractor] above, with the values
    that the constructor stored unchecked read where the source reads
    them. *)

(** [TextProcessor.chunk_text] with the stored [chunk_size] and [overlap]:
    the first comparison needs [chunk_size] to be a number, the move of
    [start] needs [overlap] to be one. *)
Fixpoint chunk_loop (fuel : nat) (chunk_size : Z) (overlap : pyval)
         (text : str) (start : Z) (chunks : list str)
  : option (res (list str)) :=
  match fuel with
  | O => None
  | S fuel' =>
      if start <? py_len text then
        let end_ := TextProcessor.window_end chunk_size text start in
        let chunk := strip (py_slice text start end_) in
        let chunks' := TextProcessor.append_chunk chunks chunk in
        if end_ <? py_len text then
          match as_int overlap with
          | Ok ov => chunk_loop fuel' chunk_size overlap text (end_ - ov) chunks'
          | Raise e => Some (Raise e)
          end
        else chunk_loop fuel' chunk_size overlap text (py_len text) chunks'
      else Some (Ok chunks)
  end.

Definition chunk_text (chunk_size overlap : pyval) (fuel : nat) (text : str)
  : option (res (list str)) :=
  match as_int chunk_size with
  | Ok size =>
      if py_len text <=? size then Some (Ok [text])
      else chunk_loop fuel size overlap text 0 []
  | Raise e => Some (Raise e)
  end.

Section Extraction.

Variable self : instance.

(** [list(extraction_schema.keys())]. *)
Definition schema_types : res (list str) :=
  extraction_schema <- ConfigManager.get_extraction_schema (config self) ;;
  items <- py_items extraction_schema ;;
  Ok (map fst items).

(** The body of the [try] block for one chunk. *)
Definition try_chunk (d : nat) (extraction_type : str) (i : nat)
           (chunk : str) : res (option pyval) :=
  prompt <- PromptsManager.format_prompt (str_format (env self)) (prompts self)
                                         extraction_type chunk ;;
  response <- llm (env self) d extraction_type i prompt ;;
  parsed_data <- YAMLProcessor.parse_yaml_from_text (yaml_load (env self)) response ;;
  if truthy parsed_data then
    present <- py_contains extraction_type parsed_data ;;
    if present then
      value <- py_getitem parsed_data extraction_type ;;
      Ok (Some value)
    else Ok None
  else Ok None.

(** [self.processing_config.get('min_chunk_length', 50)] as the operand of
    the comparison with [len(chunk)], which stands outside the [try]
    block. *)
Definition min_chunk_length_operand : res Z :=
  v <- py_get (processing_config self) (s2l "min_chunk_length") (VInt 50) ;;
  as_int v.

(** The loop [for i, chunk in enumerate(chunks)]. *)
Fixpoint collect_chunks (d : nat) (extraction_type : str) (i : nat)
         (chunks : list str) (type_results : list pyval)
  : res (list pyval) :=
  match chunks with
  | [] => Ok type_results
  | chunk :: rest =>
      min_chunk_length <- min_chunk_length_operand ;;
      if py_len chunk <? min_chunk_length then
        collect_chunks d extraction_type (S i) rest type_results
      else
        collect_chunks d extraction_type (S i) rest
          match try_chunk d extraction_type i chunk with
          | Ok (Some value) => type_results ++ [value]
          | Ok None => type_results
          | Raise _ => type_results
          end
  end.

(** The loop [for extraction_type in extraction_types] of one document. *)
Fixpoint extract_types (d : nat) (chunks : list str) (types : list str)
         (results : dict pyval) : res (dict pyval) :=
  match types with
  | [] => Ok results
  | extraction_type :: rest =>
      type_results <- collect_chunks d extraction_type 0 chunks [] ;;
      results' <- DocumentRAGExtractor.merge_type_results
                    results extraction_type type_results ;;
      extract_types d chunks rest results'
  end.

(** The loop [for doc_info in extracted_texts]. *)
Fixpoint extract_docs (types : list str) (fuel : nat) (d : nat)
         (docs : list DocumentRAGExtractor.doc_info) (results : dict pyval)
  : option (res (dict pyval)) :=
  match docs with
  | [] => Some (Ok results)
  | doc :: rest =>
      match chunk_text (text_chunk_size self) (text_overlap self) fuel
                       (DocumentRAGExtractor.text doc) with
      | None => None
      | Some (Raise e) => Some (Raise e)
      | Some (Ok chunks) =>
          match extract_types d chunks types results with
          | Ok results' => extract_docs types fuel (S d) rest results'
          | Raise e => Some (Raise e)
          end
      end
  end.

Definition extraction_metadata (types : list str)
           (docs : list DocumentRAGExtractor.doc_info) : pyval :=
  VDict [(s2l "timestamp", VStr (clock (env self)));
         (s2l "model_used", VStr (self_model_type self));
         (s2l "total_documents", VInt (Z.of_nat (length docs)));
         (s2l "extraction_types", VList (map VStr types))].

Definition initial_results (types : list str)
           (docs : list DocumentRAGExtractor.doc_info) : dict pyval :=
  fold_left (fun results t => dict_set t (VList []) results)
            types
            [(s2l "extraction_metadata", extraction_metadata types docs)].

Definition extract_information (fuel : nat)
           (extracted_texts : list DocumentRAGExtractor.doc_info)
  : option (res (dict pyval)) :=
  match schema_types with
  | Ok extraction_types =>
      extract_docs extraction_types fuel 0 extracted_texts
                   (initial_results extraction_types extracted_texts)
  | Raise e => Some (Raise e)
  end.


(** The instance with its settings as the integers they stand for and its
    categories listed: the extractor that [DocumentRAGExtractor] above
    describes. *)
Definition typed (chunk_size overlap min_chunk_length max_file_size_mb : Z)
           (types : list str) : DocumentRAGExtractor.extractor :=
  {| DocumentRAGExtractor.chunk_size := chunk_size;
     DocumentRAGExtractor.overlap := overlap;
     DocumentRAGExtractor.min_chunk_length := min_chunk_length;
     DocumentRAGExtractor.max_file_size_mb := max_file_size_mb;
     DocumentRAGExtractor.extraction_types := types;
     DocumentRAGExtractor.model_type := self_model_type self;
     DocumentRAGExtractor.pdf_processor :=
       existsb (str_eqb (s2l "pdf")) (processors self);
     DocumentRAGExtractor.docx_processor :=
       existsb (str_eqb (s2l "docx")) (processors self);
     DocumentRAGExtractor.image_processor :=
       existsb (str_eqb (s2l "image")) (processors self);
     DocumentRAGExtractor.format_prompt :=
       PromptsManager.format_prompt (str_format (env self)) (prompts self);
     DocumentRAGExtractor.generate := llm (env self);
     DocumentRAGExtractor.safe_load := yaml_load (env self);
     DocumentRAGExtractor.timestamp := clock (env self) |}.


End Extraction.

(** ** The [try] block of [main] *)









End Run.

(** ** A small run, used to instantiate the theorems *)

Module Demo.

Import DocumentRAGExtractor.

(** A client and a YAML reader that stand for the external ones: the
    reader turns a body into the mapping [{products: [body]}]. *)
Definition demo_load (body : str) : res pyval :=
  Ok (VDict [(s2l "products", VList [VStr body])]).

Definition demo_extractor (gen : nat -> str -> nat -> str -> res str)
  : extractor :=
  {| chunk_size := 200;
     overlap := 0;
     min_chunk_length := 50;
     max_file_size_mb := 100;
     extraction_types := [s2l "products"];
     model_type := s2l "ollama";
     pdf_processor := false;
     docx_processor := false;
     image_processor := false;
     format_prompt := fun _ chunk => Ok chunk;
     generate := gen;
     safe_load := demo_load;
     timestamp := s2l "2024-01-01T00:00:00" |}.

(** The client that answers with the number of the chunk. *)
Definition numbering (d : nat) (t : str) (i : nat) (prompt : str) : res str :=
  Ok [ascii_of_nat (48 + i)].

(** The client that gives the same answer every time. *)
Definition widget (d : nat) (t : str) (i : nat) (prompt : str) : res str :=
  Ok (s2l "Widget").

Definition chunk_a : str := repeat "a"%char 199 ++ ["."%char].
Definition chunk_b : str := repeat "b"%char 199 ++ ["."%char].
Definition chunk_c : str := repeat "c"%char 100.

(** A text that the chunker cuts into three chunks. *)
Definition demo_doc : doc_info :=
  {| file_name := s2l "demo.txt";
     file_type := s2l "txt";
     text := chunk_a ++ chunk_b ++ chunk_c |}.

(** A configuration with the four sections and a configured model. *)
Definition demo_config : pyval :=
  VDict [(s2l "general", VDict [(s2l "chunk_size", VInt 200);
                                (s2l "overlap", VInt 0)]);
         (s2l "models", VDict [(s2l "default", VStr (s2l "ollama"));
                               (s2l "ollama", VDict [])]);
         (s2l "extraction_schema", VDict [(s2l "products", VStr (s2l "products"))]);
         (s2l "processing", VDict [])].

Definition demo_prompts : pyval :=
  VDict [(s2l "persona", VStr (s2l "analyst"));
         (s2l "prompts",
          VDict [(s2l "products",
                  VDict [(s2l "prompt_template", VStr (s2l "list the products"))])])].

(** A text file that cannot be read and a document that the processor
    fails on. *)
Definition unreadable : Run.file_entry :=
  {| Run.f_name := s2l "notes.txt";
     Run.f_suffix := s2l ".txt";
     Run.f_is_file := true;
     Run.f_size := Ok 10;
     Run.f_read := Raise OtherError;
     Run.f_process := Raise OtherError |}.

Definition readable : Run.file_entry :=
  {| Run.f_name := s2l "demo.txt";
     Run.f_suffix := s2l ".txt";
     Run.f_is_file := true;
     Run.f_size := Ok 500;
     Run.f_read := Ok (text demo_doc);
     Run.f_process := Raise OtherError |}.

Definition demo_world (prompts : option (res pyval))
           (dir : option (list Run.file_entry)) : Run.world :=
  {| Run.config_file := Some (Ok demo_config);
     Run.prompts_file := prompts;
     Run.openai_available := false;
     Run.openai_api_key := false;
     Run.pdf_available := true;
     Run.docx_available := true;
     Run.image_init := Raise ImportError;
     Run.docs_dir := dir;
     Run.str_format := fun template _ chunk => Ok template;
     Run.llm := fun d t i prompt => if Nat.eqb i 1 then Raise OtherError
                                    else Ok (s2l "Widget");
     Run.yaml_load := demo_load;
     Run.clock := s2l "2024-01-01T00:00:00";
     Run.save := Ok tt |}.

(** The instance that the constructor makes in this world. *)
Definition demo_instance : Run.instance :=
  {| Run.config := demo_config;
     Run.prompts := demo_prompts;
     Run.general_config := VDict [(s2l "chunk_size", VInt 200);
                                  (s2l "overlap", VInt 0)];
     Run.processing_config := VDict [];
     Run.text_chunk_size := VInt 200;
     Run.text_overlap := VInt 0;
     Run.self_model_type := s2l "ollama";
     Run.processors := [s2l "pdf"; s2l "docx"];
     Run.env := demo_world (Some (Ok demo_prompts))
                           (Some [unreadable; readable]) |}.

End Demo.

(** ** Notions used to state further properties of the chunker *)

Module ChunkerNotions.

(** The character of [text] at index [i]. *)
Definition char_at (text : str) (i : Z) : ascii :=
  nth (Z.to_nat i) text " "%char.

(** A period or a newline, the two characters that the chunker breaks
    after. *)
Definition is_boundary (c : ascii) : bool :=
  Ascii.eqb c "." || Ascii.eqb c nl.

(** The text that a list of windows spells: the first window whole, every
    later one without its first [overlap] characters. *)
Fixpoint rebuild (overlap : Z) (text : str) (ws : list (Z * Z)) : str :=
  match ws with
  | [] => []
  | (s, e) :: rest =>
      py_slice text s e ++ skipn (Z.to_nat overlap) (rebuild overlap text rest)
  end.

End ChunkerNotions.

(** ** Notions used to state further properties of [clean_text] *)

Module CleanNotions.

(** Every white space character of [s] is a plain space and no two of them
    are neighbours; [after_space] tells whether a space comes right before
    [s]. *)
Fixpoint single_spaced (after_space : bool) (s : str) : bool :=
  match s with
  | [] => true
  | c :: s' =>
      if is_space c then
        negb after_space && Ascii.eqb c " " && single_spaced true s'
      else single_spaced false s'
  end.

End CleanNotions.

(** ** Keyword filtering: [TextProcessor.extract_keywords] and
      [TextProcessor.filter_chunks_by_keywords] *)

Module Keywords.

(** [str.lower] on one character, for the code points below 256: the
    letters A to Z and the accented capitals 192..222, the multiplication
    sign apart, move up by 32. *)
Definition lower_char (c : ascii) : ascii :=
  let n := N_of_ascii c in
  if ((65 <=? n) && (n <=? 90)
      || (192 <=? n) && (n <=? 222) && negb (n =? 215))%N
  then ascii_of_N (n + 32)
  else c.

Definition lower (s : str) : str := map lower_char s.

Definition extract_keywords (text : str) (keywords : list str) : bool :=
  let text_lower := lower text in
  existsb (fun keyword => substringb (lower keyword) text_lower) keywords.

Definition filter_chunks_by_keywords (chunks : list str) (keywords : list str)
  : list str :=
  if negb (nonempty keywords) then chunks
  else filter (fun chunk => extract_keywords chunk keywords) chunks.

End Keywords.

(** ** Notions used to state further properties of the merger *)

Module MergeNotions.

(** The keys of [keys] added to [seen], each at its first occurrence. *)
Fixpoint first_seen (seen keys : list str) : list str :=
  match keys with
  | [] => seen
  | k :: rest =>
      if existsb (str_eqb k) seen then first_seen seen rest
      else first_seen (seen ++ [k]) rest
  end.

(** The keys of the dictionaries of a list of results, in their order. *)
Definition all_keys (results : list pyval) : list str :=
  flat_map (fun result =>
              match result with
              | VDict d => map fst d
              | _ => []
              end) results.

(** A merged dictionary as a Python value. *)
Definition as_result (merged : dict (list pyval)) : pyval :=
  VDict (map (fun kv => (fst kv, VList (snd kv))) merged).

End MergeNotions.

(** ** Notions used to state further properties of the parser *)

Module ParserNotions.

(** [sep.join(parts)] for a one-character separator. *)
Fixpoint join (sep : ascii) (parts : list str) : str :=
  match parts with
  | [] => []
  | [p] => p
  | p :: rest => p ++ sep :: join sep rest
  end.

(** The tags that open a fenced block: [yaml] and [yml], in any case. *)
Definition yaml_tag (tag : str) : bool :=
  match tag with
  | [y; a; m; l] =>
      YAMLProcessor.char_ci "y" "Y" y && YAMLProcessor.char_ci "a" "A" a
      && YAMLProcessor.char_ci "m" "M" m && YAMLProcessor.char_ci "l" "L" l
  | [y; m; l] =>
      YAMLProcessor.char_ci "y" "Y" y && YAMLProcessor.char_ci "m" "M" m
      && YAMLProcessor.char_ci "l" "L" l
  | _ => false
  end.

(** A reply with a fenced block: [pre], the opening fence with its tag, a
    newline, the body, a newline with the closing fence, and [post]. *)
Definition fenced (pre tag body post : str) : str :=
  pre ++ YAMLProcessor.fence ++ tag ++ nl :: body
      ++ YAMLProcessor.close_fence ++ post.

(** A dictionary written in the form that the fallback looks for: for
    every key a header line [key:] and then its lines, one per line. *)
Definition render_lines (lines : list str) : str :=
  concat (map (cons nl) lines).

Definition render_section (entry : str * list str) : str :=
  fst entry ++ ":"%char :: render_lines (snd entry).

Definition render (d : dict (list str)) : str :=
  join nl (map render_section d).

(** A key that can be written as a header: a word. *)
Definition key_ok (k : str) : bool :=
  nonempty k && forallb is_word k.

(** A line that can be written under a header: not empty, trimmed, without
    a newline, not a comment and not itself of the form of a header. *)
Definition line_ok (l : str) : bool :=
  nonempty l
  && negb (is_space (hd " "%char l))
  && negb (is_space (last l " "%char))
  && negb (existsb (Ascii.eqb nl) l)
  && negb (YAMLProcessor.starts_with_hash l)
  && negb (YAMLProcessor.header_ahead l).

(** A string without a place at which the sections are split. *)
Fixpoint no_split (s : str) : bool :=
  match s with
  | [] => true
  | c :: s' =>
      negb (Ascii.eqb c nl && YAMLProcessor.header_ahead s') && no_split s'
  end.

Definition entry_ok (entry : str * list str) : bool :=
  key_ok (fst entry) && nonempty (snd entry) && forallb line_ok (snd entry).

End ParserNotions.

(** ** Notions used to state further properties of ingestion *)

Module IngestNotions.

(** The file [f] is listed under the type [t]: it is a regular file and
    [t] is the type of its suffix. *)
Definition listed (t : str) (f : Run.file_entry) : bool :=
  Run.f_is_file f &&
  match Run.type_of_suffix Run.supported_extensions (Run.f_suffix f) with
  | Some t' => str_eqb t' t
  | None => false
  end.

(** The document [doc] is what the file [f], listed under the type [t],
    gives to the instance [self]: the file passed the size check against
    the configured limit, and [doc] has its name, its type, and the text
    that was read from it or that the processor of its type reported. *)
Definition ingested_from (self : Run.instance) (t : str) (f : Run.file_entry)
           (doc : DocumentRAGExtractor.doc_info) : Prop :=
  (exists limit,
      py_get (Run.processing_config self) (s2l "max_file_size_mb") (VInt 100)
      = Ok limit
      /\ Run.validate_file_size f limit = true)
  /\ DocumentRAGExtractor.file_name doc = Run.f_name f
  /\ DocumentRAGExtractor.file_type doc = t
  /\ ((t = s2l "txt"
       /\ exists content,
           Run.f_read f = Ok content
           /\ DocumentRAGExtractor.text doc = TextProcessor.clean_text content)
      \/ (t <> s2l "txt"
          /\ In t (Run.processors self)
          /\ Run.f_process f = Ok (true, DocumentRAGExtractor.text doc))).

End IngestNotions.

(** * Properties *)

Import TextProcessor YAMLProcessor.

(** ** Strings and slices *)

Lemma py_len_nonneg (s : str) : 0 <= py_len s.
Proof. unfold py_len. lia. Qed.

Lemma rfind_from_range (c : ascii) (s : str) :
  forall i last,
    rfind_from c s i last = last \/
    i <= rfind_from c s i last < i + py_len s.
Proof.
  induction s as [|x s IH]; intros i last; simpl.
  - now left.
  - unfold py_len in *. simpl length. rewrite Nat2Z.inj_succ.
    destruct (Ascii.eqb x c).
    + destruct (IH (i + 1) i) as [-> | H]; right; lia.
    + destruct (IH (i + 1) last) as [-> | H]; [now left | right; lia].
Qed.

Lemma py_rfind_range (c : ascii) (s : str) :
  py_rfind c s = -1 \/ 0 <= py_rfind c s < py_len s.
Proof. unfold py_rfind. apply rfind_from_range. Qed.

(** A slice with indices inside the string. *)
Lemma py_slice_inside (s : str) (a b : Z) :
  0 <= a -> a <= b -> b <= py_len s ->
  py_slice s a b = firstn (Z.to_nat (b - a)) (skipn (Z.to_nat a) s).
Proof.
  intros Ha Hab Hb. unfold py_slice, clamp_index.
  destruct (Z.ltb_spec a 0); [lia|].
  destruct (Z.ltb_spec b 0); [lia|].
  now rewrite !Z.min_l by lia.
Qed.

Lemma py_slice_inside_len (s : str) (a b : Z) :
  0 <= a -> a <= b -> b <= py_len s -> py_len (py_slice s a b) = b - a.
Proof.
  intros Ha Hab Hb. rewrite py_slice_inside by assumption.
  unfold py_len in *. rewrite length_firstn, length_skipn. lia.
Qed.

(** A slice whose end lies beyond the string stops at its end. *)
Lemma py_slice_beyond (s : str) (a b : Z) :
  0 <= a -> py_len s <= b -> py_slice s a b = py_slice s a (py_len s).
Proof.
  intros Ha Hb. unfold py_slice, clamp_index.
  pose proof (py_len_nonneg s).
  destruct (Z.ltb_spec b 0); [lia|].
  destruct (Z.ltb_spec (py_len s) 0); [lia|].
  now rewrite (Z.min_r b) by lia; rewrite Z.min_id.
Qed.

(** ** The chunker *)

Section ChunkerFacts.

Variables chunk_size overlap : Z.
Variable text : str.

Hypothesis overlap_nonneg : 0 <= overlap.
Hypothesis room : overlap + 199 <= chunk_size.

Lemma window_end_bounds (start : Z) :
  0 <= start -> start < py_len text ->
  start + chunk_size - 198 <= window_end chunk_size text start
  /\ window_end chunk_size text start <= start + chunk_size.
Proof.
  intros H0 Hlt. unfold window_end.
  destruct (Z.ltb_spec (start + chunk_size) (py_len text)) as [Hin|Hout]; [|lia].
  set (ct := py_slice text start (start + chunk_size)).
  assert (Hlen : py_len ct = chunk_size).
  { unfold ct. rewrite py_slice_inside_len; lia. }
  destruct (Z.gtb_spec (Z.max (py_rfind "." ct) (py_rfind nl ct)) (chunk_size - 200));
    [|lia].
  destruct (py_rfind_range "." ct), (py_rfind_range nl ct); lia.
Qed.

Lemma next_start_advances (start : Z) :
  0 <= start -> start < py_len text ->
  let n := next_start overlap text (window_end chunk_size text start) in
  start < n /\ n <= py_len text.
Proof.
  intros H0 Hlt. destruct (window_end_bounds start H0 Hlt) as [Hlo Hhi].
  unfold next_start. cbv zeta.
  destruct (Z.ltb_spec (window_end chunk_size text start) (py_len text)); lia.
Qed.

Lemma chunk_windows_terminates (fuel : nat) :
  forall start,
    0 <= start ->
    (Z.to_nat (py_len text - start) < fuel)%nat ->
    exists ws, chunk_windows chunk_size overlap fuel text start = Some ws.
Proof.
  induction fuel as [|fuel IH]; intros start H0 Hfuel; [lia|].
  simpl. destruct (Z.ltb_spec start (py_len text)) as [Hlt|Hge].
  - destruct (next_start_advances start H0 Hlt) as [Hadv Hle].
    destruct (IH (next_start overlap text (window_end chunk_size text start)))
      as [ws ->]; [lia | lia |].
    eauto.
  - eauto.
Qed.

End ChunkerFacts.

Section ChunkerWindows.

Variables chunk_size overlap : Z.
Variable text : str.

(** The loop is the fold of its windows. *)
Lemma chunk_loop_windows (fuel : nat) :
  forall start chunks,
    chunk_loop chunk_size overlap fuel text start chunks =
    option_map (fun ws => fold_left (add_window text) ws chunks)
               (chunk_windows chunk_size overlap fuel text start).
Proof.
  induction fuel as [|fuel IH]; intros start chunks; simpl; [reflexivity|].
  destruct (start <? py_len text); [|reflexivity].
  rewrite IH.
  destruct (chunk_windows chunk_size overlap fuel text _); reflexivity.
Qed.

End ChunkerWindows.

Section ChunkerCoverage.

Variables chunk_size overlap : Z.
Variable text : str.

Hypothesis overlap_nonneg : 0 <= overlap.
Hypothesis room : overlap + 199 <= chunk_size.

Lemma chunk_windows_chained (fuel : nat) :
  forall start ws,
    0 <= start ->
    chunk_windows chunk_size overlap fuel text start = Some ws ->
    chained overlap (py_len text) start ws.
Proof.
  induction fuel as [|fuel IH]; intros start ws H0; simpl; [discriminate|].
  destruct (Z.ltb_spec start (py_len text)) as [Hlt|Hge].
  - destruct (chunk_windows chunk_size overlap fuel text _) as [ws'|] eqn:E;
      [|discriminate].
    intros [= <-]. simpl.
    destruct (window_end_bounds chunk_size overlap text overlap_nonneg room start H0 Hlt)
      as [Hlo Hhi].
    repeat split; try lia.
    unfold next_start in E.
    destruct (Z.ltb_spec (window_end chunk_size text start) (py_len text)).
    + apply IH in E; [assumption | lia].
    + destruct fuel; simpl in E; [discriminate|].
      rewrite Z.ltb_irrefl in E. now injection E as <-.
  - intros [= <-]. simpl. lia.
Qed.

End ChunkerCoverage.

Lemma chained_covers (overlap len : Z) (ws : list (Z * Z)) :
  0 <= overlap ->
  forall start p,
    chained overlap len start ws -> start <= p < len ->
    exists w, In w ws /\ 0 <= fst w <= p /\ p < snd w.
Proof.
  intros Hov. induction ws as [|[s e] ws IH]; intros start p Hch Hp; simpl in Hch.
  - lia.
  - destruct Hch as (-> & Hs & Hlen & Hrest).
    destruct (Z.ltb_spec e len) as [He|He].
    + destruct (Z.lt_ge_cases p e) as [Hpe|Hpe].
      * exists (start, e). simpl. repeat split; auto; lia.
      * destruct (IH (e - overlap) p Hrest) as (w & Hin & Hw); [lia|].
        exists w. split; [now right | assumption].
    + exists (start, e). simpl. repeat split; auto; lia.
Qed.

Lemma lstrip_decomp (s : str) :
  exists l, s = l ++ lstrip s /\ forallb is_space l = true.
Proof.
  induction s as [|c s (l & Hl & Hsp)]; simpl.
  - now exists [].
  - destruct (is_space c) eqn:E.
    + exists (c :: l). simpl. rewrite E, Hsp. now rewrite <- Hl.
    + now exists [].
Qed.

Lemma strip_decomp (s : str) :
  exists l r, s = l ++ strip s ++ r
              /\ forallb is_space l = true /\ forallb is_space r = true.
Proof.
  destruct (lstrip_decomp s) as (l & Hl & Hlsp).
  destruct (lstrip_decomp (rev (lstrip s))) as (r & Hr & Hrsp).
  exists l, (rev r). unfold strip, rstrip. repeat split; auto.
  - rewrite <- rev_app_distr, <- Hr, rev_involutive. exact Hl.
  - rewrite forallb_forall in *. intros x Hx. apply Hrsp. now apply in_rev.
Qed.

(** A character that is not a space and lies in a part of the text lies in
    the part stripped, and the stripped part occurs in the text. *)
Lemma strip_keeps_nonspace (t : str) (a n p : nat) :
  (a <= p < a + n)%nat -> (p < length t)%nat ->
  is_space (nth p t " "%char) = false ->
  let c := strip (firstn n (skipn a t)) in
  exists q, occurs_at t q c /\ (q <= p < q + length c)%nat.
Proof.
  intros Hp Hlen Hns c.
  destruct (strip_decomp (firstn n (skipn a t))) as (l & r & Hdec & Hl & Hr).
  fold c in Hdec.
  assert (Hnth : nth p t " "%char = nth (p - a) (l ++ c ++ r) " "%char).
  { rewrite <- Hdec. rewrite nth_firstn.
    destruct (Nat.ltb_spec (p - a) n); [|lia].
    rewrite nth_skipn. f_equal. lia. }
  assert (Hlo : (length l <= p - a)%nat).
  { destruct (Nat.le_gt_cases (length l) (p - a)); [assumption|].
    rewrite app_nth1 in Hnth by assumption.
    rewrite forallb_forall in Hl.
    rewrite Hnth, Hl in Hns; [discriminate | now apply nth_In]. }
  assert (Htot : (p - a < length (l ++ c ++ r))%nat).
  { rewrite <- Hdec, length_firstn, length_skipn. lia. }
  assert (Hhi : (p - a - length l < length c)%nat).
  { rewrite !length_app in Htot.
    destruct (Nat.le_gt_cases (length c) (p - a - length l)); [|assumption].
    rewrite app_nth2, app_nth2 in Hnth by assumption.
    rewrite forallb_forall in Hr.
    rewrite Hnth, Hr in Hns; [discriminate | apply nth_In; lia]. }
  exists (a + length l)%nat. split; [|lia].
  unfold occurs_at.
  replace (a + length l)%nat with (length l + a)%nat by lia.
  rewrite <- skipn_skipn.
  rewrite <- (firstn_skipn n (skipn a t)), Hdec.
  rewrite <- app_assoc, skipn_app, skipn_all, Nat.sub_diag. simpl.
  rewrite <- app_assoc, firstn_app, firstn_all, Nat.sub_diag. simpl.
  now rewrite app_nil_r.
Qed.

Lemma chunks_of_members (text : str) (ws : list (Z * Z)) (c : str) :
  In c (chunks_of text ws) <->
  c <> [] /\ exists w, In w ws /\ c = strip (py_slice text (fst w) (snd w)).
Proof.
  unfold chunks_of. induction ws as [|w ws IH] using rev_ind; simpl.
  - split; [tauto | now intros (_ & w & [] & _)].
  - rewrite fold_left_app. simpl. unfold add_window at 1, append_chunk.
    destruct (strip (py_slice text (fst w) (snd w))) as [|x y] eqn:E; simpl.
    + rewrite IH. split.
      * intros (Hne & w' & Hin & ->). split; [assumption|].
        exists w'. split; [apply in_or_app; now left | reflexivity].
      * intros (Hne & w' & Hin & ->). split; [assumption|].
        apply in_app_or in Hin. destruct Hin as [Hin|[<-|[]]].
        -- now exists w'.
        -- now rewrite E in Hne.
    + rewrite in_app_iff, IH. simpl. split.
      * intros [(Hne & w' & Hin & ->) | [<- | []]].
        -- split; [assumption|]. exists w'. split; [apply in_or_app; now left | reflexivity].
        -- split; [discriminate|]. exists w. split; [apply in_or_app; right; now left | now symmetry].
      * intros (Hne & w' & Hin & ->).
        apply in_app_or in Hin. destruct Hin as [Hin|[<-|[]]].
        -- left. split; [assumption|]. now exists w'.
        -- right. left. now symmetry.
Qed.

(** C10.  A text of at most [chunk_size] characters is returned as the one
    chunk [[text]], as it is: nothing is trimmed and nothing is dropped, so
    the empty text gives [[""]] and a short text of spaces gives itself.  A
    longer text goes through the loop, where every chunk is a stripped
    slice of the text and an empty one is left out. *)
Theorem chunk_text_short_verbatim (chunk_size overlap : Z) (fuel : nat) (text : str) :
  (py_len text <= chunk_size ->
   chunk_text chunk_size overlap fuel text = Some [text])
  /\ (chunk_size < py_len text ->
      forall chunks,
        chunk_text chunk_size overlap fuel text = Some chunks ->
        forall c, In c chunks ->
                  c <> [] /\ exists s e, c = strip (py_slice text s e)).
Proof.
  unfold chunk_text. split; intros H.
  - destruct (Z.leb_spec (py_len text) chunk_size); [reflexivity | lia].
  - destruct (Z.leb_spec (py_len text) chunk_size); [lia|].
    intros chunks Hrun c Hc. rewrite chunk_loop_windows in Hrun.
    destruct (chunk_windows chunk_size overlap fuel text 0) as [ws|];
      [|discriminate].
    injection Hrun as <-.
    apply (chunks_of_members text ws c) in Hc.
    destruct Hc as (Hne & w & _ & ->). split; [assumption|]. eauto.
Qed.

Lemma chunk_text_short_verbatim_witness :
  chunk_text 2000 200 0 [] = Some [[]]
  /\ chunk_text 2000 200 0 (s2l "   ") = Some [s2l "   "].
Proof.
  split.
  - apply (proj1 (chunk_text_short_verbatim 2000 200 0 [])). vm_compute. discriminate.
  - apply (proj1 (chunk_text_short_verbatim 2000 200 0 (s2l "   "))).
    vm_compute. discriminate.
Defined.

(** C2.  With [chunk_size = 10] and [overlap = 0], a text of twenty letters
    and no period or newline never leaves the loop: no break point is found,
    -1 passes the test against [chunk_size - 200], the window is empty and
    the next start is the old one.  No amount of fuel gives a result. *)
Theorem chunk_text_stalls :
  let text := repeat "a"%char 20 in
  0 <= 0 < 10
  /\ window_end 10 text 0 = 0
  /\ next_start 0 text (window_end 10 text 0) = 0
  /\ forall fuel, chunk_text 10 0 fuel text = None.
Proof.
  cbv zeta. repeat split; try lia.
  intro fuel. unfold chunk_text.
  change (py_len (repeat "a"%char 20) <=? 10) with false. cbv iota.
  induction fuel as [|fuel IH]; [reflexivity|].
  exact IH.
Qed.

(** C3, as the specification states it, fails: with [chunk_size = 200] and
    [overlap = 0] the text of a space and 250 letters is cut into two
    chunks that hold letters only; the space at position 0 is in neither. *)
Lemma chunk_text_loses_leading_space :
  let text := " "%char :: repeat "a"%char 250 in
  0 <= 0 < 200
  /\ exists chunks,
      chunk_text 200 0 (S (length text)) text = Some chunks
      /\ ~ (forall p, (p < length text)%nat -> covered text chunks p).
Proof.
  cbv zeta. split; [lia|].
  exists [repeat "a"%char 199; repeat "a"%char 51]. split.
  - vm_compute. reflexivity.
  - intros H. destruct (H 0%nat) as (c & q & Hin & Hocc & Hq).
    + simpl. lia.
    + assert (q = 0%nat) by lia. subst q. unfold occurs_at in Hocc.
      destruct Hin as [<- | [<- | []]]; vm_compute in Hocc; discriminate.
Qed.

(** C3, amended.  For [0 <= overlap] and [overlap + 199 <= chunk_size] the
    chunker finishes.  A text of at most [chunk_size] characters is its own
    single chunk.  For a longer text the windows of the loop follow one
    another without a gap (the first starts at 0, each next one starts
    [overlap] characters before the end of the one before, the last one
    reaches the end of the text), the chunks are the windows stripped, the
    empty ones left out, and every character of the text that is not
    white space lies in a returned chunk. *)
Theorem chunk_text_covers_nonspace (chunk_size overlap : Z) (text : str) :
  0 <= overlap -> overlap + 199 <= chunk_size ->
  exists chunks,
    chunk_text chunk_size overlap (S (length text)) text = Some chunks
    /\ (py_len text <= chunk_size /\ chunks = [text]
        \/ chunk_size < py_len text
           /\ exists ws, chained overlap (py_len text) 0 ws
                         /\ chunks = chunks_of text ws)
    /\ forall p, (p < length text)%nat ->
                 is_space (nth p text " "%char) = false ->
                 covered text chunks p.
Proof.
  intros Hov Hroom. unfold chunk_text.
  destruct (Z.leb_spec (py_len text) chunk_size) as [Hshort|Hlong].
  - exists [text]. repeat split; auto.
    intros p Hp _. exists text, 0%nat. repeat split; simpl; auto; try lia.
    unfold occurs_at. simpl. apply firstn_all.
  - destruct (chunk_windows_terminates chunk_size overlap text Hov Hroom
                (S (length text)) 0) as [ws Hws]; [lia | unfold py_len; lia |].
    rewrite chunk_loop_windows, Hws. simpl.
    pose proof (chunk_windows_chained chunk_size overlap text Hov Hroom _ _ _
                  (Z.le_refl 0) Hws) as Hch.
    exists (chunks_of text ws). repeat split.
    + right. split; [assumption|]. now exists ws.
    + intros p Hp Hns.
      destruct (chained_covers overlap (py_len text) ws Hov 0 (Z.of_nat p) Hch)
        as ([s e] & Hin & Hs & He); [unfold py_len; lia|].
      simpl in Hs, He.
      assert (Hslice : py_slice text s e =
                       firstn (Z.to_nat (Z.min e (py_len text) - s))
                              (skipn (Z.to_nat s) text)).
      { destruct (Z.le_gt_cases (py_len text) e).
        - rewrite py_slice_beyond by lia. rewrite Z.min_r by lia.
          apply py_slice_inside; unfold py_len; lia.
        - rewrite Z.min_l by lia. apply py_slice_inside; lia. }
      destruct (strip_keeps_nonspace text (Z.to_nat s)
                  (Z.to_nat (Z.min e (py_len text) - s)) p) as (q & Hocc & Hq);
        [unfold py_len; lia | assumption | assumption |].
      rewrite <- Hslice in Hocc, Hq.
      exists (strip (py_slice text s e)), q. repeat split; try assumption; try lia.
      apply chunks_of_members. split.
      * intros E. rewrite E in Hq. simpl in Hq. lia.
      * exists (s, e). now split.
Qed.

Lemma chunk_text_covers_nonspace_witness :
  let text := " "%char :: repeat "a"%char 250 in
  exists chunks,
    chunk_text 200 0 (S (length text)) text = Some chunks
    /\ covered text chunks 1.
Proof.
  cbv zeta.
  destruct (chunk_text_covers_nonspace 200 0 (" "%char :: repeat "a"%char 250))
    as (chunks & Hrun & _ & Hcov); [lia | lia |].
  exists chunks. split; [exact Hrun|].
  apply Hcov; [simpl; lia | reflexivity].
Defined.

(** ** Dictionaries *)

Lemma str_eqb_eq (a b : str) : str_eqb a b = true <-> a = b.
Proof.
  revert b. induction a as [|x a IH]; intros [|y b]; simpl; try easy.
  rewrite andb_true_iff, Ascii.eqb_eq, IH. split.
  - now intros [-> ->].
  - now intros [= -> ->].
Qed.

Lemma str_eqb_refl (a : str) : str_eqb a a = true.
Proof. now apply str_eqb_eq. Qed.

Section DictFacts.

Context {V : Type}.

Lemma dict_get_set_same (k : str) (v : V) (d : dict V) :
  dict_get k (dict_set k v d) = Some v.
Proof.
  induction d as [|[k' v'] d IH]; simpl.
  - now rewrite str_eqb_refl.
  - destruct (str_eqb k' k) eqn:E; simpl; now rewrite E.
Qed.

Lemma dict_get_set_other (k k' : str) (v : V) (d : dict V) :
  str_eqb k k' = false ->
  dict_get k' (dict_set k v d) = dict_get k' d.
Proof.
  intros Hne. induction d as [|[k0 v0] d IH]; simpl.
  - now rewrite Hne.
  - destruct (str_eqb k0 k) eqn:E; simpl.
    + apply str_eqb_eq in E. subst k0. now rewrite Hne.
    + now rewrite IH.
Qed.

Lemma dict_get_set (k k' : str) (v : V) (d : dict V) :
  dict_get k' (dict_set k v d) =
  if str_eqb k k' then Some v else dict_get k' d.
Proof.
  destruct (str_eqb k k') eqn:E.
  - apply str_eqb_eq in E. subst. apply dict_get_set_same.
  - now apply dict_get_set_other.
Qed.

End DictFacts.

(** ** The result merger *)

Lemma merge_item_get (merged : dict (list pyval)) (key key' : str) (value : pyval) :
  dict_get key' (merge_item merged (key, value)) =
  if str_eqb key key' then Some (acc_of key merged ++ merged_items value)
  else dict_get key' merged.
Proof.
  unfold merge_item, acc_of, dict_mem.
  destruct (dict_get key merged) as [acc|] eqn:Hget.
  - rewrite Hget.
    destruct value as [| b | z | s | l | d]; simpl;
      repeat match goal with
             | |- context [if ?c then dict_set _ _ _ else _] => destruct c eqn:?
             end;
      rewrite ?dict_get_set; destruct (str_eqb key key') eqn:E;
      try reflexivity;
      apply str_eqb_eq in E; subst; now rewrite ?app_nil_r.
  - rewrite dict_get_set_same.
    destruct value as [| b | z | s | l | d]; simpl;
      repeat match goal with
             | |- context [if ?c then dict_set _ _ _ else _] => destruct c eqn:?
             end;
      rewrite ?dict_get_set; destruct (str_eqb key key') eqn:E;
      try reflexivity;
      apply str_eqb_eq in E; subst; now rewrite ?Hget.
Qed.

Lemma acc_of_merge_item (merged : dict (list pyval)) (key key' : str) (value : pyval) :
  acc_of key' (merge_item merged (key, value)) =
  if str_eqb key key' then acc_of key merged ++ merged_items value
  else acc_of key' merged.
Proof.
  unfold acc_of at 1. rewrite merge_item_get.
  now destruct (str_eqb key key').
Qed.

Lemma key_items_absent (key : str) (items : list (str * pyval)) :
  key_present key items = false -> key_items key items = [].
Proof.
  unfold key_present, key_items.
  induction items as [|[k v] items IH]; simpl; [reflexivity|].
  destruct (str_eqb k key); simpl; [discriminate | exact IH].
Qed.

Lemma result_items_absent (key : str) (results : list pyval) :
  existsb (result_has key) results = false ->
  flat_map (result_items key) results = [].
Proof.
  induction results as [|r results IH]; simpl; [reflexivity|].
  intros H. apply orb_false_iff in H. destruct H as [Hr Hrest].
  rewrite (IH Hrest), app_nil_r.
  destruct r; simpl in *; try reflexivity. now apply key_items_absent.
Qed.

Lemma fold_merge_item_get (items : list (str * pyval)) :
  forall (merged : dict (list pyval)) (key : str),
    dict_get key (fold_left merge_item items merged) =
    if key_present key items
    then Some (acc_of key merged ++ key_items key items)
    else dict_get key merged.
Proof.
  induction items as [|[k v] items IH]; intros merged key; [reflexivity|].
  cbn [fold_left]. rewrite IH, acc_of_merge_item, merge_item_get.
  change (key_present key ((k, v) :: items))
    with (str_eqb k key || key_present key items).
  change (key_items key ((k, v) :: items))
    with ((if str_eqb k key then merged_items v else []) ++ key_items key items).
  destruct (str_eqb k key) eqn:E; simpl.
  - apply str_eqb_eq in E. subst k.
    destruct (key_present key items) eqn:Hp.
    + now rewrite <- app_assoc.
    + now rewrite (key_items_absent key items Hp), app_nil_r.
  - reflexivity.
Qed.

Lemma merge_result_get (merged : dict (list pyval)) (result : pyval) :
  exists merged',
    merge_result merged result = Ok merged'
    /\ forall key,
        dict_get key merged' =
        if result_has key result
        then Some (acc_of key merged ++ result_items key result)
        else dict_get key merged.
Proof.
  destruct result as [| b | z | s | l | d]; simpl;
    try (exists merged; split; [reflexivity | intros key; reflexivity]).
  exists (fold_left merge_item d merged). split; [reflexivity|].
  intros key. apply fold_merge_item_get.
Qed.

Lemma merge_from_get (results : list pyval) :
  forall merged,
  exists merged',
    merge_from merged results = Ok merged'
    /\ forall key,
        dict_get key merged' =
        if existsb (result_has key) results
        then Some (acc_of key merged ++ flat_map (result_items key) results)
        else dict_get key merged.
Proof.
  induction results as [|r results IH]; intros merged; simpl.
  - exists merged. split; [reflexivity | reflexivity].
  - destruct (merge_result_get merged r) as (m1 & -> & Hm1). simpl.
    destruct (IH m1) as (m2 & -> & Hm2).
    exists m2. split; [reflexivity|].
    intros key. rewrite Hm2. unfold acc_of at 1. rewrite Hm1.
    destruct (result_has key r) eqn:Hr; simpl.
    + destruct (existsb (result_has key) results) eqn:Hrest.
      * now rewrite <- app_assoc.
      * now rewrite (result_items_absent key results Hrest), app_nil_r.
    + assert (Hnil : result_items key r = []).
      { destruct r; simpl in *; try reflexivity. now apply key_items_absent. }
      now rewrite Hnil.
Qed.

Lemma merge_from_skips (results : list pyval) :
  forall merged,
    merge_from merged results = merge_from merged (filter is_dict results).
Proof.
  induction results as [|r results IH]; intros merged; simpl; [reflexivity|].
  destruct r as [| b | z | s | l | d]; simpl; apply IH.
Qed.

(** C4.  The merger returns a dictionary in which a key is present exactly
    when some input mapping has it, and its list is made of the values found
    under the key in the order of the input: the elements of a list value,
    any other truthy value as one element, nothing for a falsy value.  The
    two examples of the specification are evaluated. *)
Theorem merge_yaml_results_appends (results : list pyval) :
  (exists merged,
      merge_yaml_results results = Ok merged
      /\ forall key,
          dict_get key merged =
          if existsb (result_has key) results
          then Some (flat_map (result_items key) results)
          else None)
  /\ merge_yaml_results
       [VDict [(s2l "x", VList [VStr (s2l "a")])];
        VDict [(s2l "x", VList [VStr (s2l "b"); VStr (s2l "c")])];
        VDict [(s2l "x", VStr (s2l "d"))]]
     = Ok [(s2l "x", [VStr (s2l "a"); VStr (s2l "b"); VStr (s2l "c"); VStr (s2l "d")])]
  /\ merge_yaml_results
       [VDict [(s2l "x", VList [])];
        VDict [(s2l "x", VStr [])];
        VDict [(s2l "x", VNone)]]
     = Ok [(s2l "x", [])].
Proof.
  split; [|split; reflexivity].
  destruct (merge_from_get results []) as (merged & Hrun & Hget).
  exists merged. split; [exact Hrun|].
  intros key. now rewrite Hget.
Qed.

(** C9.  The merger returns a dictionary for every list of values, and an
    element that is not a dictionary adds nothing: the result is that of the
    dictionaries of the list alone.  A list that mixes a string, a list, a
    number and [None] with two dictionaries is evaluated. *)
Theorem merge_yaml_results_total (results : list pyval) :
  (exists merged,
      merge_yaml_results results = Ok merged
      /\ merge_yaml_results (filter is_dict results) = Ok merged)
  /\ merge_yaml_results
       [VStr (s2l "text");
        VDict [(s2l "x", VStr (s2l "a"))];
        VList [VStr (s2l "x")];
        VInt 7;
        VNone;
        VDict [(s2l "x", VStr (s2l "b"))]]
     = Ok [(s2l "x", [VStr (s2l "a"); VStr (s2l "b")])].
Proof.
  split; [|reflexivity].
  destruct (merge_from_get results []) as (merged & Hrun & _).
  exists merged. unfold merge_yaml_results.
  now rewrite <- merge_from_skips.
Qed.

(** ** The response parser *)

Lemma dict_get_app {V} (key : str) (a b : dict V) :
  dict_get key (a ++ b) =
  match dict_get key a with
  | Some v => Some v
  | None => dict_get key b
  end.
Proof.
  induction a as [|[k v] a IH]; simpl; [reflexivity|].
  now destruct (str_eqb k key).
Qed.

Lemma add_section_get (result : dict (list str)) (section key : str) :
  dict_get key (add_section result section) =
  match dict_get key (section_entries [section]) with
  | Some content => Some content
  | None => dict_get key result
  end.
Proof.
  unfold add_section, section_entries. simpl.
  destruct (section_entry section) as [[header content]|]; simpl; [|reflexivity].
  rewrite dict_get_set. now destruct (str_eqb header key).
Qed.

Lemma section_entries_cons (section : str) (sections : list str) :
  section_entries (section :: sections) =
  section_entries [section] ++ section_entries sections.
Proof. unfold section_entries. simpl. now rewrite app_nil_r. Qed.

Lemma fold_add_section_get (sections : list str) :
  forall (result : dict (list str)) (key : str),
    dict_get key (fold_left add_section sections result) =
    match dict_get key (rev (section_entries sections)) with
    | Some content => Some content
    | None => dict_get key result
    end.
Proof.
  induction sections as [|section sections IH]; intros result key;
    [reflexivity|].
  cbn [fold_left]. rewrite IH, add_section_get.
  rewrite (section_entries_cons section sections), rev_app_distr, dict_get_app.
  destruct (dict_get key (rev (section_entries sections))); [reflexivity|].
  assert (Hone : rev (section_entries [section]) = section_entries [section]).
  { unfold section_entries. simpl. now destruct (section_entry section). }
  now rewrite Hone.
Qed.

Lemma strip_incl (s : str) (x : ascii) : In x (strip s) -> In x s.
Proof.
  destruct (strip_decomp s) as (l & r & Hs & _).
  intros H. rewrite Hs. apply in_or_app. right. apply in_or_app. now left.
Qed.

Lemma has_colon_false (s : str) :
  has_colon s = false <-> ~ In ":"%char s.
Proof.
  unfold has_colon. split.
  - intros H Hin.
    assert (E : existsb (fun c => Ascii.eqb c ":") s = true).
    { apply existsb_exists. exists ":"%char. split; [assumption | reflexivity]. }
    now rewrite E in H.
  - intros H. destruct (existsb _ s) eqn:E; [|reflexivity].
    apply existsb_exists in E. destruct E as (x & Hx & Ex).
    apply Ascii.eqb_eq in Ex. now subst.
Qed.

Lemma header_has_no_colon (line : str) :
  has_colon (strip (remove_colons line)) = false.
Proof.
  apply has_colon_false. intros H. apply strip_incl in H.
  unfold remove_colons in H. apply filter_In in H.
  destruct H as [_ H]. now rewrite Ascii.eqb_refl in H.
Qed.

Lemma section_content_members (lines : list str) (x : str) :
  In x (section_content lines) <->
  x <> [] /\ starts_with_hash x = false
  /\ exists line, In line lines /\ x = strip line.
Proof.
  unfold section_content. rewrite filter_In, in_map_iff, andb_true_iff, negb_true_iff.
  split.
  - intros ((line & <- & Hin) & Hne & Hhash). repeat split; eauto.
    intros E. now rewrite E in Hne.
  - intros (Hne & Hhash & line & Hin & ->). repeat split; eauto.
    now destruct (strip line).
Qed.

Lemma split_lines_nonempty (s : str) : split_lines s <> [].
Proof.
  destruct s as [|c s]; simpl; [discriminate|].
  destruct (Ascii.eqb c nl); [discriminate|].
  unfold cons_head. destruct (split_lines s); discriminate.
Qed.

(** C8, as the specification states it, fails: for the one section
    [key: value / - item] the fallback stores the list under the key
    [key value], the header line with its colon taken out, and the key that
    the specification names, [key], is absent. *)
Lemma fallback_key_is_not_text_before_colon :
  let text := s2l "key: value
- item" in
  split_sections text = [text]
  /\ spec_key text = s2l "key"
  /\ _extract_structured_data text = [(s2l "key value", [s2l "- item"])]
  /\ dict_get (spec_key text) (_extract_structured_data text) = None.
Proof. cbv zeta. repeat split. Qed.

(** C8, amended.  The fallback's result holds, for a key, the entry of the
    last section that gives this key.  A section gives an entry when it
    contains a colon and has content: the key is the first line of the
    trimmed section with every colon removed, trimmed, and the content is
    the list, in order, of the trimmed later lines that are neither empty
    nor start with [#].  Every section that contains a colon and has such a
    content line gives this entry, and no other section gives one. *)
Theorem extract_structured_data_entries (text : str) :
  (forall key,
      dict_get key (_extract_structured_data text) =
      dict_get key (rev (section_entries (split_sections text))))
  /\ (forall section header content,
         section_entry section = Some (header, content) ->
         has_colon section = true
         /\ has_colon header = false
         /\ content <> []
         /\ exists line0 rest,
             split_lines (strip section) = line0 :: rest
             /\ header = strip (remove_colons line0)
             /\ content = section_content rest
             /\ forall x, In x content <->
                          x <> [] /\ starts_with_hash x = false
                          /\ exists line, In line rest /\ x = strip line)
  /\ (forall section, has_colon section = false -> section_entry section = None)
  /\ (forall section line0 rest,
         split_lines (strip section) = line0 :: rest ->
         section_content rest = [] -> section_entry section = None)
  /\ (forall section line0 rest,
         has_colon section = true ->
         split_lines (strip section) = line0 :: rest ->
         section_content rest <> [] ->
         section_entry section
         = Some (strip (remove_colons line0), section_content rest))
  /\ (forall section,
         exists line0 rest,
           split_lines (strip section) = line0 :: rest
           /\ section_entry section
              = if has_colon section && nonempty (section_content rest)
                then Some (strip (remove_colons line0), section_content rest)
                else None).
Proof.
  split; [|split; [|split; [|split; [|split]]]].
  - intros key. unfold _extract_structured_data. rewrite fold_add_section_get.
    now destruct (dict_get key _).
  - intros section header content H. unfold section_entry in H.
    destruct (has_colon section); [|discriminate].
    destruct (split_lines (strip section)) as [|line0 rest]; [discriminate|].
    destruct (section_content rest) as [|x content'] eqn:E; [discriminate|].
    injection H as <- <-.
    split; [reflexivity|]. split; [apply header_has_no_colon|].
    split; [discriminate|].
    exists line0, rest. split; [reflexivity|]. split; [reflexivity|].
    split; [now symmetry|].
    intros y. rewrite <- E. apply section_content_members.
  - intros section H. unfold section_entry. now rewrite H.
  - intros section line0 rest Hl Hc. unfold section_entry.
    rewrite Hl, Hc. now destruct (has_colon section).
  - intros section line0 rest Hcolon Hl Hc. unfold section_entry.
    rewrite Hcolon, Hl. cbv zeta.
    destruct (section_content rest); [now elim Hc | reflexivity].
  - intros section.
    destruct (split_lines (strip section)) as [|line0 rest] eqn:Hl;
      [now elim (split_lines_nonempty (strip section))|].
    exists line0, rest. split; [reflexivity|].
    unfold section_entry. rewrite Hl. cbv zeta.
    destruct (has_colon section); [|reflexivity].
    now destruct (section_content rest).
Qed.

Lemma extract_structured_data_entries_witness :
  let section := s2l "products: all
 - Widget
# note

 Gadget " in
  section_entry section = Some (s2l "products all", [s2l "- Widget"; s2l "Gadget"])
  /\ has_colon (s2l "products all") = false
  /\ dict_get (s2l "products all") (_extract_structured_data section)
     = Some [s2l "- Widget"; s2l "Gadget"].
Proof.
  cbv zeta.
  assert (E : section_entry (s2l "products: all
 - Widget
# note

 Gadget ") = Some (s2l "products all", [s2l "- Widget"; s2l "Gadget"]))
    by reflexivity.
  split; [exact E|]. split.
  - exact (proj1 (proj2 (proj1 (proj2 (extract_structured_data_entries [])) _ _ _ E))).
  - rewrite (proj1 (extract_structured_data_entries _)). reflexivity.
Defined.

(** The three ways out of [parse_yaml_from_text]. *)
Lemma parse_yaml_from_text_cases (safe_load : str -> res pyval) (text : str) :
  match safe_load (yaml_text_of text) with
  | Ok v =>
      parse_yaml_from_text safe_load text =
      Ok (if truthy v then v else VDict [])
  | Raise YAMLError =>
      exists d, parse_yaml_from_text safe_load text = Ok (VDict d)
  | Raise e => parse_yaml_from_text safe_load text = Raise e
  end.
Proof.
  unfold parse_yaml_from_text.
  destruct (safe_load (yaml_text_of text)) as [v|[]]; try reflexivity.
  unfold structured_value. eauto.
Qed.

(** C1.  On the text [random prose with no structure], which holds no
    fenced block and which [yaml.safe_load] reads as a plain scalar, the
    parser returns that string: a truthy value that is not a mapping passes
    [or {}] as it is. *)
Theorem parse_yaml_from_text_plain_scalar (safe_load : str -> res pyval) :
  let raw := s2l "random prose with no structure" in
  safe_load raw = Ok (VStr raw) ->
  yaml_text_of raw = raw
  /\ parse_yaml_from_text safe_load raw = Ok (VStr raw)
  /\ is_dict (VStr raw) = false.
Proof.
  cbv zeta. intros H.
  assert (E : yaml_text_of (s2l "random prose with no structure")
              = s2l "random prose with no structure") by reflexivity.
  split; [exact E|]. split; [|reflexivity].
  unfold parse_yaml_from_text. rewrite E, H. reflexivity.
Qed.

Lemma parse_yaml_from_text_plain_scalar_witness :
  parse_yaml_from_text (fun s => Ok (VStr s)) (s2l "random prose with no structure")
  = Ok (VStr (s2l "random prose with no structure")).
Proof.
  exact (proj1 (proj2 (parse_yaml_from_text_plain_scalar
                         (fun s => Ok (VStr s)) eq_refl))).
Defined.

(** ** The orchestrator *)

Section ExtractionFacts.

Import DocumentRAGExtractor.

Variable self : extractor.

Lemma collect_chunks_items (d : nat) (t : str) (chunks : list str) :
  forall i type_results,
    flat_map merged_items (collect_chunks self d t i chunks type_results) =
    flat_map merged_items type_results
    ++ chunk_items (chunk_contribution self) d t i chunks.
Proof.
  induction chunks as [|chunk chunks IH]; intros i type_results; simpl.
  - now rewrite app_nil_r.
  - rewrite IH. destruct (chunk_contribution self d t i chunk) as [v|].
    + rewrite flat_map_app. simpl. now rewrite app_nil_r, <- app_assoc.
    + reflexivity.
Qed.

Lemma singleton_items (t : str) (type_results : list pyval) :
  flat_map (result_items t) (map (fun r => VDict [(t, r)]) type_results)
  = flat_map merged_items type_results.
Proof.
  induction type_results as [|r rs IH]; simpl; [reflexivity|].
  rewrite IH, str_eqb_refl. now rewrite app_nil_r.
Qed.

Lemma merge_singletons (t : str) (type_results : list pyval) :
  exists merged,
    merge_yaml_results (map (fun r => VDict [(t, r)]) type_results) = Ok merged
    /\ dict_get t merged =
       if nonempty type_results
       then Some (flat_map merged_items type_results)
       else None.
Proof.
  destruct (merge_from_get (map (fun r => VDict [(t, r)]) type_results) [])
    as (merged & Hrun & Hget).
  exists merged. split; [exact Hrun|]. rewrite Hget.
  rewrite singleton_items.
  destruct type_results as [|r rs]; simpl; [reflexivity|].
  now rewrite str_eqb_refl.
Qed.

(** The merge of one category extends the list of that category and
    leaves the other entries of [results] as they are. *)
Lemma merge_type_results_get (results : dict pyval) (t : str)
      (type_results : list pyval) (l : list pyval) :
  dict_get t results = Some (VList l) ->
  exists results',
    merge_type_results results t type_results = Ok results'
    /\ dict_get t results' = Some (VList (l ++ flat_map merged_items type_results))
    /\ forall t', str_eqb t t' = false -> dict_get t' results' = dict_get t' results.
Proof.
  intros Hl. unfold merge_type_results.
  destruct (merge_singletons t type_results) as (merged & -> & Hget).
  destruct type_results as [|r rs]; simpl nonempty in *; cbv iota.
  - exists results. simpl. now rewrite app_nil_r.
  - simpl bind. unfold dict_mem, dict_lookup. rewrite Hget, Hl. simpl.
    eexists. split; [reflexivity|]. split.
    + apply dict_get_set_same.
    + intros t' Hne. now apply dict_get_set_other.
Qed.

Lemma extract_types_get (d : nat) (chunks : list str) (types : list str) :
  forall results,
    NoDup types ->
    (forall t, In t types -> exists l, dict_get t results = Some (VList l)) ->
    exists results',
      extract_types self d chunks types results = Ok results'
      /\ (forall t l, In t types -> dict_get t results = Some (VList l) ->
                      dict_get t results' =
                      Some (VList (l ++ chunk_items (chunk_contribution self) d t 0 chunks)))
      /\ (forall t, ~ In t types -> dict_get t results' = dict_get t results).
Proof.
  induction types as [|t0 types IH]; intros results Hnd Hlists; simpl.
  - exists results. repeat split; tauto.
  - inversion Hnd as [|? ? Hnotin Hnd']; subst.
    destruct (Hlists t0 (or_introl eq_refl)) as (l0 & Hl0).
    destruct (merge_type_results_get results t0
                (collect_chunks self d t0 0 chunks []) l0 Hl0)
      as (r1 & -> & Hsame & Hother).
    simpl bind.
    rewrite collect_chunks_items in Hsame. simpl in Hsame.
    assert (Hne : forall t, In t types -> str_eqb t0 t = false).
    { intros t Hin. destruct (str_eqb t0 t) eqn:E; [|reflexivity].
      apply str_eqb_eq in E. now subst. }
    destruct (IH r1 Hnd') as (r2 & -> & Hin2 & Hout2).
    { intros t Hin. rewrite (Hother t (Hne t Hin)). apply Hlists. now right. }
    exists r2. split; [reflexivity|]. split.
    + intros t l [<- | Hin] Hl.
      * rewrite (Hout2 t0 Hnotin), Hsame. rewrite Hl0 in Hl. now injection Hl as <-.
      * apply Hin2; [assumption|]. now rewrite (Hother t (Hne t Hin)).
    + intros t Hnot. rewrite Hout2 by tauto.
      apply Hother. destruct (str_eqb t0 t) eqn:E; [|reflexivity].
      apply str_eqb_eq in E. subst. tauto.
Qed.

Lemma extract_docs_get (fuel : nat) (docs : list doc_info) :
  forall d chunkss results,
    NoDup (extraction_types self) ->
    chunked self fuel docs chunkss ->
    (forall t, In t (extraction_types self) ->
               exists l, dict_get t results = Some (VList l)) ->
    exists results',
      extract_docs self fuel d docs results = Some (Ok results')
      /\ forall t l, In t (extraction_types self) ->
                     dict_get t results = Some (VList l) ->
                     dict_get t results' =
                     Some (VList (l ++ doc_items (chunk_contribution self) t d chunkss)).
Proof.
  induction docs as [|doc docs IH]; intros d chunkss results Hnd Hch Hlists;
    inversion Hch as [|? chunks ? chunkss' Hdoc Hrest]; subst; simpl.
  - exists results. split; [reflexivity|]. intros t l _ Hl. now rewrite app_nil_r.
  - rewrite Hdoc.
    destruct (extract_types_get d chunks (extraction_types self) results Hnd Hlists)
      as (r1 & -> & Hin1 & _).
    destruct (IH (S d) chunkss' r1 Hnd Hrest) as (r2 & -> & Hin2).
    { intros t Hin. destruct (Hlists t Hin) as (l & Hl).
      rewrite (Hin1 t l Hin Hl). eauto. }
    exists r2. split; [reflexivity|].
    intros t l Hin Hl. rewrite (Hin2 t _ Hin (Hin1 t l Hin Hl)).
    now rewrite <- app_assoc.
Qed.

Lemma initial_results_get (docs : list doc_info) (t : str) :
  In t (extraction_types self) ->
  dict_get t (initial_results self docs) = Some (VList []).
Proof.
  unfold initial_results.
  generalize [(s2l "extraction_metadata", extraction_metadata self docs)].
  intros d0 Hin.
  assert (H : forall types d,
             In t types \/ dict_get t d = Some (VList []) ->
             dict_get t (fold_left (fun results t1 => dict_set t1 (VList []) results)
                                   types d) = Some (VList [])).
  { induction types as [|t1 types IH]; intros d Hd; simpl.
    - destruct Hd as [[]|Hd]. exact Hd.
    - apply IH. rewrite dict_get_set.
      destruct (str_eqb t1 t) eqn:E; [now right|].
      destruct Hd as [[-> | Hin']|Hd]; auto.
      now rewrite str_eqb_refl in E. }
  apply H. now left.
Qed.

Lemma extract_information_get (fuel : nat) (docs : list doc_info)
      (chunkss : list (list str)) :
  NoDup (extraction_types self) ->
  chunked self fuel docs chunkss ->
  exists results,
    extract_information self fuel docs = Some (Ok results)
    /\ forall t, In t (extraction_types self) ->
                 dict_get t results =
                 Some (VList (doc_items (chunk_contribution self) t 0 chunkss)).
Proof.
  intros Hnd Hch. unfold extract_information.
  destruct (extract_docs_get fuel docs 0 chunkss (initial_results self docs) Hnd Hch)
    as (results & Hrun & Hget).
  { intros t Hin. exists []. now apply initial_results_get. }
  exists results. split; [exact Hrun|].
  intros t Hin. now rewrite (Hget t [] Hin (initial_results_get docs t Hin)).
Qed.

End ExtractionFacts.

Lemma chunk_items_ext (c1 c2 : nat -> str -> nat -> str -> option pyval)
      (d : nat) (t : str) (chunks : list str) :
  (forall i chunk, c1 d t i chunk = c2 d t i chunk) ->
  forall i, DocumentRAGExtractor.chunk_items c1 d t i chunks
            = DocumentRAGExtractor.chunk_items c2 d t i chunks.
Proof.
  intros H. induction chunks as [|chunk chunks IH]; intros i; simpl;
    [reflexivity|].
  now rewrite H, IH.
Qed.

Lemma doc_items_ext (c1 c2 : nat -> str -> nat -> str -> option pyval)
      (t : str) (chunkss : list (list str)) :
  (forall d i chunk, c1 d t i chunk = c2 d t i chunk) ->
  forall d, DocumentRAGExtractor.doc_items c1 t d chunkss
            = DocumentRAGExtractor.doc_items c2 t d chunkss.
Proof.
  intros H. induction chunkss as [|chunks chunkss IH]; intros d; simpl;
    [reflexivity|].
  rewrite IH. f_equal. apply chunk_items_ext. intros i chunk. apply H.
Qed.

(** A client that fails at one call site changes the contribution of that
    site to nothing and no other contribution. *)
Lemma chunk_contribution_fail_at (self : DocumentRAGExtractor.extractor)
      (site : nat * str * nat) (e : exn) (d : nat) (t : str) (i : nat)
      (chunk : str) :
  DocumentRAGExtractor.chunk_contribution
    (DocumentRAGExtractor.fail_at self site e) d t i chunk
  = DocumentRAGExtractor.mask site
      (DocumentRAGExtractor.chunk_contribution self) d t i chunk.
Proof.
  unfold DocumentRAGExtractor.chunk_contribution, DocumentRAGExtractor.mask,
    DocumentRAGExtractor.try_chunk.
  cbn [DocumentRAGExtractor.fail_at DocumentRAGExtractor.min_chunk_length
       DocumentRAGExtractor.format_prompt DocumentRAGExtractor.generate
       DocumentRAGExtractor.safe_load].
  destruct (py_len chunk <? DocumentRAGExtractor.min_chunk_length self).
  - now destruct (DocumentRAGExtractor.nat_str_nat_eqb (d, t, i) site).
  - destruct (DocumentRAGExtractor.format_prompt self t chunk) as [prompt|e'];
      simpl bind.
    + now destruct (DocumentRAGExtractor.nat_str_nat_eqb (d, t, i) site).
    + now destruct (DocumentRAGExtractor.nat_str_nat_eqb (d, t, i) site).
Qed.

Lemma demo_chunked (gen : nat -> str -> nat -> str -> res str) :
  DocumentRAGExtractor.chunked (Demo.demo_extractor gen) 501 [Demo.demo_doc]
    [[Demo.chunk_a; Demo.chunk_b; Demo.chunk_c]].
Proof.
  constructor; [|constructor]. vm_compute. reflexivity.
Qed.

Lemma demo_types_nodup (gen : nat -> str -> nat -> str -> res str) :
  NoDup (DocumentRAGExtractor.extraction_types (Demo.demo_extractor gen)).
Proof. repeat constructor. simpl. tauto. Qed.

(** C5.  Let the model client raise at one call site, the one for chunk [i]
    of document [d] under category [t].  Extraction still returns its
    result, and the list of every category is made of the contributions
    that the client without that failure gives at all the other sites, in
    their order: the failing chunk adds nothing and takes nothing away. *)
Theorem extract_information_isolates_failure
        (self : DocumentRAGExtractor.extractor) (site : nat * str * nat) (e : exn)
        (fuel : nat) (docs : list DocumentRAGExtractor.doc_info)
        (chunkss : list (list str)) :
  NoDup (DocumentRAGExtractor.extraction_types self) ->
  DocumentRAGExtractor.chunked self fuel docs chunkss ->
  exists results,
    DocumentRAGExtractor.extract_information
      (DocumentRAGExtractor.fail_at self site e) fuel docs = Some (Ok results)
    /\ (forall t,
           In t (DocumentRAGExtractor.extraction_types self) ->
           dict_get t results =
           Some (VList (DocumentRAGExtractor.doc_items
                          (DocumentRAGExtractor.mask site
                             (DocumentRAGExtractor.chunk_contribution self))
                          t 0 chunkss)))
    /\ (forall d t i chunk e',
           DocumentRAGExtractor.try_chunk self d t i chunk = Raise e' ->
           DocumentRAGExtractor.chunk_contribution self d t i chunk = None).
Proof.
  intros Hnd Hch.
  destruct (extract_information_get (DocumentRAGExtractor.fail_at self site e)
              fuel docs chunkss Hnd Hch) as (results & Hrun & Hget).
  exists results. split; [exact Hrun|]. split.
  - intros t Hin. rewrite (Hget t Hin). do 2 f_equal.
    apply doc_items_ext. intros d i chunk. apply chunk_contribution_fail_at.
  - intros d t i chunk e' H. unfold DocumentRAGExtractor.chunk_contribution.
    rewrite H. now destruct (py_len chunk <? _).
Qed.

Lemma extract_information_isolates_failure_witness :
  exists results,
    DocumentRAGExtractor.extract_information
      (DocumentRAGExtractor.fail_at (Demo.demo_extractor Demo.numbering)
                                    (0%nat, s2l "products", 1%nat) OtherError)
      501 [Demo.demo_doc] = Some (Ok results)
    /\ dict_get (s2l "products") results
       = Some (VList [VStr (s2l "0"); VStr (s2l "2")]).
Proof.
  destruct (extract_information_isolates_failure
              (Demo.demo_extractor Demo.numbering)
              (0%nat, s2l "products", 1%nat) OtherError
              501 [Demo.demo_doc]
              [[Demo.chunk_a; Demo.chunk_b; Demo.chunk_c]]
              (demo_types_nodup Demo.numbering)
              (demo_chunked Demo.numbering)) as (results & Hrun & Hget & _).
  exists results. split; [exact Hrun|].
  rewrite (Hget (s2l "products") (or_introl eq_refl)).
  vm_compute. reflexivity.
Defined.

(** C6.  The list of a category in the result of extraction is the
    concatenation, document after document and within a document chunk
    after chunk, of the items that the chunks contribute to the category:
    the elements of a list value, any other truthy value as one item.
    Nothing is reordered and equal items are all kept. *)
Theorem extract_information_keeps_order
        (self : DocumentRAGExtractor.extractor) (fuel : nat)
        (docs : list DocumentRAGExtractor.doc_info) (chunkss : list (list str)) :
  NoDup (DocumentRAGExtractor.extraction_types self) ->
  DocumentRAGExtractor.chunked self fuel docs chunkss ->
  exists results,
    DocumentRAGExtractor.extract_information self fuel docs = Some (Ok results)
    /\ forall t,
        In t (DocumentRAGExtractor.extraction_types self) ->
        dict_get t results =
        Some (VList (DocumentRAGExtractor.doc_items
                       (DocumentRAGExtractor.chunk_contribution self)
                       t 0 chunkss)).
Proof. intros Hnd Hch. now apply extract_information_get. Qed.

Lemma extract_information_keeps_order_witness :
  exists results,
    DocumentRAGExtractor.extract_information
      (Demo.demo_extractor Demo.widget) 501 [Demo.demo_doc; Demo.demo_doc]
    = Some (Ok results)
    /\ dict_get (s2l "products") results
       = Some (VList (repeat (VStr (s2l "Widget")) 6)).
Proof.
  destruct (extract_information_keeps_order
              (Demo.demo_extractor Demo.widget) 501
              [Demo.demo_doc; Demo.demo_doc]
              [[Demo.chunk_a; Demo.chunk_b; Demo.chunk_c];
               [Demo.chunk_a; Demo.chunk_b; Demo.chunk_c]]
              (demo_types_nodup Demo.widget))
    as (results & Hrun & Hget).
  - constructor; [vm_compute; reflexivity|].
    constructor; [vm_compute; reflexivity|]. constructor.
  - exists results. split; [exact Hrun|].
    rewrite (Hget (s2l "products") (or_introl eq_refl)).
    vm_compute. reflexivity.
Defined.

(** * Further properties *)

(** ** The chunker *)

Lemma strip_length (s : str) : py_len (strip s) <= py_len s.
Proof.
  destruct (strip_decomp s) as (l & r & Hs & _).
  rewrite Hs at 2. unfold py_len. rewrite !length_app. lia.
Qed.

Lemma py_slice_length (s : str) (a b : Z) :
  0 <= a -> a <= b -> py_len (py_slice s a b) <= b - a.
Proof.
  intros Ha Hab. unfold py_slice, clamp_index, py_len.
  destruct (Z.ltb_spec a 0); [lia|]. destruct (Z.ltb_spec b 0); [lia|].
  rewrite length_firstn. lia.
Qed.

Section ChunkerWindowFacts.

Variables chunk_size overlap : Z.
Variable text : str.

Hypothesis overlap_nonneg : 0 <= overlap.
Hypothesis room : overlap + 199 <= chunk_size.

Lemma chunk_windows_bounds (fuel : nat) :
  forall start ws,
    0 <= start ->
    chunk_windows chunk_size overlap fuel text start = Some ws ->
    forall s e, In (s, e) ws ->
                0 <= s < py_len text
                /\ s + chunk_size - 198 <= e <= s + chunk_size.
Proof.
  induction fuel as [|fuel IH]; intros start ws H0; simpl; [discriminate|].
  destruct (Z.ltb_spec start (py_len text)) as [Hlt|Hge].
  - destruct (chunk_windows chunk_size overlap fuel text _) as [ws'|] eqn:E;
      [|discriminate].
    intros [= <-] s e [[= <- <-] | Hin].
    + pose proof (window_end_bounds chunk_size overlap text overlap_nonneg room
                    start H0 Hlt). lia.
    + eapply IH; [|exact E|exact Hin].
      pose proof (next_start_advances chunk_size overlap text overlap_nonneg room
                    start H0 Hlt) as Hn. cbv zeta in Hn. lia.
  - intros [= <-] s e [].
Qed.

Lemma chunk_windows_rebuild (fuel : nat) :
  forall start ws,
    0 <= start ->
    chunk_windows chunk_size overlap fuel text start = Some ws ->
    ChunkerNotions.rebuild overlap text ws = skipn (Z.to_nat start) text.
Proof.
  induction fuel as [|fuel IH]; intros start ws H0; simpl; [discriminate|].
  destruct (Z.ltb_spec start (py_len text)) as [Hlt|Hge].
  - destruct (chunk_windows chunk_size overlap fuel text _) as [ws'|] eqn:E;
      [|discriminate].
    intros [= <-]. simpl.
    pose proof (window_end_bounds chunk_size overlap text overlap_nonneg room
                  start H0 Hlt) as [Hlo Hhi].
    set (e := window_end chunk_size text start) in *.
    unfold next_start in E.
    destruct (Z.ltb_spec e (py_len text)) as [He|He].
    + assert (Hpos : 0 <= e - overlap) by lia.
      rewrite (IH (e - overlap) ws' Hpos E), skipn_skipn.
      replace (Z.to_nat overlap + Z.to_nat (e - overlap))%nat
        with (Z.to_nat (e - start) + Z.to_nat start)%nat by lia.
      rewrite <- skipn_skipn, py_slice_inside by lia.
      apply firstn_skipn.
    + rewrite (IH _ _ (py_len_nonneg text) E).
      rewrite (@skipn_all2 _ (Z.to_nat (py_len text)) text) by (unfold py_len; lia).
      rewrite skipn_nil, app_nil_r.
      rewrite py_slice_beyond, py_slice_inside by lia.
      apply firstn_all2. rewrite length_skipn. unfold py_len. lia.
  - intros [= <-]. simpl. symmetry. apply skipn_all2. unfold py_len in Hge. lia.
Qed.

End ChunkerWindowFacts.

(** X1.  For [0 <= overlap] and [overlap + 199 <= chunk_size] the chunker
    returns, and no chunk that it returns is longer than [chunk_size]. *)
Theorem chunk_text_chunk_bound (chunk_size overlap : Z) (text : str) :
  0 <= overlap -> overlap + 199 <= chunk_size ->
  (exists chunks, chunk_text chunk_size overlap (S (length text)) text = Some chunks)
  /\ forall fuel chunks,
      chunk_text chunk_size overlap fuel text = Some chunks ->
      forall c, In c chunks -> py_len c <= chunk_size.
Proof.
  intros Hov Hroom. split.
  - unfold chunk_text. destruct (py_len text <=? chunk_size); [eauto|].
    destruct (chunk_windows_terminates chunk_size overlap text Hov Hroom
                (S (length text)) 0) as [ws Hws]; [lia | unfold py_len; lia |].
    rewrite chunk_loop_windows, Hws. simpl. eauto.
  - intros fuel chunks. unfold chunk_text.
    destruct (Z.leb_spec (py_len text) chunk_size) as [Hshort|Hlong].
    + intros [= <-] c [<- | []]. exact Hshort.
    + rewrite chunk_loop_windows.
      destruct (chunk_windows chunk_size overlap fuel text 0) as [ws|] eqn:Hws;
        [|discriminate].
      intros [= <-] c Hc. apply chunks_of_members in Hc.
      destruct Hc as (_ & [s e] & Hin & ->). simpl.
      destruct (chunk_windows_bounds chunk_size overlap text Hov Hroom
                  fuel 0 ws (Z.le_refl 0) Hws s e Hin) as [Hs He].
      pose proof (strip_length (py_slice text s e)).
      pose proof (py_slice_length text s e). lia.
Qed.

Lemma chunk_text_chunk_bound_witness :
  py_len (repeat "a"%char 199) <= 200.
Proof.
  apply (proj2 (chunk_text_chunk_bound 200 0 (" "%char :: repeat "a"%char 250)
                  ltac:(lia) ltac:(lia)) 252%nat
           [repeat "a"%char 199; repeat "a"%char 51]).
  - vm_compute. reflexivity.
  - left. reflexivity.
Defined.

Lemma lstrip_head (s : str) (c : ascii) (r : str) :
  lstrip s = c :: r -> is_space c = false.
Proof.
  induction s as [|x s IH]; simpl; [discriminate|].
  destruct (is_space x) eqn:E; [exact IH|].
  now intros [= <- _].
Qed.

Lemma rstrip_decomp (s : str) :
  exists r, s = rstrip s ++ r /\ forallb is_space r = true.
Proof.
  destruct (lstrip_decomp (rev s)) as (l & Hl & Hsp).
  exists (rev l). split.
  - unfold rstrip. rewrite <- rev_app_distr, <- Hl. now rewrite rev_involutive.
  - rewrite forallb_forall in *. intros x Hx. apply Hsp. now apply in_rev.
Qed.

(** A stripped string that is not empty begins and ends with a character
    that is no white space. *)
Lemma strip_ends (s : str) :
  strip s <> [] ->
  is_space (hd " "%char (strip s)) = false
  /\ is_space (last (strip s) " "%char) = false.
Proof.
  intros Hne. split.
  - unfold strip in *. destruct (rstrip_decomp (lstrip s)) as (r & Hr & _).
    destruct (rstrip (lstrip s)) as [|x t] eqn:E; [congruence|].
    simpl. apply (lstrip_head s x (t ++ r)). exact Hr.
  - unfold strip, rstrip in *.
    destruct (lstrip (rev (lstrip s))) as [|x t] eqn:E; [now simpl in Hne|].
    simpl. rewrite last_last. exact (lstrip_head _ _ _ E).
Qed.

(** X2.  On a text longer than [chunk_size] every chunk that the chunker
    returns is trimmed: it is not empty and neither its first nor its last
    character is white space. *)
Theorem chunk_text_chunks_trimmed (chunk_size overlap : Z) (fuel : nat)
        (text : str) (chunks : list str) :
  chunk_size < py_len text ->
  chunk_text chunk_size overlap fuel text = Some chunks ->
  forall c, In c chunks ->
            c <> []
            /\ is_space (hd " "%char c) = false
            /\ is_space (last c " "%char) = false.
Proof.
  intros Hlong. unfold chunk_text.
  destruct (Z.leb_spec (py_len text) chunk_size); [lia|].
  rewrite chunk_loop_windows.
  destruct (chunk_windows chunk_size overlap fuel text 0) as [ws|]; [|discriminate].
  intros [= <-] c Hc. apply chunks_of_members in Hc.
  destruct Hc as (Hne & w & _ & ->). split; [exact Hne|].
  now apply strip_ends.
Qed.

Lemma chunk_text_chunks_trimmed_witness :
  repeat "a"%char 199 <> []
  /\ is_space (hd " "%char (repeat "a"%char 199)) = false
  /\ is_space (last (repeat "a"%char 199) " "%char) = false.
Proof.
  apply (chunk_text_chunks_trimmed 200 0 252 (" "%char :: repeat "a"%char 250)
           [repeat "a"%char 199; repeat "a"%char 51]).
  - vm_compute. reflexivity.
  - vm_compute. reflexivity.
  - left. reflexivity.
Defined.

(** X3.  For [0 <= overlap] and [overlap + 199 <= chunk_size] the windows of
    the loop spell the text again: the slice of the first window followed by
    the slice of every later window without its first [overlap] characters
    is the text.  The chunks of a long text are these windows, stripped. *)
Theorem chunk_windows_rebuild_text (chunk_size overlap : Z) (text : str) :
  0 <= overlap -> overlap + 199 <= chunk_size ->
  exists ws,
    chunk_windows chunk_size overlap (S (length text)) text 0 = Some ws
    /\ ChunkerNotions.rebuild overlap text ws = text
    /\ (chunk_size < py_len text ->
        chunk_text chunk_size overlap (S (length text)) text
        = Some (chunks_of text ws)).
Proof.
  intros Hov Hroom.
  destruct (chunk_windows_terminates chunk_size overlap text Hov Hroom
              (S (length text)) 0) as [ws Hws]; [lia | unfold py_len; lia |].
  exists ws. split; [exact Hws|]. split.
  - now rewrite (chunk_windows_rebuild chunk_size overlap text Hov Hroom
                   _ 0 ws (Z.le_refl 0) Hws).
  - intros Hlong. unfold chunk_text.
    destruct (Z.leb_spec (py_len text) chunk_size); [lia|].
    now rewrite chunk_loop_windows, Hws.
Qed.

Lemma chunk_windows_rebuild_text_witness :
  let text := repeat "a"%char 199 ++ "."%char :: repeat "b"%char 300 in
  exists ws,
    chunk_windows 200 1 (S (length text)) text 0 = Some ws
    /\ ChunkerNotions.rebuild 1 text ws = text.
Proof.
  cbv zeta.
  destruct (chunk_windows_rebuild_text 200 1
              (repeat "a"%char 199 ++ "."%char :: repeat "b"%char 300))
    as (ws & Hws & Hre & _); [lia | lia |].
  exists ws. now split.
Defined.

Lemma rfind_from_spec (c : ascii) (s : str) :
  forall i last,
    (rfind_from c s i last = last
     /\ forall j, (j < length s)%nat -> nth j s " "%char <> c)
    \/ (exists k, (k < length s)%nat
                  /\ rfind_from c s i last = i + Z.of_nat k
                  /\ nth k s " "%char = c
                  /\ forall j, (k < j < length s)%nat -> nth j s " "%char <> c).
Proof.
  induction s as [|x s IH]; intros i last; simpl.
  - left. split; [reflexivity | intros j Hj; lia].
  - destruct (Ascii.eqb x c) eqn:E.
    + apply Ascii.eqb_eq in E. subst x.
      destruct (IH (i + 1) i) as [[Hr Hnone] | (k & Hk & Hr & Hc & Hafter)].
      * right. exists 0%nat. repeat split; try lia.
        intros [|j] Hj; [lia|]. apply Hnone. lia.
      * right. exists (S k). repeat split; try lia; try assumption.
        intros [|j] Hj; [lia|]. apply Hafter. lia.
    + apply Ascii.eqb_neq in E.
      destruct (IH (i + 1) last) as [[Hr Hnone] | (k & Hk & Hr & Hc & Hafter)].
      * left. split; [exact Hr|]. intros [|j] Hj; [exact E|]. apply Hnone. lia.
      * right. exists (S k). repeat split; try lia; try assumption.
        intros [|j] Hj; [lia|]. apply Hafter. lia.
Qed.

(** [rfind] gives the last index that holds the character, and -1 only when
    no index holds it. *)
Lemma py_rfind_spec (c : ascii) (s : str) :
  (py_rfind c s = -1 \/ 0 <= py_rfind c s < py_len s
                        /\ nth (Z.to_nat (py_rfind c s)) s " "%char = c)
  /\ forall j, (j < length s)%nat -> nth j s " "%char = c ->
               Z.of_nat j <= py_rfind c s.
Proof.
  unfold py_rfind, py_len.
  destruct (rfind_from_spec c s 0 (-1)) as [[Hr Hnone] | (k & Hk & Hr & Hc & Hafter)].
  - split; [now left|]. intros j Hj Hjc. now apply Hnone in Hj.
  - rewrite Hr. split.
    + right. split; [lia|]. now rewrite Z.add_0_l, Nat2Z.id.
    + intros j Hj Hjc.
      destruct (Nat.le_gt_cases j k) as [Hle|Hgt]; [lia|].
      exfalso. apply (Hafter j); [lia | exact Hjc].
Qed.

Lemma is_boundary_true (c : ascii) :
  ChunkerNotions.is_boundary c = true <-> c = "."%char \/ c = nl.
Proof.
  unfold ChunkerNotions.is_boundary.
  now rewrite orb_true_iff, !Ascii.eqb_eq.
Qed.

(** The characters of a slice are those of the text. *)
Lemma py_slice_nth (text : str) (a b : Z) (j : nat) :
  0 <= a -> a <= b -> b <= py_len text -> (Z.of_nat j < b - a) ->
  nth j (py_slice text a b) " "%char = ChunkerNotions.char_at text (a + Z.of_nat j).
Proof.
  intros Ha Hab Hb Hj. rewrite py_slice_inside by assumption.
  unfold ChunkerNotions.char_at. rewrite nth_firstn.
  destruct (Nat.ltb_spec j (Z.to_nat (b - a))); [|lia].
  rewrite nth_skipn. f_equal. lia.
Qed.

(** X4.  Where a whole window of [chunk_size >= 199] characters fits before
    the end of the text, the window ends right after the last period or
    newline among its last 199 characters, and at the full [chunk_size]
    when there is none: no period or newline lies between the end taken and
    the full window, a shortened window ends with one, and a window is
    shortened by at most 198 characters. *)
Theorem window_end_boundary (chunk_size : Z) (text : str) (start : Z) :
  199 <= chunk_size -> 0 <= start -> start + chunk_size < py_len text ->
  let e := window_end chunk_size text start in
  start + chunk_size - 198 <= e <= start + chunk_size
  /\ (forall j, e <= j < start + chunk_size ->
                ChunkerNotions.is_boundary (ChunkerNotions.char_at text j) = false)
  /\ (forall j, start + chunk_size - 199 <= j < start + chunk_size ->
                ChunkerNotions.is_boundary (ChunkerNotions.char_at text j) = true ->
                j < e
                /\ ChunkerNotions.is_boundary (ChunkerNotions.char_at text (e - 1)) = true)
  /\ ((forall j, start + chunk_size - 199 <= j < start + chunk_size ->
                 ChunkerNotions.is_boundary (ChunkerNotions.char_at text j) = false) ->
      e = start + chunk_size).
Proof.
  intros Hcs H0 Hfit. cbv zeta. unfold window_end.
  destruct (Z.ltb_spec (start + chunk_size) (py_len text)); [|lia].
  set (ct := py_slice text start (start + chunk_size)).
  assert (Hlen : py_len ct = chunk_size).
  { unfold ct. rewrite py_slice_inside_len; lia. }
  assert (Hnth : forall j : nat,
             Z.of_nat j < chunk_size ->
             nth j ct " "%char = ChunkerNotions.char_at text (start + Z.of_nat j)).
  { intros j Hj. unfold ct. apply py_slice_nth; lia. }
  destruct (py_rfind_spec "." ct) as [Hp Hplast].
  destruct (py_rfind_spec nl ct) as [Hn Hnlast].
  (* no boundary character at an offset beyond the break point *)
  assert (Hbeyond : forall j,
             start + Z.max (py_rfind "." ct) (py_rfind nl ct) < j
             < start + chunk_size ->
             ChunkerNotions.is_boundary (ChunkerNotions.char_at text j) = false).
  { intros j Hj.
    destruct (ChunkerNotions.is_boundary (ChunkerNotions.char_at text j)) eqn:E;
      [|reflexivity].
    exfalso. apply is_boundary_true in E.
    assert (Hrange : -1 <= py_rfind "." ct /\ -1 <= py_rfind nl ct) by lia.
    replace j with (start + Z.of_nat (Z.to_nat (j - start))) in E by lia.
    rewrite <- Hnth in E by lia.
    destruct E as [E|E].
    + apply Hplast in E; [lia | unfold py_len in Hlen; lia].
    + apply Hnlast in E; [lia | unfold py_len in Hlen; lia]. }
  (* the break point, when there is one, holds a boundary character *)
  assert (Hhit : 0 <= Z.max (py_rfind "." ct) (py_rfind nl ct) ->
                 ChunkerNotions.is_boundary
                   (ChunkerNotions.char_at text
                      (start + Z.max (py_rfind "." ct) (py_rfind nl ct))) = true).
  { intros Hbp. apply is_boundary_true.
    destruct (Z.max_spec (py_rfind "." ct) (py_rfind nl ct))
      as [[_ Hm] | [_ Hm]]; rewrite Hm in *.
    - destruct Hn as [Hn | [Hr Hc]]; [lia|]. right.
      rewrite <- Hc at 2. rewrite Hnth by lia. f_equal. lia.
    - destruct Hp as [Hp | [Hr Hc]]; [lia|]. left.
      rewrite <- Hc at 2. rewrite Hnth by lia. f_equal. lia. }
  assert (Hmax : Z.max (py_rfind "." ct) (py_rfind nl ct) < chunk_size) by lia.
  destruct (Z.gtb_spec (Z.max (py_rfind "." ct) (py_rfind nl ct)) (chunk_size - 200))
    as [Hbreak|Hnobreak].
  - split; [lia|]. split; [|split].
    + intros j Hj. apply Hbeyond. lia.
    + intros j Hj Hb. split.
      * destruct (Z.lt_ge_cases j (start + Z.max (py_rfind "." ct) (py_rfind nl ct) + 1));
          [assumption|].
        rewrite Hbeyond in Hb by lia. discriminate.
      * replace (start + Z.max (py_rfind "." ct) (py_rfind nl ct) + 1 - 1)
          with (start + Z.max (py_rfind "." ct) (py_rfind nl ct)) by lia.
        apply Hhit. lia.
    + intros Hnone. exfalso.
      assert (Hb := Hhit ltac:(lia)).
      rewrite Hnone in Hb by lia. discriminate.
  - split; [lia|]. split; [|split].
    + intros j Hj. lia.
    + intros j Hj Hb. rewrite Hbeyond in Hb by lia. discriminate.
    + intros _. reflexivity.
Qed.

Lemma window_end_boundary_witness :
  let text := repeat "a"%char 199 ++ "."%char :: repeat "b"%char 300 in
  window_end 250 text 0 = 200
  /\ ChunkerNotions.is_boundary (ChunkerNotions.char_at text (200 - 1)) = true.
Proof.
  cbv zeta.
  assert (E : window_end 250 (repeat "a"%char 199 ++ "."%char :: repeat "b"%char 300) 0
              = 200) by (vm_compute; reflexivity).
  split; [exact E|].
  destruct (window_end_boundary 250
              (repeat "a"%char 199 ++ "."%char :: repeat "b"%char 300) 0)
    as (_ & _ & Hb & _); [lia | lia | vm_compute; reflexivity |].
  rewrite E in Hb. apply (Hb 199); [lia | vm_compute; reflexivity].
Defined.

(** ** [clean_text] *)

Lemma single_spaced_weaken (b : bool) (s : str) :
  CleanNotions.single_spaced b s = true ->
  CleanNotions.single_spaced false s = true.
Proof.
  destruct s as [|c s]; simpl; [reflexivity|].
  destruct (is_space c); [|easy].
  rewrite !andb_true_iff. intros [[_ H1] H2]. auto.
Qed.

Lemma single_spaced_app (a b : str) :
  forall p,
    CleanNotions.single_spaced p (a ++ b) = true ->
    CleanNotions.single_spaced p a = true
    /\ CleanNotions.single_spaced false b = true.
Proof.
  induction a as [|c a IH]; intros p; simpl.
  - intros H. split; [reflexivity|]. now apply single_spaced_weaken in H.
  - destruct (is_space c).
    + rewrite !andb_true_iff. intros [[H1 H2] H3].
      destruct (IH true H3) as [Ha Hb]. auto.
    + apply IH.
Qed.

Lemma collapse_spaces_single (s : str) :
  forall b,
    CleanNotions.single_spaced b (TextProcessor.collapse_spaces b s) = true.
Proof.
  induction s as [|c s IH]; intros b; simpl; [reflexivity|].
  destruct (is_space c) eqn:E.
  - destruct b; [apply IH|]. simpl. apply IH.
  - simpl. rewrite E. apply IH.
Qed.

(** In a single-spaced string every white space character is the space. *)
Lemma single_spaced_chars (s : str) :
  forall b c,
    CleanNotions.single_spaced b s = true ->
    In c s -> is_space c = true -> c = " "%char.
Proof.
  induction s as [|x s IH]; intros b c H Hin Hsp; [destruct Hin|].
  simpl in H. destruct (is_space x) eqn:E.
  - rewrite !andb_true_iff in H. destruct H as [[_ Hx] Hs].
    destruct Hin as [<- | Hin]; [now apply Ascii.eqb_eq | eauto].
  - destruct Hin as [<- | Hin]; [congruence | eauto].
Qed.

(** A replacement of a character that does not occur changes nothing. *)
Lemma replace_absent_char (x : ascii) (new s : str) :
  ~ In x s -> TextProcessor.py_replace [x] new s = s.
Proof.
  unfold TextProcessor.py_replace.
  induction s as [|c s IH]; intros Hx; simpl; [reflexivity|].
  destruct (Ascii.eqb x c) eqn:E.
  - apply Ascii.eqb_eq in E. subst. exfalso. apply Hx. now left.
  - simpl. rewrite IH; [reflexivity|]. intros H. apply Hx. now right.
Qed.

(** A replacement of a character by itself changes nothing. *)
Lemma replace_same_char (x : ascii) (s : str) :
  TextProcessor.py_replace [x] [x] s = s.
Proof.
  unfold TextProcessor.py_replace.
  induction s as [|c s IH]; simpl; [reflexivity|].
  destruct (Ascii.eqb x c) eqn:E; simpl; rewrite IH; [|reflexivity].
  apply Ascii.eqb_eq in E. now subst.
Qed.

(** A replacement by one character that is no white space keeps a string
    single-spaced. *)
Lemma replace_single_spaced (old : str) (q : ascii) (s : str) :
  is_space q = false ->
  forall k b,
    CleanNotions.single_spaced b s = true ->
    CleanNotions.single_spaced (b && Nat.eqb k 0)
      (TextProcessor.replace_from old [q] k s) = true.
Proof.
  intros Hq. induction s as [|c s IH]; intros k b H; simpl; [reflexivity|].
  assert (Htail : exists b1, CleanNotions.single_spaced b1 s = true).
  { simpl in H. destruct (is_space c); [|eauto].
    rewrite !andb_true_iff in H. destruct H as [_ H]. eauto. }
  destruct k as [|k].
  - rewrite andb_true_r.
    destruct (prefixb old (c :: s)).
    + simpl. rewrite Hq. destruct Htail as [b1 Hb1].
      apply (single_spaced_weaken (b1 && Nat.eqb (length old - 1) 0)).
      now apply IH.
    + simpl in *. destruct (is_space c).
      * rewrite !andb_true_iff in *. destruct H as [[H1 H2] H3].
        repeat split; auto. apply (IH 0%nat true H3).
      * apply (IH 0%nat false H).
  - rewrite andb_false_r. destruct Htail as [b1 Hb1].
    apply (single_spaced_weaken (b1 && Nat.eqb k 0)). now apply IH.
Qed.

(** X5.  The text that [clean_text] returns is normalised: its only white
    space characters are plain spaces, no two spaces are neighbours, and it
    neither begins nor ends with one.  The empty text stays empty. *)
Theorem clean_text_normalised (text : str) :
  let out := TextProcessor.clean_text text in
  CleanNotions.single_spaced false out = true
  /\ (forall c, In c out -> is_space c = true -> c = " "%char)
  /\ (out <> [] ->
      is_space (hd " "%char out) = false /\ is_space (last out " "%char) = false)
  /\ TextProcessor.clean_text [] = [].
Proof.
  cbv zeta.
  assert (Hss : CleanNotions.single_spaced false (TextProcessor.clean_text text) = true).
  { unfold TextProcessor.clean_text. destruct (nonempty text); [|reflexivity].
    simpl negb. cbv iota.
    pose proof (collapse_spaces_single text false) as Hc.
    set (t0 := TextProcessor.collapse_spaces false text) in *.
    assert (Hff : ~ In "012"%char t0).
    { intros Hin. now pose proof (single_spaced_chars t0 false _ Hc Hin eq_refl). }
    assert (Hcr : ~ In "013"%char t0).
    { intros Hin. now pose proof (single_spaced_chars t0 false _ Hc Hin eq_refl). }
    rewrite (replace_absent_char "012" _ t0 Hff).
    rewrite (replace_absent_char "013" _ t0 Hcr).
    rewrite !replace_same_char.
    pose proof (replace_single_spaced TextProcessor.quote_literal "'" t0 eq_refl
                  0 false Hc) as Hq.
    simpl andb in Hq. fold (TextProcessor.py_replace TextProcessor.quote_literal ["'"%char] t0) in Hq.
    destruct (strip_decomp (TextProcessor.py_replace TextProcessor.quote_literal
                              ["'"%char] t0)) as (l & r & Hdec & _).
    rewrite Hdec in Hq. apply single_spaced_app in Hq. destruct Hq as [_ Hq].
    apply single_spaced_app in Hq. tauto. }
  split; [exact Hss|]. split; [|split].
  - intros c. now apply single_spaced_chars with (b := false).
  - unfold TextProcessor.clean_text. destruct (nonempty text); simpl negb; cbv iota.
    + apply strip_ends.
    + congruence.
  - reflexivity.
Qed.

Lemma clean_text_normalised_witness :
  let out := TextProcessor.clean_text (s2l "  two 	
 words  ") in
  out = s2l "two words"
  /\ is_space (hd " "%char out) = false /\ is_space (last out " "%char) = false.
Proof.
  cbv zeta. split; [vm_compute; reflexivity|].
  apply (proj1 (proj2 (proj2 (clean_text_normalised (s2l "  two 	
 words  "))))).
  vm_compute. discriminate.
Defined.

(** ** Keyword filtering *)

Lemma lower_char_idem (c : ascii) :
  Keywords.lower_char (Keywords.lower_char c) = Keywords.lower_char c.
Proof.
  destruct c as [[] [] [] [] [] [] [] []]; reflexivity.
Qed.

Lemma lower_idem (s : str) : Keywords.lower (Keywords.lower s) = Keywords.lower s.
Proof.
  unfold Keywords.lower. rewrite map_map. apply map_ext. apply lower_char_idem.
Qed.

Lemma prefixb_nil (s : str) : prefixb [] s = true.
Proof. now destruct s. Qed.

Lemma substringb_nil (s : str) : substringb [] s = true.
Proof. destruct s; simpl; reflexivity. Qed.

(** X6.  Keyword matching ignores case: lowering the text, the keywords, or
    both does not change the answer of [extract_keywords]. *)
Theorem extract_keywords_ignores_case (text : str) (keywords : list str) :
  Keywords.extract_keywords (Keywords.lower text) keywords
  = Keywords.extract_keywords text keywords
  /\ Keywords.extract_keywords text (map Keywords.lower keywords)
     = Keywords.extract_keywords text keywords.
Proof.
  unfold Keywords.extract_keywords. split.
  - now rewrite lower_idem.
  - cbv zeta. induction keywords as [|k ks IH]; simpl; [reflexivity|].
    now rewrite lower_idem, IH.
Qed.

(** X7.  [filter_chunks_by_keywords] keeps every chunk when the keyword list
    is empty and also when it holds the empty string, which is part of
    every text; in every case the chunks kept are chunks of the input, in
    their order, and filtering a second time changes nothing. *)
Theorem filter_chunks_keeps_all (chunks : list str) (keywords : list str) :
  Keywords.filter_chunks_by_keywords chunks [] = chunks
  /\ (In [] keywords -> Keywords.filter_chunks_by_keywords chunks keywords = chunks)
  /\ Keywords.filter_chunks_by_keywords
       (Keywords.filter_chunks_by_keywords chunks keywords) keywords
     = Keywords.filter_chunks_by_keywords chunks keywords
  /\ (forall c, In c (Keywords.filter_chunks_by_keywords chunks keywords) ->
                In c chunks).
Proof.
  split; [reflexivity|]. split; [|split].
  - intros Hin. unfold Keywords.filter_chunks_by_keywords.
    destruct keywords as [|k ks]; [reflexivity|]. simpl negb. cbv iota.
    apply forallb_filter_id. apply forallb_forall. intros c _.
    unfold Keywords.extract_keywords. apply existsb_exists.
    exists []. split; [exact Hin|]. apply substringb_nil.
  - unfold Keywords.filter_chunks_by_keywords.
    destruct (negb (nonempty keywords)); [reflexivity|].
    apply forallb_filter_id. apply forallb_forall. intros c Hc.
    now apply filter_In in Hc.
  - unfold Keywords.filter_chunks_by_keywords.
    destruct (negb (nonempty keywords)); [easy|].
    intros c Hc. now apply filter_In in Hc.
Qed.

Lemma filter_chunks_keeps_all_witness :
  Keywords.filter_chunks_by_keywords [s2l "alpha"; s2l "beta"] [s2l "zzz"; []]
  = [s2l "alpha"; s2l "beta"].
Proof.
  apply (proj1 (proj2 (filter_chunks_keeps_all [s2l "alpha"; s2l "beta"]
                         [s2l "zzz"; []]))).
  right. left. reflexivity.
Defined.

(** X8.  For a keyword list that is not empty, more keywords never remove a
    chunk: what [filter_chunks_by_keywords] keeps for [keywords] it keeps
    for [keywords ++ more].  The empty list is the exception, it keeps all
    chunks. *)
Theorem filter_chunks_monotone (chunks : list str) (keywords more : list str) :
  keywords <> [] ->
  forall c,
    In c (Keywords.filter_chunks_by_keywords chunks keywords) ->
    In c (Keywords.filter_chunks_by_keywords chunks (keywords ++ more)).
Proof.
  intros Hne c. unfold Keywords.filter_chunks_by_keywords.
  destruct keywords as [|k ks]; [congruence|]. simpl negb. cbv iota.
  rewrite !filter_In. intros [Hin Hk]. split; [exact Hin|].
  unfold Keywords.extract_keywords in *. cbv zeta in *.
  rewrite existsb_app. now rewrite Hk.
Qed.

Lemma filter_chunks_monotone_witness :
  In (s2l "Alpha beta")
     (Keywords.filter_chunks_by_keywords [s2l "Alpha beta"; s2l "gamma"]
                                         ([s2l "ALPHA"] ++ [s2l "delta"])).
Proof.
  apply (filter_chunks_monotone [s2l "Alpha beta"; s2l "gamma"]
                                [s2l "ALPHA"] [s2l "delta"]).
  - discriminate.
  - vm_compute. left. reflexivity.
Defined.

(** ** The result merger, continued *)

Lemma str_eqb_comm (a b : str) : str_eqb a b = str_eqb b a.
Proof.
  destruct (str_eqb a b) eqn:E.
  - apply str_eqb_eq in E. subst. now rewrite str_eqb_refl.
  - destruct (str_eqb b a) eqn:E'; [|reflexivity].
    apply str_eqb_eq in E'. subst. now rewrite str_eqb_refl in E.
Qed.

Section DictKeys.

Context {V : Type}.

Lemma dict_mem_keys (k : str) (d : dict V) :
  dict_mem k d = existsb (str_eqb k) (map fst d).
Proof.
  unfold dict_mem. induction d as [|[k' v] d IH]; simpl; [reflexivity|].
  rewrite (str_eqb_comm k k'). destruct (str_eqb k' k); [reflexivity | exact IH].
Qed.

Lemma dict_set_absent (k : str) (v : V) (d : dict V) :
  dict_get k d = None -> dict_set k v d = d ++ [(k, v)].
Proof.
  induction d as [|[k' v'] d IH]; simpl; [reflexivity|].
  destruct (str_eqb k' k); [discriminate|]. intros H. now rewrite IH.
Qed.

Lemma dict_set_last (k : str) (v x : V) (d : dict V) :
  dict_get k d = None -> dict_set k v (d ++ [(k, x)]) = d ++ [(k, v)].
Proof.
  induction d as [|[k' v'] d IH]; simpl.
  - now rewrite str_eqb_refl.
  - destruct (str_eqb k' k); [discriminate|]. intros H. now rewrite IH.
Qed.

Lemma dict_set_keys (k : str) (v : V) (d : dict V) :
  map fst (dict_set k v d) =
  if dict_mem k d then map fst d else map fst d ++ [k].
Proof.
  unfold dict_mem. induction d as [|[k' v'] d IH]; simpl; [reflexivity|].
  destruct (str_eqb k' k) eqn:E; simpl; [reflexivity|].
  rewrite IH. now destruct (dict_get k d).
Qed.

End DictKeys.

Lemma merge_item_keys (merged : dict (list pyval)) (k : str) (v : pyval) :
  map fst (merge_item merged (k, v)) =
  if dict_mem k merged then map fst merged else map fst merged ++ [k].
Proof.
  unfold merge_item.
  set (merged1 := if dict_mem k merged then merged else dict_set k [] merged).
  assert (Hm1 : dict_mem k merged1 = true).
  { unfold merged1. destruct (dict_mem k merged) eqn:E; [exact E|].
    unfold dict_mem. now rewrite dict_get_set_same. }
  assert (Hk1 : map fst merged1 =
                if dict_mem k merged then map fst merged else map fst merged ++ [k]).
  { unfold merged1. destruct (dict_mem k merged) eqn:E; [reflexivity|].
    now rewrite dict_set_keys, E. }
  assert (Hset : forall l, map fst (dict_set k l merged1) = map fst merged1).
  { intros l. now rewrite dict_set_keys, Hm1. }
  rewrite <- Hk1.
  destruct (dict_get k merged1) as [acc|]; [|reflexivity].
  destruct v as [| b | z | s | l | d]; simpl;
    try (destruct b); try (destruct (negb (z =? 0)));
    try (destruct (nonempty s)); try (destruct (nonempty d));
    rewrite ?Hset; reflexivity.
Qed.

Lemma fold_merge_item_keys (items : list (str * pyval)) :
  forall merged,
    map fst (fold_left merge_item items merged) =
    MergeNotions.first_seen (map fst merged) (map fst items).
Proof.
  induction items as [|[k v] items IH]; intros merged; [reflexivity|].
  cbn [fold_left map fst MergeNotions.first_seen].
  rewrite IH, merge_item_keys, <- dict_mem_keys.
  now destruct (dict_mem k merged).
Qed.

Lemma first_seen_app (a b : list str) :
  forall seen,
    MergeNotions.first_seen seen (a ++ b) =
    MergeNotions.first_seen (MergeNotions.first_seen seen a) b.
Proof.
  induction a as [|k a IH]; intros seen; simpl; [reflexivity|].
  destruct (existsb (str_eqb k) seen); apply IH.
Qed.

Lemma first_seen_nodup (keys : list str) :
  forall seen, NoDup seen -> NoDup (MergeNotions.first_seen seen keys).
Proof.
  induction keys as [|k keys IH]; intros seen Hnd; simpl; [exact Hnd|].
  destruct (existsb (str_eqb k) seen) eqn:E; [now apply IH|].
  apply IH. apply NoDup_app; [exact Hnd | repeat constructor; simpl; tauto |].
  intros x Hx [-> | []].
  assert (Hin : existsb (str_eqb x) seen = true).
  { apply existsb_exists. exists x. split; [exact Hx | apply str_eqb_refl]. }
  congruence.
Qed.

Lemma merge_from_keys (results : list pyval) :
  forall merged merged',
    merge_from merged results = Ok merged' ->
    map fst merged' =
    MergeNotions.first_seen (map fst merged) (MergeNotions.all_keys results).
Proof.
  induction results as [|r results IH]; intros merged merged'; simpl.
  - now intros [= <-].
  - destruct (merge_result_get merged r) as (m1 & Hm1 & _).
    rewrite Hm1. simpl. intros H. rewrite (IH _ _ H), first_seen_app.
    f_equal. destruct r; simpl in Hm1; injection Hm1 as <-; try reflexivity.
    apply fold_merge_item_keys.
Qed.

(** X9.  The keys of the merged dictionary are distinct and stand in the
    order in which the input first shows them. *)
Theorem merge_yaml_results_key_order (results : list pyval) :
  exists merged,
    merge_yaml_results results = Ok merged
    /\ map fst merged = MergeNotions.first_seen [] (MergeNotions.all_keys results)
    /\ NoDup (map fst merged).
Proof.
  destruct (merge_from_get results []) as (merged & Hrun & _).
  exists merged. split; [exact Hrun|].
  pose proof (merge_from_keys results [] merged Hrun) as Hk. simpl in Hk.
  split; [exact Hk|]. rewrite Hk. apply first_seen_nodup. constructor.
Qed.

Lemma merged_acc_of (results : list pyval) (merged : dict (list pyval)) (key : str) :
  merge_yaml_results results = Ok merged ->
  acc_of key merged = flat_map (result_items key) results.
Proof.
  intros Hrun. destruct (merge_from_get results []) as (m & Hm & Hget).
  unfold merge_yaml_results in Hrun. rewrite Hm in Hrun. injection Hrun as <-.
  unfold acc_of at 1. rewrite Hget.
  destruct (existsb (result_has key) results) eqn:E; simpl.
  - reflexivity.
  - now rewrite (result_items_absent key results E).
Qed.

(** X10.  Merging a list of results made of two parts gives, for every key,
    the list merged from the first part followed by the list merged from the
    second part (a key that a part lacks counts as the empty list). *)
Theorem merge_yaml_results_app (a b : list pyval) :
  exists ma mb mab,
    merge_yaml_results a = Ok ma
    /\ merge_yaml_results b = Ok mb
    /\ merge_yaml_results (a ++ b) = Ok mab
    /\ forall key, acc_of key mab = acc_of key ma ++ acc_of key mb.
Proof.
  destruct (merge_from_get a []) as (ma & Ha & _).
  destruct (merge_from_get b []) as (mb & Hb & _).
  destruct (merge_from_get (a ++ b) []) as (mab & Hab & _).
  exists ma, mb, mab. repeat split; try assumption.
  intros key.
  rewrite (merged_acc_of a ma key Ha), (merged_acc_of b mb key Hb),
    (merged_acc_of (a ++ b) mab key Hab).
  apply flat_map_app.
Qed.

Lemma fold_merge_item_rebuild (m : dict (list pyval)) :
  forall acc,
    NoDup (map fst acc ++ map fst m) ->
    fold_left merge_item (map (fun kv => (fst kv, VList (snd kv))) m) acc
    = acc ++ m.
Proof.
  induction m as [|[k l] m IH]; intros acc Hnd; cbn [map fold_left fst snd].
  - now rewrite app_nil_r.
  - assert (Hk : dict_get k acc = None).
    { destruct (dict_get k acc) eqn:E; [|reflexivity]. exfalso.
      assert (Hmem : dict_mem k acc = true) by (unfold dict_mem; now rewrite E).
      rewrite dict_mem_keys in Hmem. apply existsb_exists in Hmem.
      destruct Hmem as (x & Hx & Hxk). apply str_eqb_eq in Hxk. subst x.
      simpl in Hnd. apply NoDup_remove_2 in Hnd. apply Hnd.
      apply in_or_app. now left. }
    assert (Hstep : merge_item acc (k, VList l) = acc ++ [(k, l)]).
    { unfold merge_item, dict_mem. rewrite Hk.
      rewrite dict_get_set_same, (dict_set_absent k [] acc Hk). simpl.
      now apply dict_set_last. }
    rewrite Hstep, IH.
    + now rewrite <- app_assoc.
    + rewrite map_app. simpl. rewrite <- app_assoc. exact Hnd.
Qed.

(** X11.  Merging is stable: the merged dictionary, given back to the
    merger as its only input, comes out unchanged. *)
Theorem merge_yaml_results_stable (results : list pyval) (merged : dict (list pyval)) :
  merge_yaml_results results = Ok merged ->
  merge_yaml_results [MergeNotions.as_result merged] = Ok merged.
Proof.
  intros Hrun.
  assert (Hnd : NoDup (map fst merged)).
  { rewrite (merge_from_keys results [] merged Hrun).
    apply first_seen_nodup. constructor. }
  unfold merge_yaml_results, MergeNotions.as_result. simpl.
  now rewrite (fold_merge_item_rebuild merged [] Hnd).
Qed.

Lemma merge_yaml_results_stable_witness :
  merge_yaml_results
    [MergeNotions.as_result [(s2l "x", [VStr (s2l "a"); VList []]); (s2l "y", [])]]
  = Ok [(s2l "x", [VStr (s2l "a"); VList []]); (s2l "y", [])].
Proof.
  apply (merge_yaml_results_stable
           [VDict [(s2l "x", VStr (s2l "a")); (s2l "y", VNone)];
            VDict [(s2l "x", VList [VList []])]]).
  reflexivity.
Defined.

(** ** The fallback of the parser, continued *)

Lemma split_sections_nonempty (s : str) : split_sections s <> [].
Proof.
  destruct s as [|c s]; simpl; [discriminate|].
  destruct (Ascii.eqb c nl && header_ahead s); [discriminate|].
  unfold cons_head. destruct (split_sections s); discriminate.
Qed.

Lemma join_cons (sep : ascii) (p : str) (rest : list str) :
  rest <> [] ->
  ParserNotions.join sep (p :: rest) = p ++ sep :: ParserNotions.join sep rest.
Proof. destruct rest; [congruence | reflexivity]. Qed.

Lemma join_cons_head (sep c : ascii) (parts : list str) :
  parts <> [] ->
  ParserNotions.join sep (cons_head c parts) = c :: ParserNotions.join sep parts.
Proof.
  destruct parts as [|h [|h2 t]]; [congruence | reflexivity | reflexivity].
Qed.

Lemma split_sections_join (s : str) :
  ParserNotions.join nl (split_sections s) = s.
Proof.
  induction s as [|c s IH]; simpl; [reflexivity|].
  destruct (Ascii.eqb c nl && header_ahead s) eqn:E.
  - rewrite join_cons by apply split_sections_nonempty.
    rewrite IH. simpl. apply andb_true_iff in E. destruct E as [E _].
    apply Ascii.eqb_eq in E. now subst.
  - rewrite join_cons_head by apply split_sections_nonempty. now rewrite IH.
Qed.

Lemma split_sections_headers (s : str) :
  Forall (fun section => header_ahead section = true) (tl (split_sections s)).
Proof.
  induction s as [|c s IH]; simpl; [constructor|].
  destruct (Ascii.eqb c nl && header_ahead s) eqn:E.
  - simpl. apply andb_true_iff in E. destruct E as [_ E].
    pose proof (split_sections_nonempty s) as Hne.
    pose proof (split_sections_join s) as Hj.
    destruct (split_sections s) as [|h t] eqn:Hs; [congruence|].
    constructor; [|exact IH].
    (* the first section of [s] begins as [s] does *)
    clear IH Hne. revert E. rewrite <- Hj. clear Hj Hs.
    unfold header_ahead. generalize false.
    destruct t as [|h2 t]; [simpl; auto|].
    rewrite join_cons by discriminate.
    induction h as [|x h IHh]; intros b; simpl.
    + unfold nl. simpl. now destruct b.
    + destruct (is_word x); [apply IHh | auto].
  - unfold cons_head. destruct (split_sections s); simpl in *; [constructor | exact IH].
Qed.

(** X12.  Splitting the text into sections loses nothing and cuts only at
    headers: the sections joined by newlines are the text, and every section
    after the first begins with a word followed by a colon. *)
Theorem split_sections_lossless (text : str) :
  ParserNotions.join nl (split_sections text) = text
  /\ Forall (fun section => header_ahead section = true)
            (tl (split_sections text)).
Proof. split; [apply split_sections_join | apply split_sections_headers]. Qed.

Lemma in_dict_set {V} (k : str) (v : V) (d : dict V) (kv : str * V) :
  In kv (dict_set k v d) -> (exists k', str_eqb k' k = true /\ kv = (k', v)) \/ In kv d.
Proof.
  induction d as [|[k' v'] d IH]; simpl.
  - intros [<- | []]. left. exists k. split; [apply str_eqb_refl | reflexivity].
  - destruct (str_eqb k' k) eqn:E; simpl.
    + intros [<- | H]; [left; eauto | right; now right].
    + intros [<- | H]; [right; now left|].
      destruct (IH H) as [Hl | Hr]; [now left | right; now right].
Qed.

Lemma dict_set_nodup {V} (k : str) (v : V) (d : dict V) :
  NoDup (map fst d) -> NoDup (map fst (dict_set k v d)).
Proof.
  intros Hnd. rewrite dict_set_keys. destruct (dict_mem k d) eqn:E; [exact Hnd|].
  apply NoDup_app; [exact Hnd | repeat constructor; simpl; tauto |].
  intros x Hx [-> | []]. rewrite dict_mem_keys in E.
  assert (Hin : existsb (str_eqb x) (map fst d) = true).
  { apply existsb_exists. exists x. split; [exact Hx | apply str_eqb_refl]. }
  congruence.
Qed.

Lemma split_lines_no_newline (s : str) :
  forall line, In line (split_lines s) -> ~ In nl line.
Proof.
  induction s as [|c s IH]; simpl.
  - intros line [<- | []]. tauto.
  - destruct (Ascii.eqb c nl) eqn:E.
    + intros line [<- | H]; [tauto | now apply IH].
    + unfold cons_head. destruct (split_lines s) as [|h t] eqn:Hs.
      * intros line [<- | []] [Hc | []].
        rewrite Hc, Ascii.eqb_refl in E. discriminate.
      * intros line [<- | H].
        -- intros [Hc | Hin].
           ++ rewrite Hc, Ascii.eqb_refl in E. discriminate.
           ++ apply (IH h); [now left | exact Hin].
        -- apply IH. now right.
Qed.

Lemma in_join (sep : ascii) (parts : list str) (p : str) (c : ascii) :
  In p parts -> In c p -> In c (ParserNotions.join sep parts).
Proof.
  induction parts as [|q parts IH]; [intros []|].
  intros Hin Hc. destruct parts as [|q2 parts].
  - destruct Hin as [<- | []]. exact Hc.
  - rewrite join_cons by discriminate. apply in_or_app.
    destruct Hin as [<- | Hin]; [now left|].
    right. right. now apply IH.
Qed.

(** An entry of the fallback's result is the entry of some section. *)
Lemma extract_entries_from_sections (sections : list str) :
  forall result kv,
    In kv (fold_left add_section sections result) ->
    In kv result \/ exists section, In section sections
                                    /\ section_entry section = Some kv.
Proof.
  induction sections as [|section sections IH]; intros result kv; simpl;
    [now left|].
  intros H. destruct (IH _ _ H) as [Hin | (s & Hs & He)].
  - unfold add_section in Hin.
    destruct (section_entry section) as [[header content]|] eqn:E; [|now left].
    apply in_dict_set in Hin. destruct Hin as [(k' & Hk & ->) | Hin]; [|now left].
    apply str_eqb_eq in Hk. subst k'. right. exists section. split; [now left | exact E].
  - right. exists s. split; [now right | exact He].
Qed.

Lemma fold_add_section_nodup (sections : list str) :
  forall result,
    NoDup (map fst result) ->
    NoDup (map fst (fold_left add_section sections result)).
Proof.
  induction sections as [|section sections IH]; intros result Hnd; simpl;
    [exact Hnd|].
  apply IH. unfold add_section.
  destruct (section_entry section) as [[header content]|]; [|exact Hnd].
  now apply dict_set_nodup.
Qed.

(** X13.  In the fallback's result the keys are distinct and hold no colon,
    no list is empty, and every element of a list is a trimmed line: not
    empty, without a newline, with no white space at either end and not
    beginning with [#].  A text without a colon gives the empty result. *)
Theorem extract_structured_data_invariants (text : str) :
  NoDup (map fst (_extract_structured_data text))
  /\ (forall key content,
         In (key, content) (_extract_structured_data text) ->
         has_colon key = false
         /\ content <> []
         /\ forall x, In x content ->
                      x <> []
                      /\ is_space (hd " "%char x) = false
                      /\ is_space (last x " "%char) = false
                      /\ starts_with_hash x = false
                      /\ ~ In nl x)
  /\ (has_colon text = false -> _extract_structured_data text = []).
Proof.
  unfold _extract_structured_data. split; [|split].
  - apply fold_add_section_nodup. constructor.
  - intros key content Hin.
    apply extract_entries_from_sections in Hin.
    destruct Hin as [[] | (section & _ & He)].
    unfold section_entry in He. destruct (has_colon section); [|discriminate].
    destruct (split_lines (strip section)) as [|line0 rest] eqn:Hl; [discriminate|].
    destruct (section_content rest) as [|x0 c0] eqn:Hc; [discriminate|].
    injection He as <- <-.
    split; [apply header_has_no_colon|]. split; [discriminate|].
    intros x Hx. rewrite <- Hc in Hx. apply section_content_members in Hx.
    destruct Hx as (Hne & Hhash & line & Hline & ->).
    destruct (strip_ends line Hne) as [Hhd Hlast].
    repeat split; try assumption.
    intros Hnl. apply strip_incl in Hnl.
    apply (split_lines_no_newline (strip section) line); [|exact Hnl].
    rewrite Hl. now right.
  - intros Hnc.
    assert (Hall : forall sections result,
               (forall section, In section sections -> has_colon section = false) ->
               fold_left add_section sections result = result).
    { induction sections as [|s ss IH]; intros result Hs; simpl; [reflexivity|].
      unfold add_section at 2. unfold section_entry.
      rewrite (Hs s (or_introl eq_refl)). apply IH. intros s' Hs'. apply Hs. now right. }
    apply Hall. intros section Hsec. apply has_colon_false. intros Hc.
    apply has_colon_false in Hnc. apply Hnc.
    rewrite <- (split_sections_join text). now apply (in_join nl _ section).
Qed.

Lemma extract_structured_data_invariants_witness :
  _extract_structured_data (s2l "no structure here") = [].
Proof.
  apply (proj2 (proj2 (extract_structured_data_invariants (s2l "no structure here")))).
  reflexivity.
Defined.

(** ** The fenced block *)

Lemma prefixb_close_fence_app (body rest : str) :
  body <> [] ->
  prefixb close_fence body = false ->
  prefixb close_fence (body ++ close_fence ++ rest) = false.
Proof.
  intros Hne Hp. unfold close_fence, fence, s2l in *.
  cbn [list_ascii_of_string] in *.
  destruct body as [|c1 [|c2 [|c3 [|c4 body]]]]; [congruence| | | |];
    cbn [prefixb app] in *.
  - destruct (Ascii.eqb nl c1); reflexivity.
  - destruct (Ascii.eqb nl c1), (Ascii.eqb "`" c2); reflexivity.
  - destruct (Ascii.eqb nl c1), (Ascii.eqb "`" c2), (Ascii.eqb "`" c3); reflexivity.
  - exact Hp.
Qed.

Lemma find_close_app (body rest : str) :
  substringb close_fence body = false ->
  find_close (body ++ close_fence ++ rest) = Some body.
Proof.
  induction body as [|c body IH]; intros Hs.
  - reflexivity.
  - simpl in Hs. apply orb_false_iff in Hs. destruct Hs as [Hp Hs].
    change (find_close ((c :: body) ++ close_fence ++ rest))
      with (if prefixb close_fence ((c :: body) ++ close_fence ++ rest)
            then Some []
            else match find_close (body ++ close_fence ++ rest) with
                 | Some g => Some (c :: g)
                 | None => None
                 end).
    rewrite prefixb_close_fence_app by (discriminate || exact Hp).
    now rewrite (IH Hs).
Qed.

Lemma ws_newline_body_fenced (body rest : str) :
  is_space (hd " "%char body) = false ->
  substringb close_fence body = false ->
  ws_newline_body (nl :: body ++ close_fence ++ rest) = Some body.
Proof.
  intros Hhd Hs.
  destruct body as [|b0 body]; [discriminate Hhd|].
  change (ws_newline_body (nl :: (b0 :: body) ++ close_fence ++ rest))
    with (match ws_newline_body ((b0 :: body) ++ close_fence ++ rest) with
          | Some g => Some g
          | None => find_close ((b0 :: body) ++ close_fence ++ rest)
          end).
  simpl in Hhd. simpl ws_newline_body at 1. rewrite Hhd.
  now apply find_close_app.
Qed.

Lemma char_ci_cases (lower upper c : ascii) :
  char_ci lower upper c = true -> c = lower \/ c = upper.
Proof.
  unfold char_ci. rewrite orb_true_iff, !Ascii.eqb_eq. tauto.
Qed.

Lemma match_fence_here_fence (s : str) :
  match_fence_here (fence ++ s) =
  match s with
  | y :: s1 =>
      if char_ci "y" "Y" y then
        match s1 with
        | a :: s2 =>
            if char_ci "a" "A" a then
              match ml_body s2 with
              | Some g => Some g
              | None => ml_body s1
              end
            else ml_body s1
        | [] => None
        end
      else None
  | [] => None
  end.
Proof. reflexivity. Qed.

Lemma match_fence_here_fenced (tag body rest : str) :
  ParserNotions.yaml_tag tag = true ->
  is_space (hd " "%char body) = false ->
  substringb close_fence body = false ->
  match_fence_here (fence ++ tag ++ nl :: body ++ close_fence ++ rest) = Some body.
Proof.
  intros Htag Hhd Hs.
  pose proof (ws_newline_body_fenced body rest Hhd Hs) as Hws.
  rewrite match_fence_here_fence.
  unfold ParserNotions.yaml_tag in Htag.
  destruct tag as [|y [|c2 [|c3 [|c4 [|c5 tag]]]]]; try discriminate;
    cbn [app].
  - (* yml *)
    rewrite !andb_true_iff in Htag. destruct Htag as [[Hy Hm] Hl].
    rewrite Hy.
    assert (Ha : char_ci "a" "A" c2 = false).
    { destruct (char_ci_cases _ _ _ Hm) as [-> | ->]; reflexivity. }
    rewrite Ha. unfold ml_body. now rewrite Hm, Hl.
  - (* yaml *)
    rewrite !andb_true_iff in Htag. destruct Htag as [[[Hy Ha] Hm] Hl].
    rewrite Hy, Ha. unfold ml_body at 1. now rewrite Hm, Hl, Hws.
Qed.

Lemma match_fence_here_other (c : ascii) (s : str) :
  Ascii.eqb "`" c = false -> match_fence_here (c :: s) = None.
Proof.
  intros Hc. unfold match_fence_here, fence, s2l.
  cbn [list_ascii_of_string prefixb]. now rewrite Hc.
Qed.

Lemma search_yaml_block_skip (pre s : str) :
  ~ In "`"%char pre ->
  search_yaml_block (pre ++ s) = search_yaml_block s.
Proof.
  induction pre as [|c pre IH]; intros Hno; [reflexivity|].
  assert (Hc : Ascii.eqb "`" c = false).
  { apply Ascii.eqb_neq. intros E. apply Hno. now left. }
  change (search_yaml_block ((c :: pre) ++ s))
    with (match match_fence_here (c :: pre ++ s) with
          | Some g => Some g
          | None => search_yaml_block (pre ++ s)
          end).
  rewrite (match_fence_here_other c (pre ++ s) Hc).
  apply IH. intros H. apply Hno. now right.
Qed.

Lemma search_yaml_block_head (s g : str) :
  match_fence_here s = Some g -> search_yaml_block s = Some g.
Proof.
  intros H. destruct s; cbn [search_yaml_block]; now rewrite H.
Qed.

(** X14.  A reply that holds a fenced block gives the body of the block to
    the YAML reader: after a text without a backquote, a fence tagged [yaml]
    or [yml] in any case, a newline, a body that begins with a character
    other than white space and holds no closing fence, and the closing
    fence on a line of its own, the text parsed is exactly the body,
    whatever follows. *)
Theorem yaml_text_of_fenced (pre tag body post : str) :
  ~ In "`"%char pre ->
  ParserNotions.yaml_tag tag = true ->
  is_space (hd " "%char body) = false ->
  substringb close_fence body = false ->
  search_yaml_block (ParserNotions.fenced pre tag body post) = Some body
  /\ yaml_text_of (ParserNotions.fenced pre tag body post) = body.
Proof.
  intros Hpre Htag Hhd Hs.
  assert (E : search_yaml_block (ParserNotions.fenced pre tag body post) = Some body).
  { unfold ParserNotions.fenced. rewrite search_yaml_block_skip by exact Hpre.
    apply search_yaml_block_head.
    now apply match_fence_here_fenced. }
  split; [exact E|]. unfold yaml_text_of. now rewrite E.
Qed.

Lemma yaml_text_of_fenced_witness :
  yaml_text_of (s2l "Here is the result:
```YAML
products:
  - Widget
```
Anything else?") = s2l "products:
  - Widget".
Proof.
  apply (proj2 (yaml_text_of_fenced (s2l "Here is the result:
") (s2l "YAML") (s2l "products:
  - Widget") (s2l "
Anything else?") ltac:(vm_compute; intuition discriminate)
     eq_refl eq_refl eq_refl)).
Defined.

Lemma match_fence_here_tagged (s g : str) :
  match_fence_here s = Some g ->
  prefixb (fence ++ ["y"%char]) s = true \/ prefixb (fence ++ ["Y"%char]) s = true.
Proof.
  unfold match_fence_here.
  destruct (prefixb fence s) eqn:Hf; [|discriminate].
  destruct s as [|c1 [|c2 [|c3 s]]];
    try (cbn [skipn]; discriminate).
  unfold fence, s2l in *. cbn [list_ascii_of_string prefixb app skipn] in *.
  rewrite !andb_true_iff in Hf. destruct Hf as (H1 & H2 & H3 & _).
  rewrite H1, H2, H3. cbn [andb].
  destruct s as [|y s]; [discriminate|].
  destruct (char_ci "y" "Y" y) eqn:Hy; [|discriminate].
  intros _. destruct (char_ci_cases _ _ _ Hy) as [-> | ->]; [left | right];
    cbn [prefixb]; now destruct s.
Qed.

Lemma search_yaml_block_none (s : str) :
  substringb (fence ++ ["y"%char]) s = false ->
  substringb (fence ++ ["Y"%char]) s = false ->
  search_yaml_block s = None.
Proof.
  induction s as [|c s IH]; intros Hy HY.
  - reflexivity.
  - cbn [substringb] in Hy, HY.
    apply orb_false_iff in Hy. apply orb_false_iff in HY.
    destruct Hy as [Hy1 Hy2]. destruct HY as [HY1 HY2].
    cbn [search_yaml_block].
    destruct (match_fence_here (c :: s)) as [g|] eqn:E; [|now apply IH].
    apply match_fence_here_tagged in E. destruct E; congruence.
Qed.

(** X15.  A reply in which no fence is followed by the letter [y] (in
    particular a reply without a fence, or with an untagged one) has no
    fenced block: the whole reply, trimmed, goes to the YAML reader. *)
Theorem yaml_text_of_unfenced (text : str) :
  substringb (fence ++ ["y"%char]) text = false ->
  substringb (fence ++ ["Y"%char]) text = false ->
  search_yaml_block text = None /\ yaml_text_of text = strip text.
Proof.
  intros Hy HY. pose proof (search_yaml_block_none text Hy HY) as E.
  split; [exact E|]. unfold yaml_text_of. now rewrite E.
Qed.

Lemma yaml_text_of_unfenced_witness :
  yaml_text_of (s2l "
```
products: none
```
") = s2l "```
products: none
```".
Proof.
  apply (proj2 (yaml_text_of_unfenced (s2l "
```
products: none
```
") eq_refl eq_refl)).
Defined.

(** ** The orchestrator, continued *)

(** X16.  A chunk contributes the value [v] to a category exactly when it
    is long enough, the prompt is formatted, the model answers, and the
    parsed answer is a mapping that holds the category with value [v].  An
    answer parsed as a string, a list or a number contributes nothing. *)
Theorem chunk_contribution_some (self : DocumentRAGExtractor.extractor)
        (d : nat) (t : str) (i : nat) (chunk : str) (v : pyval) :
  DocumentRAGExtractor.chunk_contribution self d t i chunk = Some v
  <-> DocumentRAGExtractor.min_chunk_length self <= py_len chunk
      /\ exists prompt response dct,
          DocumentRAGExtractor.format_prompt self t chunk = Ok prompt
          /\ DocumentRAGExtractor.generate self d t i prompt = Ok response
          /\ parse_yaml_from_text (DocumentRAGExtractor.safe_load self) response
             = Ok (VDict dct)
          /\ dict_get t dct = Some v.
Proof.
  unfold DocumentRAGExtractor.chunk_contribution, DocumentRAGExtractor.try_chunk.
  split.
  - destruct (Z.ltb_spec (py_len chunk) (DocumentRAGExtractor.min_chunk_length self))
      as [Hshort|Hlong]; [discriminate|].
    destruct (DocumentRAGExtractor.format_prompt self t chunk) as [prompt|];
      [|discriminate]. cbn [bind].
    destruct (DocumentRAGExtractor.generate self d t i prompt) as [response|] eqn:Hg;
      [|discriminate]. cbn [bind].
    destruct (parse_yaml_from_text _ response) as [parsed|] eqn:Hp; [|discriminate].
    cbn [bind]. intros H. split; [lia|]. exists prompt, response.
    destruct parsed as [| b | z | s | l | dct]; cbn [truthy] in H;
      try discriminate;
      try (destruct b; discriminate);
      try (destruct (negb (z =? 0)); discriminate).
    + destruct (nonempty s); [|discriminate]. cbn [py_contains bind] in H.
      destruct (substringb t s); discriminate.
    + destruct (nonempty l); [|discriminate]. cbn [py_contains bind] in H.
      destruct (existsb _ l); discriminate.
    + exists dct. destruct (nonempty dct); [|discriminate].
      cbn [py_contains bind py_getitem] in H. unfold dict_mem in H.
      destruct (dict_get t dct) as [x|]; [|discriminate].
      cbn [bind] in H. injection H as <-. auto.
  - intros (Hlen & prompt & response & dct & -> & Hg & Hp & Hv).
    destruct (Z.ltb_spec (py_len chunk) (DocumentRAGExtractor.min_chunk_length self));
      [lia|].
    cbn [bind]. rewrite Hg. cbn [bind]. rewrite Hp. cbn [bind truthy].
    assert (Hne : nonempty dct = true) by (destruct dct; [discriminate | reflexivity]).
    rewrite Hne. cbn [py_contains bind py_getitem]. unfold dict_mem.
    now rewrite Hv.
Qed.

Lemma merge_type_results_frame (self : DocumentRAGExtractor.extractor)
      (results results' : dict pyval) (t : str) (type_results : list pyval) :
  DocumentRAGExtractor.merge_type_results results t type_results = Ok results' ->
  map fst results' = map fst results
  /\ forall key, str_eqb t key = false -> dict_get key results' = dict_get key results.
Proof.
  unfold DocumentRAGExtractor.merge_type_results.
  destruct (nonempty type_results); [|now intros [= <-]].
  destruct (merge_yaml_results _) as [merged|]; [|discriminate]. cbn [bind].
  destruct (dict_mem t merged); [|now intros [= <-]].
  destruct (dict_lookup t merged) as [items|]; [|discriminate]. cbn [bind].
  unfold dict_lookup. destruct (dict_get t results) as [current|] eqn:Hcur;
    [|discriminate]. cbn [bind].
  destruct (DocumentRAGExtractor.py_extend current items) as [extended|];
    [|discriminate]. cbn [bind]. intros [= <-]. split.
  - rewrite dict_set_keys. unfold dict_mem. now rewrite Hcur.
  - intros key Hne. now apply dict_get_set_other.
Qed.

Lemma extract_types_frame (self : DocumentRAGExtractor.extractor) (d : nat)
      (chunks : list str) (types : list str) :
  forall results results',
    DocumentRAGExtractor.extract_types self d chunks types results = Ok results' ->
    map fst results' = map fst results
    /\ forall key, ~ In key types -> dict_get key results' = dict_get key results.
Proof.
  induction types as [|t types IH]; intros results results'; simpl.
  - intros [= <-]. auto.
  - destruct (DocumentRAGExtractor.merge_type_results results t _) as [r1|] eqn:E;
      [|discriminate]. cbn [bind]. intros H.
    destruct (merge_type_results_frame self _ _ _ _ E) as [Hk1 Hg1].
    destruct (IH _ _ H) as [Hk2 Hg2]. split; [congruence|].
    intros key Hnot. rewrite Hg2 by tauto. apply Hg1.
    destruct (str_eqb t key) eqn:Et; [|reflexivity].
    apply str_eqb_eq in Et. subst. tauto.
Qed.

Lemma extract_docs_frame (self : DocumentRAGExtractor.extractor) (fuel : nat)
      (docs : list DocumentRAGExtractor.doc_info) :
  forall d results results',
    DocumentRAGExtractor.extract_docs self fuel d docs results = Some (Ok results') ->
    map fst results' = map fst results
    /\ forall key, ~ In key (DocumentRAGExtractor.extraction_types self) ->
                   dict_get key results' = dict_get key results.
Proof.
  induction docs as [|doc docs IH]; intros d results results'; simpl.
  - intros [= <-]. auto.
  - destruct (TextProcessor.chunk_text _ _ fuel _) as [chunks|]; [|discriminate].
    destruct (DocumentRAGExtractor.extract_types self d chunks _ results)
      as [r1|] eqn:E; [|discriminate].
    intros H. destruct (extract_types_frame self _ _ _ _ _ E) as [Hk1 Hg1].
    destruct (IH _ _ _ H) as [Hk2 Hg2]. split; [congruence|].
    intros key Hnot. now rewrite Hg2, Hg1.
Qed.

Lemma fold_dict_set_keys {V} (x : V) (types : list str) :
  forall d : dict V,
    map fst (fold_left (fun results t => dict_set t x results) types d)
    = MergeNotions.first_seen (map fst d) types.
Proof.
  induction types as [|t types IH]; intros d; simpl; [reflexivity|].
  rewrite IH, dict_set_keys, <- dict_mem_keys. now destruct (dict_mem t d).
Qed.

Lemma fold_dict_set_other {V} (x : V) (types : list str) (key : str) :
  ~ In key types ->
  forall d : dict V,
    dict_get key (fold_left (fun results t => dict_set t x results) types d)
    = dict_get key d.
Proof.
  intros Hnot. induction types as [|t types IH]; intros d; simpl; [reflexivity|].
  rewrite IH by (intros H; apply Hnot; now right).
  apply dict_get_set_other. destruct (str_eqb t key) eqn:E; [|reflexivity].
  apply str_eqb_eq in E. subst. exfalso. apply Hnot. now left.
Qed.

Lemma first_seen_fresh (keys : list str) :
  forall seen,
    NoDup keys -> (forall k, In k keys -> ~ In k seen) ->
    MergeNotions.first_seen seen keys = seen ++ keys.
Proof.
  induction keys as [|k keys IH]; intros seen Hnd Hfresh; simpl.
  - now rewrite app_nil_r.
  - inversion Hnd as [|? ? Hk Hnd']; subst.
    assert (E : existsb (str_eqb k) seen = false).
    { destruct (existsb (str_eqb k) seen) eqn:E; [|reflexivity]. exfalso.
      apply existsb_exists in E. destruct E as (x & Hx & Hxk).
      apply str_eqb_eq in Hxk. subst x. apply (Hfresh k); [now left | exact Hx]. }
    rewrite E, IH; [now rewrite <- app_assoc | exact Hnd' |].
    intros k' Hk' Hin. apply in_app_or in Hin. destruct Hin as [Hin | [<- | []]].
    + apply (Hfresh k'); [now right | exact Hin].
    + contradiction.
Qed.

(** X17.  When no category is named [extraction_metadata], the result of
    extraction has exactly the keys [extraction_metadata] and the categories
    in the order of the schema, and its metadata entry is the one made at
    the start: time stamp, model, number of documents and category list. *)
Theorem extract_information_shape
        (self : DocumentRAGExtractor.extractor) (fuel : nat)
        (docs : list DocumentRAGExtractor.doc_info) (chunkss : list (list str)) :
  NoDup (DocumentRAGExtractor.extraction_types self) ->
  DocumentRAGExtractor.chunked self fuel docs chunkss ->
  ~ In (s2l "extraction_metadata") (DocumentRAGExtractor.extraction_types self) ->
  exists results,
    DocumentRAGExtractor.extract_information self fuel docs = Some (Ok results)
    /\ map fst results
       = s2l "extraction_metadata" :: DocumentRAGExtractor.extraction_types self
    /\ dict_get (s2l "extraction_metadata") results
       = Some (DocumentRAGExtractor.extraction_metadata self docs).
Proof.
  intros Hnd Hch Hmeta.
  destruct (extract_information_get self fuel docs chunkss Hnd Hch)
    as (results & Hrun & _).
  exists results. split; [exact Hrun|].
  unfold DocumentRAGExtractor.extract_information in Hrun.
  destruct (extract_docs_frame self fuel docs _ _ _ Hrun) as [Hk Hg].
  unfold DocumentRAGExtractor.initial_results in *. split.
  - rewrite Hk, fold_dict_set_keys. simpl map.
    rewrite first_seen_fresh; [reflexivity | exact Hnd |].
    intros k Hin [<- | []]. contradiction.
  - rewrite (Hg _ Hmeta), fold_dict_set_other by exact Hmeta.
    reflexivity.
Qed.

Lemma extract_information_shape_witness :
  exists results,
    DocumentRAGExtractor.extract_information
      (Demo.demo_extractor Demo.widget) 501 [Demo.demo_doc] = Some (Ok results)
    /\ map fst results = [s2l "extraction_metadata"; s2l "products"].
Proof.
  destruct (extract_information_shape (Demo.demo_extractor Demo.widget) 501
              [Demo.demo_doc] [[Demo.chunk_a; Demo.chunk_b; Demo.chunk_c]]
              (demo_types_nodup Demo.widget) (demo_chunked Demo.widget))
    as (results & Hrun & Hkeys & _).
  - simpl. intros [H | []]. discriminate.
  - exists results. split; [exact Hrun | exact Hkeys].
Defined.

(** ** Construction and the run *)



Ltac bind_inv H :=
  repeat match type of H with
         | bind ?m _ = Ok _ =>
             let E := fresh "E" in
             destruct m eqn:E; simpl in H; [|discriminate H]
         end.

Lemma load_config_ok (file : option (res pyval)) (config : pyval) :
  ConfigManager.load_config file = Ok config ->
  file = Some (Ok config) /\ ConfigManager._validate_config config = Ok tt.
Proof.
  unfold ConfigManager.load_config.
  destruct file as [[c|]|]; simpl; try discriminate.
  destruct (ConfigManager._validate_config c) as [[]|] eqn:Hv; simpl;
    [|discriminate].
  now intros [= <-].
Qed.

(** What the constructor has done when it returns. *)
Lemma init_inv (w : Run.world) (arg : option str) (self : Run.instance) :
  Run.init w arg = Ok self ->
  exists model_config,
    ConfigManager.load_config (Run.config_file w) = Ok (Run.config self)
    /\ PromptsManager.load_prompts (Run.prompts_file w) = Ok (Run.prompts self)
    /\ ConfigManager.get_general_config (Run.config self)
       = Ok (Run.general_config self)
    /\ ConfigManager.get_processing_config (Run.config self)
       = Ok (Run.processing_config self)
    /\ py_get (Run.general_config self) (s2l "chunk_size") (VInt 2000)
       = Ok (Run.text_chunk_size self)
    /\ py_get (Run.general_config self) (s2l "overlap") (VInt 200)
       = Ok (Run.text_overlap self)
    /\ ConfigManager.model_type_or_default (Run.config self) (Run.arg_value arg)
       = Ok (VStr (Run.self_model_type self))
    /\ ConfigManager.get_model_config (Run.config self)
                                      (VStr (Run.self_model_type self))
       = Ok model_config
    /\ LLMFactory.create_llm (Run.openai_available w) (Run.openai_api_key w)
                             model_config (Run.self_model_type self) = Ok tt
    /\ Run._initialize_processors w = Ok (Run.processors self)
    /\ Run.env self = w.
Proof.
  unfold Run.init. intros H.
  destruct (ConfigManager.load_config (Run.config_file w)) as [config|] eqn:Hload;
    simpl in H; [|discriminate].
  bind_inv H.
  match type of H with
  | match ?v with _ => _ end = _ => destruct v; try discriminate H
  end.
  bind_inv H. injection H as <-. cbn.
  match goal with
  | Hc : LLMFactory.create_llm _ _ ?mc _ = Ok ?u |- _ => exists mc; destruct u
  end.
  repeat split; assumption.
Qed.

(** *** The loops on an instance are those on the typed extractor *)



Section TypedInstance.

Variable self : Run.instance.
Variables chunk_size overlap min_chunk_length max_file_size_mb : Z.
Variable types : list str.

Let typed : DocumentRAGExtractor.extractor :=
  Run.typed self chunk_size overlap min_chunk_length max_file_size_mb types.

Hypothesis Hsize : Run.as_int (Run.text_chunk_size self) = Ok chunk_size.
Hypothesis Hoverlap : Run.as_int (Run.text_overlap self) = Ok overlap.
Hypothesis Hmin : Run.min_chunk_length_operand self = Ok min_chunk_length.




Hypothesis Htypes : Run.schema_types self = Ok types.


End TypedInstance.

(** *** Ingestion *)

Lemma ingest_file_total (self : Run.instance) (t : str) (f : Run.file_entry)
      (acc : list DocumentRAGExtractor.doc_info) :
  is_dict (Run.processing_config self) = true ->
  exists out, Run.ingest_file self t f acc = Ok out.
Proof.
  intros Hd. unfold Run.ingest_file, py_get.
  destruct (Run.processing_config self) as [| | | | |p]; try discriminate.
  destruct (dict_get _ p); cbn [bind];
    (destruct (negb _); [eauto|]);
    destruct (Run.try_file self t f) as [[doc|]|]; eauto.
Qed.

Lemma ingest_files_total (self : Run.instance) (t : str)
      (files : list Run.file_entry) :
  is_dict (Run.processing_config self) = true ->
  forall acc, exists out, Run.ingest_files self t files acc = Ok out.
Proof.
  intros Hd. induction files as [|f files IH]; intros acc; simpl; [eauto|].
  destruct (ingest_file_total self t f acc Hd) as (out & ->). cbn [bind].
  apply IH.
Qed.

Lemma ingest_types_total (self : Run.instance)
      (files_by_type : dict (list Run.file_entry)) :
  is_dict (Run.processing_config self) = true ->
  forall acc, exists out, Run.ingest_types self files_by_type acc = Ok out.
Proof.
  intros Hd. induction files_by_type as [|[t files] rest IH]; intros acc; simpl;
    [eauto|].
  destruct (ingest_files_total self t files Hd acc) as (out & ->). cbn [bind].
  apply IH.
Qed.

Lemma ingest_files_no_mapping (self : Run.instance) (t : str)
      (files : list Run.file_entry)
      (acc : list DocumentRAGExtractor.doc_info) :
  is_dict (Run.processing_config self) = false ->
  Run.ingest_files self t files acc
  = if nonempty files then Raise AttributeError else Ok acc.
Proof.
  intros Hd. destruct files as [|f files]; [reflexivity|].
  cbn [Run.ingest_files nonempty]. unfold Run.ingest_file, py_get.
  now destruct (Run.processing_config self).
Qed.

Lemma ingest_types_no_mapping (self : Run.instance)
      (files_by_type : dict (list Run.file_entry)) :
  is_dict (Run.processing_config self) = false ->
  forall acc,
    Run.ingest_types self files_by_type acc
    = if nonempty (flat_map snd files_by_type) then Raise AttributeError
      else Ok acc.
Proof.
  intros Hd. induction files_by_type as [|[t files] rest IH]; intros acc;
    [reflexivity|].
  cbn [Run.ingest_types flat_map snd].
  rewrite ingest_files_no_mapping by exact Hd.
  destruct files as [|f files]; [|reflexivity].
  cbn [nonempty bind app]. apply IH.
Qed.


(** *** The summary *)








(** ** Configuration *)



(** ** Construction *)

Lemma create_llm_ok (av key : bool) (model_config : pyval) (m : str) :
  LLMFactory.create_llm av key model_config m = Ok tt ->
  m = s2l "ollama" \/ (m = s2l "openai" /\ av = true /\ key = true).
Proof.
  unfold LLMFactory.create_llm.
  destruct (str_eqb m (s2l "ollama")) eqn:Eo.
  - intros _. left. now apply str_eqb_eq.
  - destruct (str_eqb m (s2l "openai")) eqn:Ea; [|discriminate].
    intros H. right. split; [now apply str_eqb_eq|].
    bind_inv H. unfold LLMFactory.OpenAIInterface in H.
    destruct av; [|discriminate]. destruct key; [auto | discriminate].
Qed.

Lemma initialize_processors_keys (w : Run.world) (keys : list str) :
  Run._initialize_processors w = Ok keys ->
  forall t, In t keys <->
            (t = s2l "pdf" /\ Run.pdf_available w = true)
            \/ (t = s2l "docx" /\ Run.docx_available w = true)
            \/ (t = s2l "image" /\ Run.image_init w = Ok tt).
Proof.
  unfold Run._initialize_processors, Run.init_image.
  destruct (Run.image_init w) as [[]|e]; [|destruct e; try discriminate];
    cbn [bind]; intros [= <-] t;
    destruct (Run.pdf_available w), (Run.docx_available w); simpl;
    intuition (try discriminate; auto).
Qed.

(** X19.  An extractor is only ever constructed for the model types
    [ollama] and [openai], for [openai] only when the package is installed
    and the API key is set, and only from a configuration file that exists
    and passes validation and a prompts file that exists.  Its model type
    is the requested one, or the string under [models.default] when none is
    requested.  The constructor stores the general and the processing
    section as it finds them, the general section being a mapping, and the
    chunk size and the overlap that the general section holds (2000 and 200
    when it holds none), whatever values these are; the processors it
    holds are those that are available. *)
Theorem init_postconditions (w : Run.world) (arg : option str)
        (self : Run.instance) :
  Run.init w arg = Ok self ->
  (Run.self_model_type self = s2l "ollama"
   \/ Run.self_model_type self = s2l "openai"
      /\ Run.openai_available w = true /\ Run.openai_api_key w = true)
  /\ match arg with
     | Some (c :: m) => Run.self_model_type self = c :: m
     | _ => exists models,
           py_getitem (Run.config self) (s2l "models") = Ok models
           /\ py_getitem models (s2l "default")
              = Ok (VStr (Run.self_model_type self))
     end
  /\ Run.config_file w = Some (Ok (Run.config self))
  /\ ConfigManager._validate_config (Run.config self) = Ok tt
  /\ Run.prompts_file w = Some (Ok (Run.prompts self))
  /\ py_getitem (Run.config self) (s2l "processing")
     = Ok (Run.processing_config self)
  /\ (exists general,
         Run.general_config self = VDict general
         /\ py_getitem (Run.config self) (s2l "general") = Ok (VDict general)
         /\ Run.text_chunk_size self
            = match dict_get (s2l "chunk_size") general with
              | Some v => v
              | None => VInt 2000
              end
         /\ Run.text_overlap self
            = match dict_get (s2l "overlap") general with
              | Some v => v
              | None => VInt 200
              end)
  /\ (forall t, In t (Run.processors self) <->
                (t = s2l "pdf" /\ Run.pdf_available w = true)
                \/ (t = s2l "docx" /\ Run.docx_available w = true)
                \/ (t = s2l "image" /\ Run.image_init w = Ok tt))
  /\ Run.env self = w.
Proof.
  intros Hinit.
  destruct (init_inv w arg self Hinit)
    as (mc & Hload & Hprompts & Hgen & Hproc & Hcs & Hov & Hres & Hm & Hllm
        & Hprocs & Henv).
  apply load_config_ok in Hload. destruct Hload as [Hc Hv].
  split; [now apply create_llm_ok in Hllm|].
  split.
  { unfold ConfigManager.model_type_or_default in Hres.
    destruct arg as [[|c m]|]; cbn [Run.arg_value truthy nonempty] in Hres.
    - destruct (py_getitem (Run.config self) (s2l "models")) as [models|];
        [|discriminate]. exists models. split; [reflexivity | exact Hres].
    - now injection Hres as <-.
    - destruct (py_getitem (Run.config self) (s2l "models")) as [models|];
        [|discriminate]. exists models. split; [reflexivity | exact Hres]. }
  split; [exact Hc|]. split; [exact Hv|].
  split.
  { unfold PromptsManager.load_prompts in Hprompts.
    destruct (Run.prompts_file w) as [[p|]|]; try discriminate.
    now injection Hprompts as <-. }
  split; [exact Hproc|].
  split.
  { unfold py_get in Hcs, Hov.
    destruct (Run.general_config self) as [| | | | |general] eqn:Eg;
      try discriminate.
    exists general. split; [reflexivity|]. split; [exact Hgen|]. split.
    - destruct (dict_get (s2l "chunk_size") general); now injection Hcs as <-.
    - destruct (dict_get (s2l "overlap") general); now injection Hov as <-. }
  split; [now apply initialize_processors_keys | exact Henv].
Qed.

Lemma init_postconditions_witness :
  exists self,
    Run.init (Demo.demo_world (Some (Ok Demo.demo_prompts)) (Some [])) None = Ok self
    /\ Run.self_model_type self = s2l "ollama"
    /\ Run.text_chunk_size self = VInt 200.
Proof.
  destruct (Run.init (Demo.demo_world (Some (Ok Demo.demo_prompts)) (Some [])) None)
    as [self|e] eqn:Hinit; [|vm_compute in Hinit; discriminate].
  exists self. split; [reflexivity|].
  destruct (init_postconditions _ _ _ Hinit)
    as ([Hm | (Hm & Hav & _)] & _ & Hc & _ & _ & _
        & (general & _ & Hg & Hcs & _) & _).
  - split; [exact Hm|].
    injection Hc as Hc. rewrite <- Hc in Hg. vm_compute in Hg.
    injection Hg as <-. exact Hcs.
  - discriminate Hav.
Defined.

(** ** Ingestion *)

Lemma type_of_suffix_supported (suffix t : str) :
  Run.type_of_suffix Run.supported_extensions suffix = Some t ->
  t = s2l "pdf" \/ t = s2l "docx" \/ t = s2l "image" \/ t = s2l "txt".
Proof.
  unfold Run.supported_extensions. cbn [Run.type_of_suffix].
  repeat match goal with
         | |- context [if existsb ?f ?l then _ else _] => destruct (existsb f l)
         end;
    intros [= <-]; tauto.
Qed.

Import IngestNotions.

Lemma listed_true (t : str) (f : Run.file_entry) :
  listed t f = true <->
  Run.f_is_file f = true
  /\ Run.type_of_suffix Run.supported_extensions (Run.f_suffix f) = Some t.
Proof.
  unfold listed. rewrite andb_true_iff.
  destruct (Run.type_of_suffix Run.supported_extensions (Run.f_suffix f)) as [t0|].
  - split.
    + intros [Hf Ht]. apply str_eqb_eq in Ht. now subst.
    + intros [Hf [= ->]]. split; [exact Hf | apply str_eqb_refl].
  - split; [intros [_ H]; discriminate | intros [_ H]; discriminate].
Qed.

Lemma supported_files_members (entries : list Run.file_entry) (t : str)
      (fs : list Run.file_entry) (f : Run.file_entry) :
  In (t, fs) (Run.get_supported_files entries Run.supported_extensions) ->
  (In f fs <->
   In f entries /\ Run.f_is_file f = true
   /\ Run.type_of_suffix Run.supported_extensions (Run.f_suffix f) = Some t).
Proof.
  intros Hin. unfold Run.get_supported_files in Hin.
  apply in_map_iff in Hin. destruct Hin as ([t' exts] & [= <- <-] & _).
  change (In f (filter (listed t') entries) <->
          In f entries /\ Run.f_is_file f = true
          /\ Run.type_of_suffix Run.supported_extensions (Run.f_suffix f) = Some t').
  rewrite filter_In, listed_true. tauto.
Qed.

Lemma supported_files_unfold (entries : list Run.file_entry) :
  Run.get_supported_files entries Run.supported_extensions
  = [(s2l "pdf", filter (listed (s2l "pdf")) entries);
     (s2l "docx", filter (listed (s2l "docx")) entries);
     (s2l "image", filter (listed (s2l "image")) entries);
     (s2l "txt", filter (listed (s2l "txt")) entries)].
Proof. reflexivity. Qed.

Lemma listed_once (f : Run.file_entry) :
  (Nat.b2n (listed (s2l "pdf") f) + Nat.b2n (listed (s2l "docx") f)
   + Nat.b2n (listed (s2l "image") f) + Nat.b2n (listed (s2l "txt") f))%nat
  = Nat.b2n (Run.f_is_file f &&
             match Run.type_of_suffix Run.supported_extensions (Run.f_suffix f) with
             | Some _ => true
             | None => false
             end).
Proof.
  unfold listed. destruct (Run.f_is_file f); [|reflexivity]. cbn [andb].
  destruct (Run.type_of_suffix Run.supported_extensions (Run.f_suffix f))
    as [t|] eqn:E; [|reflexivity].
  destruct (type_of_suffix_supported _ _ E) as [-> | [-> | [-> | ->]]];
    reflexivity.
Qed.

Lemma filter_length_cons {A} (p : A -> bool) (x : A) (l : list A) :
  length (filter p (x :: l)) = (Nat.b2n (p x) + length (filter p l))%nat.
Proof. simpl. now destruct (p x). Qed.

(** X20.  [get_supported_files] sorts the directory into the four types in
    their fixed order.  A file is listed under a type exactly when it is a
    regular file whose suffix belongs to that type, and the four lists
    together hold each such file once: their total length is the number of
    regular files with a supported suffix. *)
Theorem get_supported_files_partition (entries : list Run.file_entry) :
  let files := Run.get_supported_files entries Run.supported_extensions in
  map fst files = [s2l "pdf"; s2l "docx"; s2l "image"; s2l "txt"]
  /\ (forall t fs f,
         In (t, fs) files ->
         (In f fs <->
          In f entries /\ Run.f_is_file f = true
          /\ Run.type_of_suffix Run.supported_extensions (Run.f_suffix f) = Some t))
  /\ length (flat_map snd files)
     = length (filter (fun f =>
                         Run.f_is_file f &&
                         match Run.type_of_suffix Run.supported_extensions
                                                  (Run.f_suffix f) with
                         | Some _ => true
                         | None => false
                         end) entries).
Proof.
  cbv zeta. split; [reflexivity|]. split.
  - intros t fs f Hin. now apply supported_files_members.
  - rewrite supported_files_unfold. cbn [flat_map snd]. rewrite app_nil_r.
    rewrite !length_app.
    induction entries as [|f entries IH]; [reflexivity|].
    rewrite !filter_length_cons, <- IH, <- listed_once. lia.
Qed.

Lemma ingest_file_inv (self : Run.instance) (t : str) (f : Run.file_entry)
      (acc out : list DocumentRAGExtractor.doc_info) :
  Run.ingest_file self t f acc = Ok out ->
  out = acc \/ exists doc, out = acc ++ [doc] /\ ingested_from self t f doc.
Proof.
  unfold Run.ingest_file.
  destruct (py_get (Run.processing_config self) (s2l "max_file_size_mb") (VInt 100))
    as [limit|] eqn:Hlimit; [|discriminate]. cbn [bind].
  destruct (Run.validate_file_size f limit) eqn:Hsize; cbn [negb];
    [|intros [= <-]; now left].
  destruct (Run.try_file self t f) as [[doc|]|] eqn:Htry;
    intros [= <-]; [|now left|now left].
  right. exists doc. split; [reflexivity|].
  unfold ingested_from. split; [now exists limit|].
  unfold Run.try_file in Htry.
  destruct (str_eqb t (s2l "txt")) eqn:Et.
  - destruct (Run.f_read f) as [content|]; [|discriminate].
    cbn [bind] in Htry. injection Htry as <-.
    cbn [DocumentRAGExtractor.file_name DocumentRAGExtractor.file_type
         DocumentRAGExtractor.text].
    apply str_eqb_eq in Et. repeat split. left. eauto.
  - destruct (existsb (str_eqb t) (Run.processors self)) eqn:Ep; [|discriminate].
    destruct (Run.f_process f) as [[ok txt]|]; [|discriminate].
    cbn [bind fst snd] in Htry. destruct ok; [|discriminate].
    injection Htry as <-.
    cbn [DocumentRAGExtractor.file_name DocumentRAGExtractor.file_type
         DocumentRAGExtractor.text].
    repeat split. right. split; [|split; [|reflexivity]].
    + intros ->. now rewrite str_eqb_refl in Et.
    + apply existsb_exists in Ep. destruct Ep as (x & Hx & Hxt).
      apply str_eqb_eq in Hxt. now subst x.
Qed.

Lemma ingest_files_inv (self : Run.instance) (t : str)
      (files : list Run.file_entry) :
  forall acc out,
    Run.ingest_files self t files acc = Ok out ->
    exists added,
      out = acc ++ added
      /\ (length added <= length files)%nat
      /\ forall doc, In doc added ->
                     exists f, In f files /\ ingested_from self t f doc.
Proof.
  induction files as [|f files IH]; intros acc out; cbn [Run.ingest_files].
  - intros [= <-]. exists []. rewrite app_nil_r. repeat split; [simpl; lia|].
    intros doc [].
  - destruct (Run.ingest_file self t f acc) as [mid|] eqn:Hf; [|discriminate].
    cbn [bind]. intros Hrest.
    destruct (IH _ _ Hrest) as (added & -> & Hlen & Hfrom).
    destruct (ingest_file_inv _ _ _ _ _ Hf) as [-> | (doc & -> & Hdoc)].
    + exists added. repeat split; [simpl; lia|].
      intros doc Hin. destruct (Hfrom doc Hin) as (f' & Hf' & Hd).
      exists f'. split; [now right | exact Hd].
    + exists (doc :: added). rewrite <- app_assoc. repeat split; [simpl; lia|].
      intros doc' [<- | Hin].
      * exists f. split; [now left | exact Hdoc].
      * destruct (Hfrom doc' Hin) as (f' & Hf' & Hd).
        exists f'. split; [now right | exact Hd].
Qed.

Lemma ingest_types_inv (self : Run.instance)
      (files_by_type : dict (list Run.file_entry)) :
  forall acc out,
    Run.ingest_types self files_by_type acc = Ok out ->
    exists added,
      out = acc ++ added
      /\ (length added <= length (flat_map snd files_by_type))%nat
      /\ forall doc, In doc added ->
                     exists t files f,
                       In (t, files) files_by_type /\ In f files
                       /\ ingested_from self t f doc.
Proof.
  induction files_by_type as [|[t files] rest IH]; intros acc out;
    cbn [Run.ingest_types].
  - intros [= <-]. exists []. rewrite app_nil_r. repeat split; [simpl; lia|].
    intros doc [].
  - destruct (Run.ingest_files self t files acc) as [mid|] eqn:Hf; [|discriminate].
    cbn [bind]. intros Hrest.
    destruct (IH _ _ Hrest) as (added2 & -> & Hlen2 & Hfrom2).
    destruct (ingest_files_inv _ _ _ _ _ Hf) as (added1 & -> & Hlen1 & Hfrom1).
    exists (added1 ++ added2). rewrite <- app_assoc. split; [reflexivity|].
    split.
    + cbn [flat_map snd]. rewrite !length_app. lia.
    + intros doc Hin. apply in_app_or in Hin. destruct Hin as [Hin | Hin].
      * destruct (Hfrom1 doc Hin) as (f & Hf' & Hd).
        exists t, files, f. split; [now left | auto].
      * destruct (Hfrom2 doc Hin) as (t' & files' & f & Hin' & Hf' & Hd).
        exists t', files', f. split; [now right | auto].
Qed.

Lemma supported_files_length (entries : list Run.file_entry) :
  (length (flat_map snd (Run.get_supported_files entries Run.supported_extensions))
   <= length entries)%nat.
Proof.
  rewrite supported_files_unfold. cbn [flat_map snd]. rewrite app_nil_r.
  rewrite !length_app.
  induction entries as [|f entries IH]; [simpl; lia|].
  rewrite !filter_length_cons. pose proof (listed_once f) as Hone.
  change (length (f :: entries)) with (S (length entries)).
  match type of Hone with
  | _ = Nat.b2n ?b => destruct b; cbn [Nat.b2n] in Hone; lia
  end.
Qed.

(** X21.  Ingestion reads the size limit from the processing section for
    every file: when that section is a mapping ingestion returns, and when
    it is not ingestion raises [AttributeError] as soon as the directory
    holds one supported file.  Ingestion never invents a document: every
    ingested document comes from a regular file of the directory that
    passed the size check against the configured limit, under the file's
    name; a text file gives its cleaned content and any other file the
    text that the processor of its type, which the instance holds,
    reported with success.  There are at most as many documents as
    directory entries. *)
Theorem ingest_sound (self : Run.instance) (entries : list Run.file_entry) :
  (is_dict (Run.processing_config self) = true ->
   exists docs, Run.ingest self entries = Ok docs)
  /\ (is_dict (Run.processing_config self) = false ->
      Run.ingest self entries
      = if nonempty (flat_map snd (Run.get_supported_files
                                     entries Run.supported_extensions))
        then Raise AttributeError
        else Ok [])
  /\ forall docs,
      Run.ingest self entries = Ok docs ->
      (forall doc,
          In doc docs ->
          exists f limit,
            In f entries /\ Run.f_is_file f = true
            /\ py_get (Run.processing_config self) (s2l "max_file_size_mb")
                      (VInt 100) = Ok limit
            /\ Run.validate_file_size f limit = true
            /\ DocumentRAGExtractor.file_name doc = Run.f_name f
            /\ Run.type_of_suffix Run.supported_extensions (Run.f_suffix f)
               = Some (DocumentRAGExtractor.file_type doc)
            /\ ((DocumentRAGExtractor.file_type doc = s2l "txt"
                 /\ exists content,
                     Run.f_read f = Ok content
                     /\ DocumentRAGExtractor.text doc
                        = TextProcessor.clean_text content)
                \/ (DocumentRAGExtractor.file_type doc <> s2l "txt"
                    /\ In (DocumentRAGExtractor.file_type doc) (Run.processors self)
                    /\ Run.f_process f = Ok (true, DocumentRAGExtractor.text doc))))
      /\ (length docs <= length entries)%nat.
Proof.
  split; [|split].
  - intros Hd. now apply ingest_types_total.
  - intros Hd. now apply ingest_types_no_mapping.
  - intros docs Hdocs. unfold Run.ingest in Hdocs.
    destruct (ingest_types_inv _ _ _ _ Hdocs) as (added & -> & Hlen & Hfrom).
    cbn [app]. split.
    + intros doc Hin.
      destruct (Hfrom doc Hin)
        as (t & files & f & Hfiles & Hf & (limit & Hlimit & Hsize) & Hname & Htype & Hcase).
      apply (supported_files_members entries t files f Hfiles) in Hf.
      destruct Hf as (Hent & Hfile & Hsuffix).
      exists f, limit. rewrite Htype. repeat split; assumption.
    + pose proof (supported_files_length entries). lia.
Qed.

Lemma get_supported_files_partition_witness :
  Run.f_is_file Demo.readable = true
  /\ Run.type_of_suffix Run.supported_extensions (Run.f_suffix Demo.readable)
     = Some (s2l "txt").
Proof.
  apply (proj1 (proj2 (get_supported_files_partition
                         [Demo.unreadable; Demo.readable]))
           (s2l "txt") [Demo.unreadable; Demo.readable] Demo.readable).
  - vm_compute. do 3 right. left. reflexivity.
  - right. left. reflexivity.
Defined.

Lemma ingest_sound_witness :
  exists docs f,
    Run.ingest Demo.demo_instance [Demo.unreadable; Demo.readable] = Ok docs
    /\ length docs = 1%nat
    /\ In f [Demo.unreadable; Demo.readable]
    /\ Run.f_name f = s2l "demo.txt"
    /\ Run.validate_file_size f (VInt 100) = true.
Proof.
  destruct (proj1 (ingest_sound Demo.demo_instance [Demo.unreadable; Demo.readable])
              eq_refl) as (docs & Hdocs).
  assert (Hlist : docs = [{| DocumentRAGExtractor.file_name := s2l "demo.txt";
                             DocumentRAGExtractor.file_type := s2l "txt";
                             DocumentRAGExtractor.text :=
                               TextProcessor.clean_text
                                 (DocumentRAGExtractor.text Demo.demo_doc) |}]).
  { vm_compute in Hdocs. injection Hdocs as <-. vm_compute. reflexivity. }
  destruct (proj1 (proj2 (proj2 (ingest_sound Demo.demo_instance
                                   [Demo.unreadable; Demo.readable]))
                     docs Hdocs)
              {| DocumentRAGExtractor.file_name := s2l "demo.txt";
                 DocumentRAGExtractor.file_type := s2l "txt";
                 DocumentRAGExtractor.text :=
                   TextProcessor.clean_text (DocumentRAGExtractor.text Demo.demo_doc) |})
    as (f & limit & Hin & _ & Hlimit & Hsize & Hname & _).
  - rewrite Hlist. left. reflexivity.
  - exists docs, f. split; [exact Hdocs|]. split; [now rewrite Hlist|].
    split; [exact Hin|]. split; [now rewrite <- Hname|].
    vm_compute in Hlimit. injection Hlimit as <-. exact Hsize.
Defined.

(** ** The fallback reads back what is written in its form *)

Lemma word_char_facts (c : ascii) :
  is_word c = true ->
  is_space c = false /\ Ascii.eqb c ":" = false /\ Ascii.eqb c nl = false
  /\ Ascii.eqb nl c = false.
Proof.
  destruct c as [[] [] [] [] [] [] [] []]; vm_compute; intuition congruence.
Qed.

Lemma word_run_colon_app (p rest : str) :
  forall b, word_run_colon b (p ++ nl :: rest) = word_run_colon b p.
Proof.
  induction p as [|c p IH]; intros b.
  - simpl. now destruct b.
  - cbn [app word_run_colon]. destruct (is_word c); [apply IH | reflexivity].
Qed.

Lemma header_ahead_key (k rest : str) :
  ParserNotions.key_ok k = true -> header_ahead (k ++ ":"%char :: rest) = true.
Proof.
  unfold ParserNotions.key_ok, header_ahead. rewrite andb_true_iff.
  intros [Hne Hw]. destruct k as [|c k]; [discriminate|].
  cbn [app word_run_colon]. cbn [forallb] in Hw.
  apply andb_true_iff in Hw. destruct Hw as [Hc Hw]. rewrite Hc. clear Hne Hc c.
  induction k as [|c k IH]; [reflexivity|].
  cbn [app word_run_colon]. cbn [forallb] in Hw.
  apply andb_true_iff in Hw. destruct Hw as [Hc Hw]. rewrite Hc. now apply IH.
Qed.

Import ParserNotions.

Lemma split_sections_single (p : str) :
  no_split p = true -> split_sections p = [p].
Proof.
  induction p as [|c p IH]; [reflexivity|].
  cbn [no_split split_sections]. rewrite andb_true_iff, negb_true_iff.
  intros [Hc Hp]. rewrite Hc, (IH Hp). reflexivity.
Qed.

Lemma split_sections_app (p rest : str) :
  no_split p = true -> header_ahead rest = true ->
  split_sections (p ++ nl :: rest) = p :: split_sections rest.
Proof.
  intros Hp Hrest. induction p as [|c p IH].
  - cbn [app split_sections]. now rewrite Hrest.
  - cbn [no_split] in Hp. rewrite andb_true_iff, negb_true_iff in Hp.
    destruct Hp as [Hc Hp]. cbn [app split_sections].
    unfold header_ahead in *. rewrite word_run_colon_app, Hc, (IH Hp).
    reflexivity.
Qed.

Lemma no_split_prefix (x y : str) :
  forallb (fun c => negb (Ascii.eqb c nl)) x = true ->
  no_split y = true -> no_split (x ++ y) = true.
Proof.
  intros Hx Hy. induction x as [|c x IH]; [exact Hy|].
  cbn [forallb] in Hx. apply andb_true_iff in Hx. destruct Hx as [Hc Hx].
  cbn [app no_split]. apply negb_true_iff in Hc. rewrite Hc. cbn [andb negb].
  now apply IH.
Qed.

Lemma line_ok_facts (l : str) :
  line_ok l = true ->
  l <> []
  /\ is_space (hd " "%char l) = false
  /\ is_space (last l " "%char) = false
  /\ forallb (fun c => negb (Ascii.eqb c nl)) l = true
  /\ starts_with_hash l = false
  /\ header_ahead l = false.
Proof.
  unfold line_ok. rewrite !andb_true_iff, !negb_true_iff.
  intros [[[[[Hne Hhd] Hlast] Hnl] Hhash] Hhead].
  repeat split; try assumption.
  - intros ->. discriminate.
  - apply forallb_forall. intros c Hc. apply negb_true_iff.
    destruct (Ascii.eqb c nl) eqn:E; [|reflexivity].
    apply Ascii.eqb_eq in E. subst c.
    assert (Hex : existsb (Ascii.eqb nl) l = true).
    { apply existsb_exists. exists nl. split; [exact Hc | apply Ascii.eqb_refl]. }
    congruence.
Qed.

Lemma no_split_render_lines (lines : list str) :
  forallb line_ok lines = true -> no_split (render_lines lines) = true.
Proof.
  induction lines as [|l lines IH]; [reflexivity|].
  cbn [forallb]. rewrite andb_true_iff. intros [Hl Hls].
  destruct (line_ok_facts l Hl) as (_ & _ & _ & Hnl & _ & Hhead).
  unfold render_lines in *. cbn [map concat app no_split].
  assert (Hah : header_ahead (l ++ concat (map (cons nl) lines)) = false).
  { destruct lines as [|l2 lines]; cbn [map concat].
    - now rewrite app_nil_r.
    - cbn [app]. unfold header_ahead in *. now rewrite word_run_colon_app. }
  rewrite Hah. cbn [andb negb]. apply no_split_prefix; [exact Hnl | now apply IH].
Qed.

Lemma key_ok_facts (k : str) :
  key_ok k = true ->
  k <> []
  /\ (forall c, In c k -> is_word c = true)
  /\ forallb (fun c => negb (Ascii.eqb c nl)) (k ++ [":"%char]) = true.
Proof.
  unfold key_ok. rewrite andb_true_iff. intros [Hne Hw].
  rewrite forallb_forall in Hw. repeat split.
  - intros ->. discriminate.
  - exact Hw.
  - apply forallb_forall. intros c Hc. apply in_app_or in Hc.
    destruct Hc as [Hc | [<- | []]]; [|reflexivity].
    apply negb_true_iff. now apply word_char_facts, Hw.
Qed.

Lemma render_section_split (k : str) (lines : list str) :
  render_section (k, lines) = (k ++ [":"%char]) ++ render_lines lines.
Proof. unfold render_section. cbn [fst snd]. now rewrite <- app_assoc. Qed.

Lemma no_split_render_section (k : str) (lines : list str) :
  key_ok k = true -> forallb line_ok lines = true ->
  no_split (render_section (k, lines)) = true.
Proof.
  intros Hk Hl. rewrite render_section_split.
  apply no_split_prefix; [now apply key_ok_facts | now apply no_split_render_lines].
Qed.

Lemma entry_ok_facts (e : str * list str) :
  entry_ok e = true ->
  key_ok (fst e) = true /\ snd e <> [] /\ forallb line_ok (snd e) = true.
Proof.
  unfold entry_ok. rewrite !andb_true_iff. intros [[Hk Hne] Hl].
  repeat split; try assumption. intros E. now rewrite E in Hne.
Qed.

Lemma render_header_ahead (d : dict (list str)) :
  d <> [] -> forallb entry_ok d = true -> header_ahead (render d) = true.
Proof.
  destruct d as [|[k lines] d]; [congruence|]. intros _ Hd.
  cbn [forallb] in Hd. apply andb_true_iff in Hd. destruct Hd as [He _].
  destruct (entry_ok_facts _ He) as (Hk & _ & _). cbn [fst] in Hk.
  unfold render. cbn [map].
  destruct (map render_section d) as [|s2 rest] eqn:E.
  - cbn [join]. unfold render_section. cbn [fst snd]. now apply header_ahead_key.
  - rewrite join_cons by discriminate. unfold render_section at 1. cbn [fst snd].
    rewrite <- app_assoc. cbn [app]. now apply header_ahead_key.
Qed.

Lemma split_sections_render (d : dict (list str)) :
  d <> [] -> forallb entry_ok d = true ->
  split_sections (render d) = map render_section d.
Proof.
  induction d as [|[k lines] d IH]; [congruence|]. intros _ Hd.
  cbn [forallb] in Hd. apply andb_true_iff in Hd. destruct Hd as [He Hd].
  destruct (entry_ok_facts _ He) as (Hk & _ & Hl). cbn [fst snd] in Hk, Hl.
  pose proof (no_split_render_section k lines Hk Hl) as Hns.
  destruct d as [|e2 d].
  - unfold render. cbn [map join]. now apply split_sections_single.
  - unfold render in *. cbn [map]. rewrite join_cons by discriminate.
    rewrite split_sections_app.
    + f_equal. apply IH; [discriminate | exact Hd].
    + exact Hns.
    + apply (render_header_ahead (e2 :: d)); [discriminate | exact Hd].
Qed.

Lemma last_app_nonempty (a l : str) (d : ascii) :
  l <> [] -> last (a ++ l) d = last l d.
Proof.
  intros Hne. induction a as [|x a IH]; [reflexivity|].
  cbn [app]. destruct (a ++ l) eqn:E.
  - destruct a; [simpl in E; congruence | discriminate].
  - cbn [last]. exact IH.
Qed.

(** A string that begins and ends with a character other than white space
    is its own stripped form. *)
Lemma strip_id (s : str) :
  s <> [] ->
  is_space (hd " "%char s) = false -> is_space (last s " "%char) = false ->
  strip s = s.
Proof.
  intros Hne Hhd Hlast. unfold strip, rstrip.
  assert (Hl : lstrip s = s).
  { destruct s as [|c s]; [congruence|]. simpl in *. now rewrite Hhd. }
  rewrite Hl. destruct (exists_last Hne) as (s' & x & ->).
  rewrite last_last in Hlast. rewrite rev_app_distr. cbn [rev app lstrip].
  rewrite Hlast. cbn [rev]. now rewrite rev_involutive.
Qed.

Lemma split_lines_single (x : str) :
  forallb (fun c => negb (Ascii.eqb c nl)) x = true -> split_lines x = [x].
Proof.
  induction x as [|c x IH]; [reflexivity|].
  cbn [forallb split_lines]. rewrite andb_true_iff, negb_true_iff.
  intros [Hc Hx]. now rewrite Hc, (IH Hx).
Qed.

Lemma split_lines_app (x y : str) :
  forallb (fun c => negb (Ascii.eqb c nl)) x = true ->
  split_lines (x ++ nl :: y) = x :: split_lines y.
Proof.
  induction x as [|c x IH]; intros Hx.
  - cbn [app split_lines]. now rewrite Ascii.eqb_refl.
  - cbn [forallb] in Hx. rewrite andb_true_iff, negb_true_iff in Hx.
    destruct Hx as [Hc Hx]. cbn [app split_lines]. now rewrite Hc, (IH Hx).
Qed.

Lemma split_lines_render (lines : list str) :
  forallb line_ok lines = true ->
  forall x,
    forallb (fun c => negb (Ascii.eqb c nl)) x = true ->
    split_lines (x ++ render_lines lines) = x :: lines.
Proof.
  induction lines as [|l lines IH]; intros Hl x Hx.
  - unfold render_lines. cbn [map concat]. rewrite app_nil_r.
    now apply split_lines_single.
  - cbn [forallb] in Hl. apply andb_true_iff in Hl. destruct Hl as [Hl Hls].
    destruct (line_ok_facts l Hl) as (_ & _ & _ & Hnl & _).
    unfold render_lines in *. cbn [map concat app].
    rewrite split_lines_app by exact Hx. f_equal. now apply IH.
Qed.

Lemma section_content_render (lines : list str) :
  forallb line_ok lines = true -> section_content lines = lines.
Proof.
  unfold section_content. induction lines as [|l lines IH]; [reflexivity|].
  cbn [forallb]. rewrite andb_true_iff. intros [Hl Hls].
  destruct (line_ok_facts l Hl) as (Hne & Hhd & Hlast & _ & Hhash & _).
  cbn [map filter]. rewrite (strip_id l Hne Hhd Hlast), Hhash.
  destruct l; [congruence|]. cbn [nonempty andb negb]. now rewrite (IH Hls).
Qed.

Lemma remove_colons_key (k : str) :
  (forall c, In c k -> is_word c = true) ->
  remove_colons (k ++ [":"%char]) = k.
Proof.
  intros Hw. unfold remove_colons. rewrite filter_app. cbn [filter].
  rewrite Ascii.eqb_refl. cbn [negb]. rewrite app_nil_r.
  apply forallb_filter_id. apply forallb_forall. intros c Hc.
  apply negb_true_iff. now apply word_char_facts, Hw.
Qed.

Lemma strip_key (k : str) :
  k <> [] -> (forall c, In c k -> is_word c = true) -> strip k = k.
Proof.
  intros Hne Hw. apply strip_id; [exact Hne | |].
  - destruct k as [|c k]; [congruence|]. apply word_char_facts, Hw. now left.
  - destruct (exists_last Hne) as (k' & x & ->). rewrite last_last.
    apply word_char_facts, Hw. apply in_or_app. right. now left.
Qed.

Lemma section_entry_render (k : str) (lines : list str) :
  entry_ok (k, lines) = true ->
  section_entry (render_section (k, lines)) = Some (k, lines).
Proof.
  intros He. destruct (entry_ok_facts _ He) as (Hk & Hne & Hl).
  cbn [fst snd] in *.
  destruct (key_ok_facts k Hk) as (Hkne & Hw & Hknl).
  assert (Hcolon : has_colon (render_section (k, lines)) = true).
  { unfold has_colon, render_section. cbn [fst snd]. apply existsb_exists.
    exists ":"%char. split; [|reflexivity]. apply in_or_app. right. now left. }
  assert (Hstrip : strip (render_section (k, lines)) = render_section (k, lines)).
  { apply strip_id.
    - unfold render_section. cbn [fst snd]. destruct k; [congruence | discriminate].
    - unfold render_section. cbn [fst snd]. destruct k as [|c k]; [congruence|].
      cbn [app hd]. apply word_char_facts, Hw. now left.
    - destruct (exists_last Hne) as (ls & l & ->).
      rewrite forallb_app in Hl. apply andb_true_iff in Hl.
      destruct Hl as [_ Hl]. cbn [forallb] in Hl. rewrite andb_true_r in Hl.
      destruct (line_ok_facts l Hl) as (Hlne & _ & Hlast & _).
      rewrite render_section_split. unfold render_lines.
      rewrite map_app, concat_app. cbn [map concat]. rewrite app_nil_r.
      rewrite !app_assoc.
      change (nl :: l) with ([nl] ++ l). rewrite app_assoc.
      now rewrite last_app_nonempty. }
  unfold section_entry. rewrite Hcolon, Hstrip, render_section_split.
  rewrite (split_lines_render lines Hl _ Hknl).
  rewrite (remove_colons_key k Hw), (strip_key k Hkne Hw).
  rewrite (section_content_render lines Hl).
  destruct lines; [congruence | reflexivity].
Qed.

Lemma fold_add_section_render (d : dict (list str)) :
  forall acc,
    NoDup (map fst acc ++ map fst d) ->
    forallb entry_ok d = true ->
    fold_left add_section (map render_section d) acc = acc ++ d.
Proof.
  induction d as [|[k lines] d IH]; intros acc Hnd Hd; cbn [map fold_left].
  - now rewrite app_nil_r.
  - cbn [forallb] in Hd. apply andb_true_iff in Hd. destruct Hd as [He Hd].
    assert (Hk : dict_get k acc = None).
    { destruct (dict_get k acc) eqn:E; [|reflexivity]. exfalso.
      assert (Hmem : dict_mem k acc = true) by (unfold dict_mem; now rewrite E).
      rewrite dict_mem_keys in Hmem. apply existsb_exists in Hmem.
      destruct Hmem as (x & Hx & Hxk). apply str_eqb_eq in Hxk. subst x.
      cbn [map fst] in Hnd. apply NoDup_remove_2 in Hnd. apply Hnd.
      apply in_or_app. now left. }
    unfold add_section at 2. rewrite (section_entry_render k lines He).
    rewrite (dict_set_absent k lines acc Hk), IH.
    + now rewrite <- app_assoc.
    + rewrite map_app. cbn [map fst]. rewrite <- app_assoc. exact Hnd.
    + exact Hd.
Qed.

(** X22.  The fallback reads back a dictionary written in its own form.
    When every key is a word, the keys are distinct, every list is not
    empty and every line is trimmed, not empty, without a newline, not a
    comment and not of the form of a header, then writing each key as a
    header line [key:] followed by its lines and parsing the text with the
    fallback gives the dictionary again, keys and lines in their order. *)
Theorem extract_structured_data_render (d : dict (list str)) :
  NoDup (map fst d) ->
  forallb entry_ok d = true ->
  _extract_structured_data (render d) = d.
Proof.
  intros Hnd Hd. unfold _extract_structured_data.
  destruct d as [|e d]; [reflexivity|].
  rewrite split_sections_render by (discriminate || exact Hd).
  now rewrite (fold_add_section_render (e :: d) [] Hnd Hd).
Qed.

Lemma extract_structured_data_render_witness :
  _extract_structured_data (s2l "products:
- Widget
- Gadget
security:
encrypted at rest")
  = [(s2l "products", [s2l "- Widget"; s2l "- Gadget"]);
     (s2l "security", [s2l "encrypted at rest"])].
Proof.
  apply (extract_structured_data_render
           [(s2l "products", [s2l "- Widget"; s2l "- Gadget"]);
            (s2l "security", [s2l "encrypted at rest"])]).
  - repeat constructor; simpl; intuition discriminate.
  - vm_compute. reflexivity.
Defined.

(** ** Chunks are parts of the text *)

Lemma part_occurs (t l c r : str) (a n : nat) :
  firstn n (skipn a t) = l ++ c ++ r ->
  occurs_at t (a + length l) c.
Proof.
  intros Hdec. unfold occurs_at.
  replace (a + length l)%nat with (length l + a)%nat by lia.
  rewrite <- skipn_skipn, <- (firstn_skipn n (skipn a t)), Hdec.
  rewrite <- app_assoc, skipn_app, skipn_all, Nat.sub_diag. simpl.
  rewrite <- app_assoc, firstn_app, firstn_all, Nat.sub_diag. simpl.
  now rewrite app_nil_r.
Qed.

(** X23.  Every chunk that the chunker returns is a part of the text as it
    stands there: the chunker cuts and trims, it never changes, joins or
    reorders characters. *)
Theorem chunk_text_chunks_occur (chunk_size overlap : Z) (fuel : nat)
        (text : str) (chunks : list str) :
  chunk_text chunk_size overlap fuel text = Some chunks ->
  forall c, In c chunks -> exists q, occurs_at text q c.
Proof.
  unfold chunk_text. destruct (py_len text <=? chunk_size).
  - intros [= <-] c [<- | []]. exists 0%nat. unfold occurs_at. simpl.
    apply firstn_all.
  - rewrite chunk_loop_windows.
    destruct (chunk_windows chunk_size overlap fuel text 0) as [ws|]; [|discriminate].
    intros [= <-] c Hc. apply chunks_of_members in Hc.
    destruct Hc as (_ & [s e] & _ & ->). cbn [fst snd].
    destruct (strip_decomp (py_slice text s e)) as (l & r & Hdec & _).
    unfold py_slice in Hdec at 1. cbv zeta in Hdec.
    eexists. exact (part_occurs _ _ _ _ _ _ Hdec).
Qed.

Lemma chunk_text_chunks_occur_witness :
  exists q,
    occurs_at (" "%char :: repeat "a"%char 250) q (repeat "a"%char 199).
Proof.
  apply (chunk_text_chunks_occur 200 0 252 (" "%char :: repeat "a"%char 250)
           [repeat "a"%char 199; repeat "a"%char 51]).
  - vm_compute. reflexivity.
  - left. reflexivity.
Defined.

(** ** Validation of a configuration that is no mapping *)

Lemma validate_sections_string (s : str) (sections : list str) :
  ConfigManager.validate_sections (VStr s) sections
  = if forallb (fun section => substringb section s) sections
    then Ok tt else Raise ValueError.
Proof.
  induction sections as [|section sections IH]; [reflexivity|].
  cbn [ConfigManager.validate_sections forallb py_contains bind].
  destruct (substringb section s); [exact IH | reflexivity].
Qed.

(** X24.  Validation tests membership, and on a string membership is the
    test for a substring: a configuration file that holds a plain text is
    accepted exactly when the four section names occur in it, and then the
    first access to a section raises a [TypeError]; a file that holds
    nothing (read as [None]) is refused with a [TypeError]. *)
Theorem validate_config_non_mapping (s : str) :
  ConfigManager._validate_config (VStr s)
  = (if forallb (fun section => substringb section s)
                ConfigManager.required_sections
     then Ok tt else Raise ValueError)
  /\ ConfigManager.get_general_config (VStr s) = Raise TypeError
  /\ ConfigManager.load_config (Some (Ok VNone)) = Raise TypeError
  /\ (forall w arg,
         Run.config_file w = Some (Ok (VStr s)) ->
         (exists prompts, Run.prompts_file w = Some (Ok prompts)) ->
         forallb (fun section => substringb section s)
                 ConfigManager.required_sections = true ->
         Run.init w arg = Raise TypeError).
Proof.
  split; [apply validate_sections_string|]. split; [reflexivity|].
  split; [reflexivity|].
  intros w arg Hc (prompts & Hp) Hall.
  unfold Run.init, ConfigManager.load_config, ConfigManager._validate_config.
  rewrite Hc. cbn [bind]. rewrite validate_sections_string, Hall. cbn [bind].
  unfold PromptsManager.load_prompts. rewrite Hp. reflexivity.
Qed.

Lemma validate_config_non_mapping_witness :
  Run.init
    {| Run.config_file :=
         Some (Ok (VStr (s2l "general models extraction_schema processing")));
       Run.prompts_file := Some (Ok Demo.demo_prompts);
       Run.openai_available := false;
       Run.openai_api_key := false;
       Run.pdf_available := false;
       Run.docx_available := false;
       Run.image_init := Raise ImportError;
       Run.docs_dir := Some [];
       Run.str_format := fun template _ _ => Ok template;
       Run.llm := fun _ _ _ _ => Ok [];
       Run.yaml_load := Demo.demo_load;
       Run.clock := [];
       Run.save := Ok tt |} None
  = Raise TypeError.
Proof.
  apply (proj2 (proj2 (proj2 (validate_config_non_mapping
                                (s2l "general models extraction_schema processing"))))).
  - reflexivity.
  - eexists. reflexivity.
  - reflexivity.
Defined.
